(** * Santa's Gift Workshop front end (web/app.js): call lifecycle, cleanup,
      mute, settings loading and domain-event dispatch.

    The script is modelled as a shallow embedding: module-level variables,
    the parts of the document the script touches, and the SDK objects it holds
    handles to form a [World]; every JavaScript function becomes a computation
    in a small state / exception / output monad; an [async] function is cut at
    its [await]s into segments, the suspended remainder being a [Frame] kept in
    the world until the environment settles the awaited promise. *)

From Stdlib Require Import ZArith String Ascii List Bool Lia.
From stdpp Require Import base option list strings gmap.
Import ListNotations.

Local Open Scope string_scope.
Local Open Scope Z_scope.
Local Open Scope nat_scope.

Set Warnings "-register-all".

(** ** JavaScript values *)

(** Event payloads, parsed settings and values written to the page.  A number
    is a double; it is kept as a decimal [m * 10^e] that rounds to it, and
    what the script can tell of a number (whether it is zero) is read off the
    double, see [rounds_to_zero]. *)
Inductive JSValue : Type :=
| JUndefined
| JNull
| JBool (b : bool)
| JNum (m e : Z)
| JStr (s : string)
| JArr (items : list JSValue)
| JObj (fields : list (string * JSValue)).

Inductive Exn : Type :=
| TypeError (what : string)
| SyntaxError
| SdkError.

Inductive Completion (A : Type) : Type :=
| Normal (a : A)
| Throw (e : Exn).
Arguments Normal {A} a.
Arguments Throw {A} e.

(** Whether the double nearest to [m * 10^e] is zero: [m] is, or the decimal
    is at most half the smallest subnormal, [2^-1075] (a tie there goes to
    the even neighbour, zero). *)
Definition rounds_to_zero (m e : Z) : bool :=
  if (m =? 0)%Z then true
  else if (e <? 0)%Z then (Z.abs m * 2 ^ 1075 <=? 10 ^ (- e))%Z
  else false.

(** ToBoolean *)
Definition truthy (v : JSValue) : bool :=
  match v with
  | JUndefined | JNull => false
  | JBool b => b
  | JNum m e => negb (rounds_to_zero m e)
  | JStr s => negb (String.eqb s EmptyString)
  | JArr _ | JObj _ => true
  end.

(** [a || b] *)
Definition js_or (a b : JSValue) : JSValue := if truthy a then a else b.

(** Own-property lookup in an object; of duplicate keys the last one wins. *)
Fixpoint find_field (k : string) (fs : list (string * JSValue)) : option JSValue :=
  match fs with
  | [] => None
  | (k', v) :: rest =>
      match find_field k rest with
      | Some later => Some later
      | None => if String.eqb k k' then Some v else None
      end
  end.

Definition lookup_field (k : string) (fs : list (string * JSValue)) : JSValue :=
  default JUndefined (find_field k fs).

(** [v.k]: reading a property of [undefined] or [null] throws. *)
Definition get_prop (v : JSValue) (k : string) : Completion JSValue :=
  match v with
  | JUndefined => Throw (TypeError "Cannot read properties of undefined")
  | JNull => Throw (TypeError "Cannot read properties of null")
  | JObj fs => Normal (lookup_field k fs)
  | JArr l => Normal (if String.eqb k "length" then JNum (Z.of_nat (length l)) 0
                      else JUndefined)
  | JStr s => Normal (if String.eqb k "length" then JNum (Z.of_nat (String.length s)) 0
                      else JUndefined)
  | JBool _ | JNum _ _ => Normal JUndefined
  end.

(** [v === 0] *)
Definition is_zero (v : JSValue) : bool :=
  match v with JNum m e => rounds_to_zero m e | _ => false end.

(** [v === 'literal'] *)
Definition is_str (v : JSValue) (lit : string) : bool :=
  match v with JStr s => String.eqb s lit | _ => false end.

(** Whether ToString(v) completes.  The values here are data, so a property
    is never a function.  An object is converted by the inherited [toString]
    unless it has a [toString] of its own: that one cannot be called, and
    [valueOf], own or inherited, gives no primitive, so the conversion throws.
    An array joins its elements, converting each one that is not undefined
    or null.  Every other value has a string. *)
Fixpoint has_string (v : JSValue) : bool :=
  match v with
  | JObj fs => match find_field "toString" fs with Some _ => false | None => true end
  | JArr items => forallb has_string items
  | _ => true
  end.

(** ToString(v), in a template literal or in the setter of a string
    attribute: the text itself is not kept, only whether there is one. *)
Definition to_string (v : JSValue) : Completion unit :=
  if has_string v then Normal tt
  else Throw (TypeError "Cannot convert object to primitive value").

(** [JSON.stringify(v).substring(0, 100)]: [JSON.stringify] gives
    [undefined] for [undefined], and a string for every other value. *)
Definition stringify_prefix (v : JSValue) : Completion unit :=
  match v with
  | JUndefined => Throw (TypeError "Cannot read properties of undefined")
  | _ => Normal tt
  end.

(** ** JSON.parse

    The host's [JSON.parse], as a recursive-descent parser of the JSON
    grammar over the bytes of the text.  [None] stands for the SyntaxError it
    throws. *)
Module Json.

Definition is_ws (c : ascii) : bool :=
  let n := nat_of_ascii c in
  (n =? 32) || (n =? 9) || (n =? 10) || (n =? 13).

Fixpoint skip_ws (s : string) : string :=
  match s with
  | String c r => if is_ws c then skip_ws r else s
  | EmptyString => s
  end.

Fixpoint strip_prefix (p s : string) : option string :=
  match p, s with
  | EmptyString, _ => Some s
  | String a p', String b s' => if Ascii.eqb a b then strip_prefix p' s' else None
  | String _ _, EmptyString => None
  end.

Definition digit_of (c : ascii) : option Z :=
  let n := nat_of_ascii c in
  if (48 <=? n) && (n <=? 57) then Some (Z.of_nat (n - 48)) else None.

Definition hex_of (c : ascii) : option nat :=
  let n := nat_of_ascii c in
  if (48 <=? n) && (n <=? 57) then Some (n - 48)
  else if (65 <=? n) && (n <=? 70) then Some (n - 55)
  else if (97 <=? n) && (n <=? 102) then Some (n - 87)
  else None.

(** A maximal run of digits: its value, how many there were, and the rest. *)
Fixpoint digits (acc : Z) (count : nat) (s : string) : Z * nat * string :=
  match s with
  | String c r =>
      match digit_of c with
      | Some d => digits (10 * acc + d)%Z (S count) r
      | None => (acc, count, s)
      end
  | EmptyString => (acc, count, s)
  end.

(** An optional leading character among [cs]: whether it was there, which
    one, and the rest. *)
Definition optional_char (cs : list ascii) (s : string) : option ascii * string :=
  match s with
  | String c r => if existsb (Ascii.eqb c) cs then (Some c, r) else (None, s)
  | EmptyString => (None, s)
  end.

Definition starts_with (c : ascii) (s : string) : bool :=
  match s with String c' _ => Ascii.eqb c c' | EmptyString => false end.

(** The number a literal of value [m * 10^e] is read as: zero when it
    rounds to zero, else the decimal itself. *)
Definition number (m e : Z) : JSValue :=
  if rounds_to_zero m e then JNum 0 0 else JNum m e.

(** number = [-] int [frac] [exp], with no leading zero in int *)
Definition parse_number (s : string) : option (JSValue * string) :=
  let '(sign, s1) := optional_char ["-"%char] s in
  let '(ip, n_int, s2) := digits 0 0 s1 in
  if (n_int =? 0) || (starts_with "0" s1 && negb (n_int =? 1)) then None
  else
    let frac :=
      match optional_char ["."%char] s2 with
      | (Some _, r) =>
          let '(m, n_frac, s3) := digits ip 0 r in
          if n_frac =? 0 then None else Some (m, Z.of_nat n_frac, s3)
      | (None, _) => Some (ip, 0%Z, s2)
      end in
    match frac with
    | None => None
    | Some (m, scale, s3) =>
        let signed := match sign with Some _ => (- m)%Z | None => m end in
        match optional_char ["e"%char; "E"%char] s3 with
        | (Some _, r) =>
            let '(esign, r1) := optional_char ["-"%char; "+"%char] r in
            let '(ev, n_exp, s4) := digits 0 0 r1 in
            if n_exp =? 0 then None
            else
              let expo := match esign with
                          | Some c => if Ascii.eqb c "-" then (- ev)%Z else ev
                          | None => ev
                          end in
              Some (number signed (expo - scale)%Z, s4)
        | (None, _) => Some (number signed (0 - scale)%Z, s3)
        end
    end.

(** UTF-8 bytes of a code unit below 0x10000. *)
Definition utf8 (n : nat) : string :=
  if n <? 128 then String (ascii_of_nat n) EmptyString
  else if n <? 2048 then
    String (ascii_of_nat (192 + n / 64))
      (String (ascii_of_nat (128 + n mod 64)) EmptyString)
  else
    String (ascii_of_nat (224 + n / 4096))
      (String (ascii_of_nat (128 + (n / 64) mod 64))
         (String (ascii_of_nat (128 + n mod 64)) EmptyString)).

(** The characters of a string literal after its opening quote, up to and
    including the closing one. *)
Fixpoint parse_chars (s : string) : option (string * string) :=
  match s with
  | EmptyString => None
  | String c r =>
      if Ascii.eqb c (ascii_of_nat 34) then Some (EmptyString, r)
      else if nat_of_ascii c <? 32 then None
      else if Ascii.eqb c (ascii_of_nat 92) then
        match r with
        | String e r' =>
            let simple (ch : nat) :=
              match parse_chars r' with
              | Some (t, rest) => Some (String (ascii_of_nat ch) t, rest)
              | None => None
              end in
            if Ascii.eqb e (ascii_of_nat 34) then simple 34
            else if Ascii.eqb e (ascii_of_nat 92) then simple 92
            else if Ascii.eqb e "/" then simple 47
            else if Ascii.eqb e "b" then simple 8
            else if Ascii.eqb e "f" then simple 12
            else if Ascii.eqb e "n" then simple 10
            else if Ascii.eqb e "r" then simple 13
            else if Ascii.eqb e "t" then simple 9
            else if Ascii.eqb e "u" then
              match r' with
              | String h1 (String h2 (String h3 (String h4 r''))) =>
                  match hex_of h1, hex_of h2, hex_of h3, hex_of h4 with
                  | Some a, Some b, Some c', Some d =>
                      match parse_chars r'' with
                      | Some (t, rest) =>
                          Some (utf8 (((a * 16 + b) * 16 + c') * 16 + d) +:+ t, rest)
                      | None => None
                      end
                  | _, _, _, _ => None
                  end
              | _ => None
              end
            else None
        | EmptyString => None
        end
      else
        match parse_chars r with
        | Some (t, rest) => Some (String c t, rest)
        | None => None
        end
  end.

(** A value; the elements of an array after its opening bracket or a comma;
    the members of an object after its opening brace or a comma.  Fuel is
    spent on every call; twice the length of the text plus one is enough for
    any text (see [parse_value_fuel]). *)
Fixpoint parse_value (fuel : nat) (s : string) : option (JSValue * string) :=
  match fuel with
  | O => None
  | S fuel' =>
      match skip_ws s with
      | EmptyString => None
      | String c r =>
          if Ascii.eqb c "{" then
            match optional_char ["}"%char] (skip_ws r) with
            | (Some _, r') => Some (JObj [], r')
            | (None, _) => parse_members fuel' [] r
            end
          else if Ascii.eqb c "[" then
            match optional_char ["]"%char] (skip_ws r) with
            | (Some _, r') => Some (JArr [], r')
            | (None, _) => parse_items fuel' [] r
            end
          else if Ascii.eqb c (ascii_of_nat 34) then
            match parse_chars r with
            | Some (t, rest) => Some (JStr t, rest)
            | None => None
            end
          else if Ascii.eqb c "t" then
            option_map (fun rest => (JBool true, rest)) (strip_prefix "rue" r)
          else if Ascii.eqb c "f" then
            option_map (fun rest => (JBool false, rest)) (strip_prefix "alse" r)
          else if Ascii.eqb c "n" then
            option_map (fun rest => (JNull, rest)) (strip_prefix "ull" r)
          else parse_number (String c r)
      end
  end

with parse_items (fuel : nat) (acc : list JSValue) (s : string)
    : option (JSValue * string) :=
  match fuel with
  | O => None
  | S fuel' =>
      match parse_value fuel' s with
      | None => None
      | Some (v, r) =>
          match skip_ws r with
          | String c r' =>
              if Ascii.eqb c "," then parse_items fuel' (v :: acc) r'
              else if Ascii.eqb c "]" then Some (JArr (rev (v :: acc)), r')
              else None
          | EmptyString => None
          end
      end
  end

with parse_members (fuel : nat) (acc : list (string * JSValue)) (s : string)
    : option (JSValue * string) :=
  match fuel with
  | O => None
  | S fuel' =>
      match skip_ws s with
      | String q r =>
          if Ascii.eqb q (ascii_of_nat 34) then
            match parse_chars r with
            | None => None
            | Some (k, r1) =>
                match skip_ws r1 with
                | String colon r2 =>
                    if Ascii.eqb colon ":" then
                      match parse_value fuel' r2 with
                      | None => None
                      | Some (v, r3) =>
                          match skip_ws r3 with
                          | String c r4 =>
                              if Ascii.eqb c "," then
                                parse_members fuel' ((k, v) :: acc) r4
                              else if Ascii.eqb c "}" then
                                Some (JObj (rev ((k, v) :: acc)), r4)
                              else None
                          | EmptyString => None
                          end
                      end
                    else None
                | EmptyString => None
                end
            end
          else None
      | EmptyString => None
      end
  end.

Definition parse (text : string) : option JSValue :=
  match parse_value (S (2 * String.length text)) text with
  | Some (v, rest) =>
      match skip_ws rest with
      | EmptyString => Some v
      | _ => None
      end
  | None => None
  end.

End Json.

(** ** Host objects *)

Inductive TrackKind : Type := AudioTrack | VideoTrack.

(** A MediaStreamTrack: [enabled] is the flag the mute control writes,
    [ended] is set by [stop()]. *)
Record Track : Type := mkTrack {
  kind : TrackKind;
  enabled : bool;
  ended : bool }.

(** A MediaStream, as the handles of its tracks in the track store, in the
    order [getTracks()] lists them.  Streams share tracks by handle. *)
Definition Stream : Type := list nat.

(** The functions the script registers as listeners. *)
Inductive Handler : Type :=
| on_DOMContentLoaded
| on_beforeunload
| click_startCall
| click_endCall
| click_toggleMute
| click_settingsToggle
| click_settingsClose
| on_client_user_event
| on_call_joined
| on_call_updated
| on_call_ended
| on_destroy
| on_room_left
| on_stream_started
| on_media_connected
| on_session_user_event.

(** The SignalWire client object: its listeners, and whether its
    [disconnect()] throws. *)
Record ClientObj : Type := mkClient {
  c_listeners : list (string * Handler);
  c_disconnect_throws : bool }.

(** The room session object: [localStream], [peer] with its own
    [localStream], and the listeners added with [on]. *)
Record SessionObj : Type := mkSession {
  localStream : option Stream;
  peer : option (option Stream);
  s_listeners : list (string * Handler) }.

(** ** The document *)

(** Markup and text the script assigns to [innerHTML] / [textContent]. *)
Inductive Markup : Type :=
| TextConnecting        (* startBtn.textContent while connecting *)
| HtmlTalkToSanta       (* mic icon, "Talk to Santa!" *)
| HtmlMute              (* mute button label "Mute" *)
| HtmlUnmute            (* mute button label "Unmute" *)
| HtmlNiceList (name : JSValue).

(** Children of #video-container; #video-placeholder is looked for there. *)
Inductive VNode : Type :=
| VPlaceholder (display : string)       (* div#video-placeholder *)
| VVideo (srcObject : option Stream)    (* a video element injected by the SDK *)
| VOther.

(** A gift card built by [createGiftCard]. *)
Record Card : Type := mkCard {
  card_option : nat;
  card_image : JSValue;
  card_alt : JSValue;
  card_title : JSValue;
  card_price : JSValue;
  card_description : JSValue }.

(** Children of #giftGallery; #welcomeState is looked for there. *)
Inductive GNode : Type :=
| GWelcome (display : string)   (* div.welcome-state#welcomeState *)
| GRetryPrompt                  (* the "Oh dear!" block of search_failed *)
| GCard (c : Card)
| GOther.

(** The elements the script reads and writes.  The page markup is not part
    of the script: elements it dereferences without a test are taken to
    exist; the ones it tests for ([video-container], [logContent], the audio
    elements, the nodes inside the gallery and the container) may be absent.
    Maps are keyed by element id; an absent key is the value the page was
    loaded with. *)
Record DOM : Type := mkDOM {
  display : gmap string string;          (* style.display *)
  content : gmap string Markup;          (* innerHTML / textContent *)
  startBtn_disabled : bool;
  checked : gmap string bool;            (* the settings checkboxes *)
  videoContainer : option (list VNode);
  giftGallery : list GNode;
  props : gmap string JSValue;           (* showcaseImage.src, showcaseName / showcasePrice text *)
  settingsPanel_show : bool;
  logContent : option (list (JSValue * JSValue));
  audio_ids : list string }.

(** A suspended [async] function: which [await] it is parked at. *)
Inductive Frame : Type :=
| AwaitSignalWire    (* startCall, awaiting SignalWire.SignalWire(...) *)
| AwaitDial          (* startCall, awaiting client.dial(...) *)
| AwaitStart         (* startCall, awaiting roomSession.start() *)
| AwaitHangup.       (* hangup, awaiting roomSession.hangup() *)

Record World : Type := mkWorld {
  (* module-level variables *)
  client : option nat;
  roomSession : option nat;
  isMuted : bool;
  audioSettings : JSValue;
  (* objects behind the handles *)
  clients : list ClientObj;
  sessions : list SessionObj;
  tracks : list Track;
  (* browser state *)
  localStorage : gmap string string;
  dom_listeners : list (string * string * Handler);
  pending : list Frame;
  document : DOM }.

(** ** Output *)

Inductive Level : Type := LLog | LWarn | LError.

Inductive Request : Type :=
| ReqSignalWire
| ReqDial (cid : nat) (echoCancellation noiseSuppression autoGainControl : JSValue)
| ReqStart (sid : nat)
| ReqHangup (sid : nat)
| ReqClientDisconnect (cid : nat).

Inductive TimerCb : Type :=
| CardSlideIn (index : nat)
| HideNiceList
| ConfettiPiece (i : nat).

(** What a computation sends out of the script: console lines (their fixed
    text, without the emoji and the values printed after it), calls into the
    SDK, sounds, the timers it schedules, and exceptions nobody caught.
    Timer callbacks only restyle or decorate; their firing is not modelled. *)
Inductive Effect : Type :=
| Console (lvl : Level) (msg : string)
| Sdk (r : Request)
| AudioPlay (id : string)
| SetTimeout (cb : TimerCb) (ms : nat)
| Uncaught (e : Exn).

(** ** The monad *)

Record Out (A : Type) : Type := mkOut {
  value : Completion A;
  world : World;
  effects : list Effect }.
Arguments mkOut {A} value world effects.
Arguments value {A} o.
Arguments world {A} o.
Arguments effects {A} o.

Definition M (A : Type) : Type := World -> Out A.

Definition ret {A} (a : A) : M A := fun w => mkOut (Normal a) w [].

Definition bind {A B} (m : M A) (k : A -> M B) : M B := fun w =>
  match m w with
  | mkOut (Normal a) w1 e1 =>
      match k a w1 with
      | mkOut v w2 e2 => mkOut v w2 (e1 ++ e2)
      end
  | mkOut (Throw e) w1 e1 => mkOut (Throw e) w1 e1
  end.

(** Sequencing is written [x ← m; k] and [m;; k]. *)
#[global] Instance M_ret : MRet M := @ret.
#[global] Instance M_bind : MBind M := fun A B k m => bind m k.

Definition throw {A} (e : Exn) : M A := fun w => mkOut (Throw e) w [].

(** [try { body } catch (e) { handler e }] *)
Definition try_catch {A} (body : M A) (handler : Exn -> M A) : M A := fun w =>
  match body w with
  | mkOut (Normal a) w1 e1 => mkOut (Normal a) w1 e1
  | mkOut (Throw e) w1 e1 =>
      match handler e w1 with
      | mkOut v w2 e2 => mkOut v w2 (e1 ++ e2)
      end
  end.

Definition gets {A} (f : World -> A) : M A := fun w => mkOut (Normal (f w)) w [].
Definition modify (f : World -> World) : M unit := fun w => mkOut (Normal tt) (f w) [].
Definition emit (e : Effect) : M unit := fun w => mkOut (Normal tt) w [e].
Definition lift {A} (c : Completion A) : M A := fun w => mkOut c w [].

Definition console_log (msg : string) : M unit := emit (Console LLog msg).
Definition console_warn (msg : string) : M unit := emit (Console LWarn msg).
Definition console_error (msg : string) : M unit := emit (Console LError msg).

(** [xs.forEach(f)] *)
Fixpoint forEach {A} (xs : list A) (f : A -> M unit) : M unit :=
  match xs with
  | [] => ret tt
  | x :: rest => f x;; forEach rest f
  end.

(** ** Field updates *)

Definition set_client (v : option nat) (w : World) : World :=
  mkWorld v (roomSession w) (isMuted w) (audioSettings w) (clients w) (sessions w)
    (tracks w) (localStorage w) (dom_listeners w) (pending w) (document w).
Definition set_roomSession (v : option nat) (w : World) : World :=
  mkWorld (client w) v (isMuted w) (audioSettings w) (clients w) (sessions w)
    (tracks w) (localStorage w) (dom_listeners w) (pending w) (document w).
Definition set_isMuted (v : bool) (w : World) : World :=
  mkWorld (client w) (roomSession w) v (audioSettings w) (clients w) (sessions w)
    (tracks w) (localStorage w) (dom_listeners w) (pending w) (document w).
Definition set_audioSettings (v : JSValue) (w : World) : World :=
  mkWorld (client w) (roomSession w) (isMuted w) v (clients w) (sessions w)
    (tracks w) (localStorage w) (dom_listeners w) (pending w) (document w).
Definition set_clients (v : list ClientObj) (w : World) : World :=
  mkWorld (client w) (roomSession w) (isMuted w) (audioSettings w) v (sessions w)
    (tracks w) (localStorage w) (dom_listeners w) (pending w) (document w).
Definition set_sessions (v : list SessionObj) (w : World) : World :=
  mkWorld (client w) (roomSession w) (isMuted w) (audioSettings w) (clients w) v
    (tracks w) (localStorage w) (dom_listeners w) (pending w) (document w).
Definition set_tracks (v : list Track) (w : World) : World :=
  mkWorld (client w) (roomSession w) (isMuted w) (audioSettings w) (clients w) (sessions w)
    v (localStorage w) (dom_listeners w) (pending w) (document w).
Definition set_dom_listeners (v : list (string * string * Handler)) (w : World) : World :=
  mkWorld (client w) (roomSession w) (isMuted w) (audioSettings w) (clients w) (sessions w)
    (tracks w) (localStorage w) v (pending w) (document w).
Definition set_pending (v : list Frame) (w : World) : World :=
  mkWorld (client w) (roomSession w) (isMuted w) (audioSettings w) (clients w) (sessions w)
    (tracks w) (localStorage w) (dom_listeners w) v (document w).
Definition set_document (v : DOM) (w : World) : World :=
  mkWorld (client w) (roomSession w) (isMuted w) (audioSettings w) (clients w) (sessions w)
    (tracks w) (localStorage w) (dom_listeners w) (pending w) v.

Definition set_display (v : gmap string string) (d : DOM) : DOM :=
  mkDOM v (content d) (startBtn_disabled d) (checked d) (videoContainer d) (giftGallery d)
    (props d) (settingsPanel_show d) (logContent d) (audio_ids d).
Definition set_content (v : gmap string Markup) (d : DOM) : DOM :=
  mkDOM (display d) v (startBtn_disabled d) (checked d) (videoContainer d) (giftGallery d)
    (props d) (settingsPanel_show d) (logContent d) (audio_ids d).
Definition set_startBtn_disabled (v : bool) (d : DOM) : DOM :=
  mkDOM (display d) (content d) v (checked d) (videoContainer d) (giftGallery d)
    (props d) (settingsPanel_show d) (logContent d) (audio_ids d).
Definition set_checked (v : gmap string bool) (d : DOM) : DOM :=
  mkDOM (display d) (content d) (startBtn_disabled d) v (videoContainer d) (giftGallery d)
    (props d) (settingsPanel_show d) (logContent d) (audio_ids d).
Definition set_videoContainer (v : option (list VNode)) (d : DOM) : DOM :=
  mkDOM (display d) (content d) (startBtn_disabled d) (checked d) v (giftGallery d)
    (props d) (settingsPanel_show d) (logContent d) (audio_ids d).
Definition set_giftGallery (v : list GNode) (d : DOM) : DOM :=
  mkDOM (display d) (content d) (startBtn_disabled d) (checked d) (videoContainer d) v
    (props d) (settingsPanel_show d) (logContent d) (audio_ids d).
Definition set_props (v : gmap string JSValue) (d : DOM) : DOM :=
  mkDOM (display d) (content d) (startBtn_disabled d) (checked d) (videoContainer d)
    (giftGallery d) v (settingsPanel_show d) (logContent d) (audio_ids d).
Definition set_settingsPanel_show (v : bool) (d : DOM) : DOM :=
  mkDOM (display d) (content d) (startBtn_disabled d) (checked d) (videoContainer d)
    (giftGallery d) (props d) v (logContent d) (audio_ids d).
Definition set_logContent (v : option (list (JSValue * JSValue))) (d : DOM) : DOM :=
  mkDOM (display d) (content d) (startBtn_disabled d) (checked d) (videoContainer d)
    (giftGallery d) (props d) (settingsPanel_show d) v (audio_ids d).

(** Statements on the document, as world updates. *)
Definition on_document (f : DOM -> DOM) : M unit :=
  modify (fun w => set_document (f (document w)) w).

(** [document.getElementById(id).style.display = v] *)
Definition style_display (id v : string) : M unit :=
  on_document (fun d => set_display (<[id := v]> (display d)) d).

(** [document.getElementById(id).innerHTML = m] (or [textContent]) *)
Definition set_markup (id : string) (m : Markup) : M unit :=
  on_document (fun d => set_content (<[id := m]> (content d)) d).

(** [document.getElementById(id).textContent = v], [.src = v] *)
Definition set_prop (id : string) (v : JSValue) : M unit :=
  on_document (fun d => set_props (<[id := v]> (props d)) d).

(** The object behind a session handle.  Handles are produced by
    [startCall] only and always designate an object; an unknown handle reads
    as an object without streams or listeners. *)
Definition session_at (sid : nat) (w : World) : SessionObj :=
  default (mkSession None None []) (sessions w !! sid).

Definition client_at (cid : nat) (w : World) : ClientObj :=
  default (mkClient [] false) (clients w !! cid).

(** ** Status helpers (no-ops on the page, kept for their console output) *)

(** [updateSantaMessage(message)] *)
Definition updateSantaMessage (message : string) : M unit :=
  console_log ("Santa says: " +:+ message).

(** [updateStatus(state, text)] *)
Definition updateStatus (state text : string) : M unit :=
  console_log ("Status: " +:+ state +:+ " - " +:+ text).

(** [showSearchStatus(show)] *)
Definition showSearchStatus (show : bool) : M unit :=
  style_display "searchStatus" (if show then "block" else "none").

(** [resetUI()] *)
Definition resetUI : M unit :=
  style_display "startBtn" "block";;
  on_document (set_startBtn_disabled false);;
  set_markup "startBtn" HtmlTalkToSanta;;
  style_display "endBtn" "none";;
  style_display "muteBtn" "none";;
  on_document (set_giftGallery [GWelcome EmptyString]);;
  style_display "giftShowcase" "none";;
  style_display "searchStatus" "none";;
  updateStatus "waiting" "Ready to Chat";;
  updateSantaMessage "Ho ho ho! Click below to talk to me!".

(** ** Gift rendering *)

(** A quoted attribute value inside markup. *)
Definition quoted (s : string) : string :=
  String (ascii_of_nat 34) s +:+ String (ascii_of_nat 34) EmptyString.

(** The image [createGiftCard] falls back to: an SVG data URL, byte for byte
    as the script has it (the four bytes its text element holds are written
    out). *)
Definition gift_box_image : string :=
  "data:image/svg+xml,<svg xmlns=" +:+ quoted "http://www.w3.org/2000/svg"
  +:+ " width=" +:+ quoted "300" +:+ " height=" +:+ quoted "200"
  +:+ " viewBox=" +:+ quoted "0 0 300 200"
  +:+ "><rect width=" +:+ quoted "300" +:+ " height=" +:+ quoted "200"
  +:+ " fill=" +:+ quoted "%23f0f0f0"
  +:+ "/><text x=" +:+ quoted "50%" +:+ " y=" +:+ quoted "50%"
  +:+ " text-anchor=" +:+ quoted "middle"
  +:+ " alignment-baseline=" +:+ quoted "middle"
  +:+ " font-size=" +:+ quoted "60" +:+ ">"
  +:+ String (ascii_of_nat 196) (String (ascii_of_nat 159)
        (String (ascii_of_nat 197) (String (ascii_of_nat 184) EmptyString)))
  +:+ "</text></svg>".

(** [createGiftCard(gift, optionNumber)].  The card keeps the value given to
    each attribute or text; the setters of [img.src], [img.alt] and
    [textContent] convert it to a string, which can throw. *)
Definition createGiftCard (gift : JSValue) (optionNumber : nat) : M Card :=
  image ← lift (get_prop gift "image");
  lift (to_string (js_or image (JStr gift_box_image)));;
  alt ← lift (get_prop gift "title");
  lift (to_string alt);;
  title ← lift (get_prop gift "title");
  lift (to_string (js_or title (JStr "Mystery Gift")));;
  price ← lift (get_prop gift "price");
  lift (to_string (js_or price (JStr "Ask Santa!")));;
  description ← lift (get_prop gift "description");
  lift (to_string (js_or description (JStr "A wonderful Christmas gift!")));;
  mret (mkCard optionNumber
          (js_or image (JStr gift_box_image))
          alt
          (js_or title (JStr "Mystery Gift"))
          (js_or price (JStr "Ask Santa!"))
          (js_or description (JStr "A wonderful Christmas gift!"))).

(** [welcomeState.style.display = 'none'] on the first #welcomeState node *)
Fixpoint hide_welcome (nodes : list GNode) : list GNode :=
  match nodes with
  | [] => []
  | GWelcome _ :: rest => GWelcome "none" :: rest
  | n :: rest => n :: hide_welcome rest
  end.

(** The body of [gifts.forEach((gift, index) => ...)] from [index] on.  Its
    console line interpolates [index + 1] and the array's length, both
    numbers, and [gift.title]. *)
Fixpoint appendCards (gifts : list JSValue) (index : nat) : M unit :=
  match gifts with
  | [] => mret tt
  | gift :: rest =>
      title ← lift (get_prop gift "title");
      lift (to_string title);;
      console_log "DEBUG Frontend: Creating card for gift";;
      card ← createGiftCard gift (index + 1);
      on_document (fun d => set_giftGallery (giftGallery d ++ [GCard card]) d);;
      emit (SetTimeout (CardSlideIn index) (index * 100));;
      appendCards rest (S index)
  end.

(** [displayGifts(gifts)].  Its first console line interpolates
    [gifts ? gifts.length : 0], the one before the loop [gifts.length]. *)
Definition displayGifts (gifts : JSValue) : M unit :=
  shown ← (if truthy gifts then lift (get_prop gifts "length") else mret (JNum 0 0));
  lift (to_string shown);;
  console_log "DEBUG Frontend: displayGifts called";;
  len ← (if truthy gifts then lift (get_prop gifts "length") else mret (JNum 0 0));
  if negb (truthy gifts) || is_zero len then
    console_log "DEBUG Frontend: No gifts to display"
  else
    on_document (fun d => set_giftGallery (hide_welcome (giftGallery d)) d);;
    on_document (set_giftGallery []);;
    len ← lift (get_prop gifts "length");
    lift (to_string len);;
    console_log "DEBUG Frontend: Processing gifts for display";;
    match gifts with
    | JArr items => appendCards items 0
    | _ => throw (TypeError "gifts.forEach is not a function")
    end;;
    console_log "DEBUG Frontend: Finished appending gift cards to gallery".

(** [displaySelectedGift(gift)].  Each of the three setters converts the
    value it is given to a string before it takes effect. *)
Definition displaySelectedGift (gift : JSValue) : M unit :=
  style_display "giftGallery" "none";;
  image ← lift (get_prop gift "image");
  lift (to_string (js_or image (JStr "placeholder.jpg")));;
  set_prop "showcaseImage" (js_or image (JStr "placeholder.jpg"));;
  title ← lift (get_prop gift "title");
  lift (to_string title);;
  set_prop "showcaseName" title;;
  price ← lift (get_prop gift "price");
  lift (to_string price);;
  set_prop "showcasePrice" price;;
  style_display "giftShowcase" "block".

(** [displayNiceListResult(name, status)]; the markup interpolates [name]. *)
Definition displayNiceListResult (name status : JSValue) : M unit :=
  lift (to_string name);;
  set_markup "listResult" (HtmlNiceList name);;
  style_display "niceListChecker" "block";;
  emit (SetTimeout HideNiceList 5000).

(** [showConfetti()]: fifty pieces, one timer each *)
Definition showConfetti : M unit :=
  forEach (seq 0 50) (fun i => emit (SetTimeout (ConfettiPiece i) (i * 30))).

(** [playSound(soundId)] *)
Definition playSound (soundId : string) : M unit :=
  ids ← gets (fun w => audio_ids (document w));
  if bool_decide (soundId ∈ ids) then emit (AudioPlay soundId) else mret tt.

(** [logEvent(type, data)]: newest entry first, at most twenty kept.  The
    markup of an entry interpolates [type] and then the first hundred
    characters of [JSON.stringify(data)]. *)
Definition logEvent (type data : JSValue) : M unit :=
  d ← gets document;
  match logContent d with
  | None => mret tt
  | Some entries =>
      if bool_decide (display d !! "eventLog" = Some "none") then mret tt
      else
        lift (to_string type);;
        lift (stringify_prefix data);;
        on_document (set_logContent (Some (take 20 ((type, data) :: entries))))
  end.

(** [handleUserEvent(params)] *)
Definition handleUserEvent (params : JSValue) : M unit :=
  console_log "User event received:";;
  inner ← (if truthy params then lift (get_prop params "event") else mret JUndefined);
  let eventData := if truthy params && truthy inner then inner else params in
  type ← (if truthy eventData then lift (get_prop eventData "type") else mret JUndefined);
  if negb (truthy eventData) || negb (truthy type) then
    console_log "No valid event data found"
  else
    let eventType := type in
    console_log "=== FRONTEND EVENT RECEIVED ===";;
    lift (to_string eventType);;
    console_log "Event Type:";;
    console_log "Event Data:";;
    console_log "=== END EVENT DATA ===";;
    logEvent eventType eventData;;
    if is_str eventType "gifts_found" then
      console_log "DEBUG Frontend: Received gifts_found event";;
      style_display "giftShowcase" "none";;
      style_display "giftGallery" "grid";;
      gifts ← lift (get_prop eventData "gifts");
      displayGifts gifts;;
      showSearchStatus false;;
      updateStatus "selecting" "Choose your gift!"
    else if is_str eventType "gift_selected" then
      gift ← lift (get_prop eventData "gift");
      displaySelectedGift gift;;
      playSound "jingleBells";;
      showConfetti;;
      updateStatus "confirmed" "Gift Selected!"
    else if is_str eventType "nice_list_checked" then
      name ← lift (get_prop eventData "name");
      status ← lift (get_prop eventData "status");
      displayNiceListResult name status
    else if is_str eventType "search_failed" then
      console_log "DEBUG Frontend: Search failed event received";;
      showSearchStatus false;;
      updateStatus "error" "Let me check my workshop again...";;
      on_document (set_giftGallery [GRetryPrompt])
    else if is_str eventType "searching" then
      style_display "giftShowcase" "none";;
      style_display "giftGallery" "grid";;
      on_document (set_giftGallery []);;
      showSearchStatus true;;
      updateStatus "searching" "Santa is looking..."
    else
      console_log "Unknown event type:".

(** ** Tracks, listeners, suspension *)

(** [track.stop()] *)
Definition stop_track (i : nat) : M unit :=
  modify (fun w =>
    set_tracks (alter (fun t => mkTrack (kind t) (enabled t) true) i (tracks w)) w).

(** [track.enabled = v] *)
Definition set_enabled (v : bool) (i : nat) : M unit :=
  modify (fun w =>
    set_tracks (alter (fun t => mkTrack (kind t) v (ended t)) i (tracks w)) w).

Definition is_audio (ts : list Track) (i : nat) : bool :=
  match ts !! i with
  | Some (mkTrack AudioTrack _ _) => true
  | _ => false
  end.

(** [stream.getAudioTracks()] *)
Definition getAudioTracks (stream : Stream) : M (list nat) :=
  gets (fun w => List.filter (is_audio (tracks w)) stream).

(** [await]: park the rest of the running async function. *)
Definition await (f : Frame) : M unit :=
  modify (fun w => set_pending (pending w ++ [f]) w).

(** [client.on(event, h)] *)
Definition client_on (cid : nat) (event : string) (h : Handler) : M unit :=
  modify (fun w =>
    set_clients
      (alter (fun c => mkClient (c_listeners c ++ [(event, h)]) (c_disconnect_throws c))
         cid (clients w)) w).

(** [roomSession.on(event, h)] *)
Definition session_on (sid : nat) (event : string) (h : Handler) : M unit :=
  modify (fun w =>
    set_sessions
      (alter (fun s => mkSession (localStream s) (peer s) (s_listeners s ++ [(event, h)]))
         sid (sessions w)) w).

(** [target.addEventListener(event, h)] *)
Definition addEventListener (target event : string) (h : Handler) : M unit :=
  modify (fun w => set_dom_listeners (dom_listeners w ++ [(target, event, h)]) w).

(** [client.disconnect()] *)
Definition client_disconnect (cid : nat) : M unit :=
  emit (Sdk (ReqClientDisconnect cid));;
  c ← gets (client_at cid);
  if c_disconnect_throws c then throw SdkError else mret tt.

(** ** Cleanup *)

Definition video_sources (nodes : list VNode) : list Stream :=
  omap (fun n => match n with VVideo (Some src) => Some src | _ => None end) nodes.

Definition clear_srcObject (n : VNode) : VNode :=
  match n with VVideo _ => VVideo None | other => other end.

(** [disconnect()] *)
Definition disconnect : M unit :=
  console_log "Disconnect called - cleaning up...";;
  rs ← gets roomSession;
  match rs with
  | Some sid =>
      s ← gets (session_at sid);
      match localStream s with
      | Some stream =>
          console_log "Stopping local stream tracks";;
          forEach stream stop_track
      | None => mret tt
      end
  | None => mret tt
  end;;
  modify (set_roomSession None);;
  c ← gets client;
  match c with
  | Some cid =>
      try_catch
        (console_log "Disconnecting client";; client_disconnect cid)
        (fun _ => console_log "Client disconnect error:");;
      modify (set_client None)
  | None => mret tt
  end;;
  vc ← gets (fun w => videoContainer (document w));
  match vc with
  | Some nodes =>
      console_log "Cleaning video container";;
      forEach (video_sources nodes) (fun src => forEach src stop_track);;
      on_document (set_videoContainer (Some (map clear_srcObject nodes)));;
      on_document (set_videoContainer (Some []));;
      on_document (set_videoContainer (Some [VPlaceholder EmptyString]))
  | None => mret tt
  end;;
  resetUI.

(** The outcome of an awaited promise. *)
Inductive Settlement (A : Type) : Type :=
| Fulfilled (a : A)
| Rejected.
Arguments Fulfilled {A} a.
Arguments Rejected {A}.

(** [hangup()], up to its [await].  A [roomSession.hangup()] that fails does
    so through its promise ([Rejected] below). *)
Definition hangup : M unit :=
  rs ← gets roomSession;
  match rs with
  | Some sid =>
      console_log "Hanging up call...";;
      emit (Sdk (ReqHangup sid));;
      await AwaitHangup
  | None => disconnect
  end.

(** [hangup()], from the settlement of [roomSession.hangup()] on *)
Definition hangup_resume (r : Settlement unit) : M unit :=
  match r with
  | Fulfilled _ => console_log "Call hung up successfully"
  | Rejected => console_error "Hangup error:"
  end;;
  disconnect.

(** [endCall()]; nothing follows its [await hangup()] *)
Definition endCall : M unit :=
  console_log "End call button clicked";;
  hangup.

(** ** Mute *)

(** [toggleMute()] *)
Definition toggleMute : M unit :=
  rs ← gets roomSession;
  match rs with
  | None => mret tt
  | Some sid =>
      modify (fun w => set_isMuted (negb (isMuted w)) w);;
      try_catch
        (s ← gets (session_at sid);
         match localStream s with
         | Some stream =>
             audioTracks ← getAudioTracks stream;
             forEach audioTracks (fun t => m ← gets isMuted; set_enabled (negb m) t)
         | None =>
             match peer s with
             | Some (Some stream) =>
                 audioTracks ← getAudioTracks stream;
                 forEach audioTracks (fun t => m ← gets isMuted; set_enabled (negb m) t)
             | _ => console_warn "Unable to find local stream to mute/unmute"
             end
         end)
        (fun _ => console_error "Error toggling mute:");;
      m ← gets isMuted;
      set_markup "muteBtn" (if m : bool then HtmlUnmute else HtmlMute);;
      updateSantaMessage (if m : bool then "Microphone muted" else "Microphone unmuted")
  end.

(** ** Starting a call *)

(** The [catch] block of [startCall] *)
Definition startCall_catch (e : Exn) : M unit :=
  console_error "Failed to connect to Santa:";;
  updateStatus "error" "Could not reach Santa";;
  on_document (set_startBtn_disabled false);;
  set_markup "startBtn" HtmlTalkToSanta.

(** [startCall()], up to [await SignalWire.SignalWire(...)] *)
Definition startCall : M unit :=
  disabled ← gets (fun w => startBtn_disabled (document w));
  if disabled : bool then
    console_log "Call already in progress"
  else
    on_document (set_startBtn_disabled true);;
    set_markup "startBtn" TextConnecting;;
    try_catch
      (updateStatus "connecting" "Connecting to Santa...";;
       emit (Sdk ReqSignalWire);;
       await AwaitSignalWire)
      startCall_catch.

(** [startCall()], from the client promise to [await client.dial(...)].  Of
    the dial options only the three audio settings vary; the destination,
    root element, video flags and user variables are fixed. *)
Definition startCall_after_SignalWire (r : Settlement ClientObj) : M unit :=
  try_catch
    (match r with
     | Rejected => throw SdkError
     | Fulfilled c =>
         cid ← gets (fun w => length (clients w));
         modify (fun w => set_clients (clients w ++ [c]) w);;
         modify (set_client (Some cid));;
         client_on cid "user_event" on_client_user_event;;
         settings ← gets audioSettings;
         echoCancellation ← lift (get_prop settings "echoCancellation");
         noiseSuppression ← lift (get_prop settings "noiseSuppression");
         autoGainControl ← lift (get_prop settings "autoGainControl");
         emit (Sdk (ReqDial cid echoCancellation noiseSuppression autoGainControl));;
         await AwaitDial
     end)
    startCall_catch.

(** [startCall()], from the session promise to [await roomSession.start()] *)
Definition startCall_after_dial (r : Settlement SessionObj) : M unit :=
  try_catch
    (match r with
     | Rejected => throw SdkError
     | Fulfilled s =>
         sid ← gets (fun w => length (sessions w));
         modify (fun w => set_sessions (sessions w ++ [s]) w);;
         modify (set_roomSession (Some sid));;
         console_log "Room session created:";;
         session_on sid "call.joined" on_call_joined;;
         session_on sid "call.updated" on_call_updated;;
         session_on sid "call.ended" on_call_ended;;
         session_on sid "destroy" on_destroy;;
         session_on sid "room.left" on_room_left;;
         session_on sid "stream.started" on_stream_started;;
         session_on sid "media.connected" on_media_connected;;
         session_on sid "user_event" on_session_user_event;;
         emit (Sdk (ReqStart sid));;
         await AwaitStart
     end)
    startCall_catch.

(** [startCall()], from the settlement of [roomSession.start()] on *)
Definition startCall_after_start (r : Settlement unit) : M unit :=
  try_catch
    (match r with
     | Rejected => throw SdkError
     | Fulfilled _ =>
         console_log "Call started successfully";;
         style_display "startBtn" "none";;
         style_display "endBtn" "block";;
         style_display "muteBtn" "block";;
         updateStatus "connected" "Talking with Santa!"
     end)
    startCall_catch.

(** ** Page load *)

(** The default [audioSettings] *)
Definition default_audioSettings : JSValue :=
  JObj [("echoCancellation", JBool true);
        ("noiseSuppression", JBool false);
        ("autoGainControl", JBool false)].

(** [initializeUI()] *)
Definition initializeUI : M unit :=
  addEventListener "startBtn" "click" click_startCall;;
  addEventListener "endBtn" "click" click_endCall;;
  addEventListener "muteBtn" "click" click_toggleMute.

(** [checkbox.checked = v] *)
Definition set_checkbox (id : string) (v : JSValue) : M unit :=
  on_document (fun d => set_checked (<[id := truthy v]> (checked d)) d).

(** [initializeSettings()].  The [change] listeners of the three checkboxes
    (which write the settings back through [saveSettings]) come after the
    part modelled here. *)
Definition initializeSettings : M unit :=
  saved ← gets (fun w => localStorage w !! "santaAudioSettings");
  match saved with
  | Some text =>
      if negb (String.eqb text EmptyString) then
        match Json.parse text with
        | Some v => modify (set_audioSettings v)
        | None => throw SyntaxError
        end
      else mret tt
  | None => mret tt
  end;;
  settings ← gets audioSettings;
  echoCancellation ← lift (get_prop settings "echoCancellation");
  set_checkbox "echoCancellation" echoCancellation;;
  settings ← gets audioSettings;
  noiseSuppression ← lift (get_prop settings "noiseSuppression");
  set_checkbox "noiseSuppression" noiseSuppression;;
  settings ← gets audioSettings;
  autoGainControl ← lift (get_prop settings "autoGainControl");
  set_checkbox "autoGainControl" autoGainControl;;
  addEventListener "settingsToggle" "click" click_settingsToggle;;
  addEventListener "settingsClose" "click" click_settingsClose.

(** ** Listeners and the event loop *)

(** [handleRoomJoined], [handleRoomUpdated], [handleRoomEnded] *)
Definition handleRoomJoined : M unit :=
  console_log "Connected to Santa's Workshop!";;
  updateSantaMessage "Ho ho ho! Hello there! What's your name?".

Definition handleRoomUpdated : M unit := console_log "Room updated:".

Definition handleRoomEnded : M unit :=
  console_log "Call with Santa ended";;
  resetUI.

(** [placeholder.style.display = 'none'] on the first #video-placeholder *)
Fixpoint hide_placeholder (nodes : list VNode) : list VNode :=
  match nodes with
  | [] => []
  | VPlaceholder _ :: rest => VPlaceholder "none" :: rest
  | n :: rest => n :: hide_placeholder rest
  end.

(** The body of each registered listener.  After [initializeSettings] the
    DOMContentLoaded listener goes on to the lights, snow and countdown,
    which are decoration and left out. *)
Definition run_handler (h : Handler) (params : JSValue) : M unit :=
  match h with
  | on_DOMContentLoaded => initializeUI;; initializeSettings
  | on_beforeunload =>
      rs ← gets roomSession;
      match rs with
      | Some _ => hangup
      | None => mret tt
      end
  | click_startCall => startCall
  | click_endCall => endCall
  | click_toggleMute => toggleMute
  | click_settingsToggle =>
      on_document (fun d => set_settingsPanel_show (negb (settingsPanel_show d)) d)
  | click_settingsClose => on_document (set_settingsPanel_show false)
  | on_client_user_event =>
      console_log "CLIENT EVENT: user_event";;
      handleUserEvent params
  | on_call_joined =>
      console_log "Call joined:";;
      on_document (fun d => set_videoContainer (hide_placeholder <$> videoContainer d) d);;
      handleRoomJoined
  | on_call_updated => console_log "Call updated:";; handleRoomUpdated
  | on_call_ended => console_log "Call ended:";; handleRoomEnded;; disconnect
  | on_destroy => console_log "Session destroyed:";; disconnect
  | on_room_left => console_log "Room left:";; disconnect
  | on_stream_started => console_log "Stream started:"
  | on_media_connected => console_log "Media connected:"
  | on_session_user_event =>
      console_log "ROOM EVENT: user_event";;
      console_log "Event params structure:";;
      handleUserEvent params
  end.

(** The script's top level: variables at their initial values are the
    world it starts in; it registers the two page-level listeners. *)
Definition script : M unit :=
  addEventListener "document" "DOMContentLoaded" on_DOMContentLoaded;;
  addEventListener "window" "beforeunload" on_beforeunload.

(** An exception escaping a listener or a resumed function is reported by
    the host and ends that listener only. *)
Definition guarded (m : M unit) : M unit :=
  try_catch m (fun e => emit (Uncaught e)).

Definition listeners_for {T} (event : string) (ls : list (string * T)) : list T :=
  omap (fun p => if String.eqb (fst p) event then Some (snd p) else None) ls.

Definition dom_listeners_for (target event : string)
    (ls : list (string * string * Handler)) : list Handler :=
  omap (fun p => if String.eqb (fst (fst p)) target && String.eqb (snd (fst p)) event
                 then Some (snd p) else None) ls.

(** What the environment can do to the script. *)
Inductive Input : Type :=
| DomEvent (target event : string)
| ClientEmit (cid : nat) (event : string) (params : JSValue)
| SessionEmit (sid : nat) (event : string) (params : JSValue)
| SignalWireSettled (i : nat) (r : Settlement ClientObj)
| DialSettled (i : nat) (r : Settlement SessionObj)
| StartSettled (i : nat) (r : Settlement unit)
| HangupSettled (i : nat) (r : Settlement unit).

Definition frame_eqb (a b : Frame) : bool :=
  match a, b with
  | AwaitSignalWire, AwaitSignalWire | AwaitDial, AwaitDial
  | AwaitStart, AwaitStart | AwaitHangup, AwaitHangup => true
  | _, _ => false
  end.

(** Resume the [i]-th suspended function if it is parked at [f]. *)
Definition resume (i : nat) (f : Frame) (rest : M unit) : M unit :=
  fr ← gets (fun w => pending w !! i);
  match fr with
  | Some f' =>
      if frame_eqb f f' then
        modify (fun w => set_pending (delete i (pending w)) w);;
        guarded rest
      else mret tt
  | None => mret tt
  end.

Definition step (i : Input) : M unit :=
  match i with
  | DomEvent target event =>
      hs ← gets (fun w => dom_listeners_for target event (dom_listeners w));
      forEach hs (fun h => guarded (run_handler h JUndefined))
  | ClientEmit cid event params =>
      hs ← gets (fun w => listeners_for event (c_listeners (client_at cid w)));
      forEach hs (fun h => guarded (run_handler h params))
  | SessionEmit sid event params =>
      hs ← gets (fun w => listeners_for event (s_listeners (session_at sid w)));
      forEach hs (fun h => guarded (run_handler h params))
  | SignalWireSettled i r => resume i AwaitSignalWire (startCall_after_SignalWire r)
  | DialSettled i r => resume i AwaitDial (startCall_after_dial r)
  | StartSettled i r => resume i AwaitStart (startCall_after_start r)
  | HangupSettled i r => resume i AwaitHangup (hangup_resume r)
  end.

(** Run a sequence of inputs; the effects accumulate in order. *)
Fixpoint run (inputs : list Input) : M unit :=
  match inputs with
  | [] => mret tt
  | i :: rest => step i;; run rest
  end.

(** ** Initial state *)

(** The world the script starts in: [client] and [roomSession] undefined,
    [isMuted] false, [audioSettings] at its defaults, nothing registered. *)
Definition initial_world (storage : gmap string string) (page : DOM) : World :=
  mkWorld None None false default_audioSettings [] [] [] storage [] [] page.

(** A page for examples: placeholder in the video container, welcome block
    in the gallery, the jingle audio element, a visible debug log. *)
Definition example_page : DOM :=
  mkDOM ∅ ∅ false ∅ (Some [VPlaceholder EmptyString]) [GWelcome EmptyString]
    ∅ false (Some []) ["jingleBells"].

(** The script loaded and DOMContentLoaded delivered. *)
Definition loaded_world (storage : gmap string string) (page : DOM) : World :=
  world ((script;; step (DomEvent "document" "DOMContentLoaded"))
           (initial_world storage page)).

(** * Closed forms, predicates and example worlds

    What the properties below are stated with: the world each operation
    leaves behind in closed form, the conditions on worlds and inputs, and
    concrete worlds obtained by running the script. *)

(** The document as [resetUI] leaves it. *)
Definition reset_document (d : DOM) : DOM :=
  mkDOM
    (<["searchStatus" := "none"]> (<["giftShowcase" := "none"]>
      (<["muteBtn" := "none"]> (<["endBtn" := "none"]>
        (<["startBtn" := "block"]> (display d))))))
    (<["startBtn" := HtmlTalkToSanta]> (content d))
    false (checked d) (videoContainer d) [GWelcome EmptyString]
    (props d) (settingsPanel_show d) (logContent d) (audio_ids d).

(** A track after [stop()]. *)
Definition stop (t : Track) : Track := mkTrack (kind t) (enabled t) true.

(** The track store after [stop()] on each of [ids] in turn. *)
Definition stop_tracks (ids : list nat) (ts : list Track) : list Track :=
  foldl (fun ts i => alter stop i ts) ts ids.

(** The tracks of [roomSession.localStream], if there is a session with one. *)
Definition local_stream_tracks (w : World) : list nat :=
  match roomSession w with
  | Some sid => default [] (localStream (session_at sid w))
  | None => []
  end.

(** The tracks attached to the video elements of the container. *)
Definition container_tracks (w : World) : list nat :=
  match videoContainer (document w) with
  | Some nodes => concat (video_sources nodes)
  | None => []
  end.

(** The world as [disconnect] leaves it (see [disconnect_world]). *)
Definition cleaned (w : World) : World :=
  mkWorld None None (isMuted w) (audioSettings w) (clients w) (sessions w)
    (stop_tracks (container_tracks w) (stop_tracks (local_stream_tracks w) (tracks w)))
    (localStorage w) (dom_listeners w) (pending w)
    (reset_document
       (set_videoContainer
          ((fun _ => [VPlaceholder EmptyString]) <$> videoContainer (document w))
          (document w))).






(** The calls into the SDK among the effects. *)
Definition sdk_requests (es : list Effect) : list Request :=
  omap (fun e => match e with Sdk r => Some r | _ => None end) es.

(** Example objects: a client whose disconnect succeeds, a session whose
    local stream (also reachable through the peer) has an audio and a video
    track, and those tracks, enabled and live. *)
Definition example_client : ClientObj := mkClient [] false.
Definition example_session : SessionObj := mkSession (Some [0; 1]) (Some (Some [0; 1])) [].
Definition example_tracks : list Track :=
  [mkTrack AudioTrack true false; mkTrack VideoTrack true false].

(** A click on the start button. *)
Definition start_click : Input := DomEvent "startBtn" "click".

(** A call started without incident: the click, then the three awaited SDK
    calls fulfilled in turn. *)
Definition start_inputs (c : ClientObj) (s : SessionObj) : list Input :=
  [start_click; SignalWireSettled 0 (Fulfilled c); DialSettled 0 (Fulfilled s);
   StartSettled 0 (Fulfilled tt)].

(** The example page loaded with nothing in storage, the two tracks in the
    store. *)
Definition example_loaded : World :=
  set_tracks example_tracks (loaded_world ∅ example_page).

(** The example page with a call up. *)
Definition example_active : World :=
  world (run (start_inputs example_client example_session) example_loaded).



(** The client with the listener [startCall] adds. *)
Definition with_listener (c : ClientObj) : ClientObj :=
  mkClient (c_listeners c ++ [("user_event", on_client_user_event)]) (c_disconnect_throws c).

(** The session with the eight listeners [startCall] adds. *)
Definition with_listeners (s : SessionObj) : SessionObj :=
  mkSession (localStream s) (peer s)
    (s_listeners s ++
     [("call.joined", on_call_joined); ("call.updated", on_call_updated);
      ("call.ended", on_call_ended); ("destroy", on_destroy);
      ("room.left", on_room_left); ("stream.started", on_stream_started);
      ("media.connected", on_media_connected); ("user_event", on_session_user_event)]).

(** [v == null] *)
Definition nullish (v : JSValue) : bool :=
  match v with JUndefined | JNull => true | _ => false end.

(** The start button has [startCall] as its one click listener. *)
Definition start_registered (w : World) : Prop :=
  dom_listeners_for "startBtn" "click" (dom_listeners w) = [click_startCall].

(** The world after the catch block of [startCall]. *)
Definition failed (w : World) : World :=
  set_document
    (set_content (<["startBtn" := HtmlTalkToSanta]> (content (document w)))
       (set_startBtn_disabled false (document w))) w.

(** The world after each segment of [startCall] in turn. *)
Definition connecting (w : World) : World :=
  set_pending (pending w ++ [AwaitSignalWire])
    (set_document
       (set_content (<["startBtn" := TextConnecting]> (content (document w)))
          (set_startBtn_disabled true (document w))) w).

Definition dialing (c : ClientObj) (w : World) : World :=
  set_pending (pending w ++ [AwaitDial])
    (set_client (Some (length (clients w)))
       (set_clients (clients w ++ [with_listener c]) w)).

Definition starting (s : SessionObj) (w : World) : World :=
  set_pending (pending w ++ [AwaitStart])
    (set_roomSession (Some (length (sessions w)))
       (set_sessions (sessions w ++ [with_listeners s]) w)).

Definition connected (w : World) : World :=
  set_document
    (set_display
       (<["muteBtn" := "block"]> (<["endBtn" := "block"]>
          (<["startBtn" := "none"]> (display (document w)))))
       (document w)) w.

(** The world after a start without incident, no extra frame pending. *)
Definition started (c : ClientObj) (s : SessionObj) (w : World) : World :=
  connected (set_pending [] (starting s (set_pending [] (dialing c
    (set_pending [] (connecting w)))))).

(** The example call, muted. *)
Definition example_muted_call : World :=
  world (run [DomEvent "muteBtn" "click"] example_active).

(** The example page while [startCall] awaits the dial. *)
Definition example_dialing : World :=
  world (run [start_click; SignalWireSettled 0 (Fulfilled example_client)] example_loaded).

(** A track after [track.enabled = v]. *)
Definition set_enabled_to (v : bool) (t : Track) : Track := mkTrack (kind t) v (ended t).

(** The track store after [track.enabled = v] on each of [ids]. *)
Definition enable_tracks (v : bool) (ids : list nat) (ts : list Track) : list Track :=
  foldl (fun ts i => alter (set_enabled_to v) i ts) ts ids.

(** The stream [toggleMute] reaches: [localStream], else [peer.localStream]. *)
Definition mute_stream (s : SessionObj) : option Stream :=
  match localStream s with
  | Some stream => Some stream
  | None =>
      match peer s with
      | Some (Some stream) => Some stream
      | _ => None
      end
  end.

(** Its audio tracks. *)
Definition local_audio_tracks (w : World) (sid : nat) : list nat :=
  match mute_stream (session_at sid w) with
  | Some stream => List.filter (is_audio (tracks w)) stream
  | None => []
  end.

(** The label [toggleMute] gives the mute button. *)
Definition mute_label (m : bool) : Markup := if m then HtmlUnmute else HtmlMute.

(** The world after [toggleMute] with session [sid] present (see
    [toggleMute_world]). *)
Definition toggled (w : World) (sid : nat) : World :=
  set_document
    (set_content (<["muteBtn" := mute_label (negb (isMuted w))]> (content (document w)))
       (document w))
    (set_tracks (enable_tracks (isMuted w) (local_audio_tracks w sid) (tracks w))
       (set_isMuted (negb (isMuted w)) w)).

(** A call whose session exposes no local stream on either path. *)
Definition example_streamless_call : World :=
  world (run (start_inputs example_client (mkSession None None [])) example_loaded).

(** The muted example call, hung up. *)
Definition example_ended_muted : World :=
  world (run [DomEvent "endBtn" "click"; HangupSettled 0 (Fulfilled tt)] example_muted_call).

(** A second call after it, on two fresh tracks the SDK has created. *)
Definition example_second_call : World :=
  world (run (start_inputs example_client (mkSession (Some [2; 3]) None []))
           (set_tracks (tracks example_ended_muted ++ example_tracks) example_ended_muted)).

(** The event a message carries, as the opening lines of [handleUserEvent]
    find it: the [event] field when present and truthy, else the message. *)
Definition eventData_of (params : JSValue) : JSValue :=
  match (if truthy params then get_prop params "event" else Normal JUndefined) with
  | Normal inner => if truthy params && truthy inner then inner else params
  | Throw _ => params
  end.

(** Effect classes. *)
Definition is_card_timer (e : Effect) : bool :=
  match e with SetTimeout (CardSlideIn _) _ => true | _ => false end.

(** [v.k] where reading it does not throw, [undefined] where it does. *)
Definition prop (v : JSValue) (k : string) : JSValue :=
  match get_prop v k with Normal r => r | Throw _ => JUndefined end.

Arguments prop : simpl never.

Arguments rounds_to_zero : simpl never.

Arguments to_string : simpl never.

(** The [switch] of [handleUserEvent] on the type of the event it found. *)
Definition dispatch (eventType eventData : JSValue) : M unit :=
  if is_str eventType "gifts_found" then
    console_log "DEBUG Frontend: Received gifts_found event";;
    style_display "giftShowcase" "none";;
    style_display "giftGallery" "grid";;
    gifts ← lift (get_prop eventData "gifts");
    displayGifts gifts;;
    showSearchStatus false;;
    updateStatus "selecting" "Choose your gift!"
  else if is_str eventType "gift_selected" then
    gift ← lift (get_prop eventData "gift");
    displaySelectedGift gift;;
    playSound "jingleBells";;
    showConfetti;;
    updateStatus "confirmed" "Gift Selected!"
  else if is_str eventType "nice_list_checked" then
    name ← lift (get_prop eventData "name");
    status ← lift (get_prop eventData "status");
    displayNiceListResult name status
  else if is_str eventType "search_failed" then
    console_log "DEBUG Frontend: Search failed event received";;
    showSearchStatus false;;
    updateStatus "error" "Let me check my workshop again...";;
    on_document (set_giftGallery [GRetryPrompt])
  else if is_str eventType "searching" then
    style_display "giftShowcase" "none";;
    style_display "giftGallery" "grid";;
    on_document (set_giftGallery []);;
    showSearchStatus true;;
    updateStatus "searching" "Santa is looking..."
  else
    console_log "Unknown event type:".

(** The body of [handleUserEvent] once the event has been found. *)
Definition handle_found (eventData : JSValue) : M unit :=
  type ← (if truthy eventData then lift (get_prop eventData "type") else mret JUndefined);
  if negb (truthy eventData) || negb (truthy type) then
    console_log "No valid event data found"
  else
    console_log "=== FRONTEND EVENT RECEIVED ===";;
    lift (to_string type);;
    console_log "Event Type:";;
    console_log "Event Data:";;
    console_log "=== END EVENT DATA ===";;
    logEvent type eventData;;
    dispatch type eventData.

(** The example call after a gifts_found event with one gift. *)
Definition example_gallery_world : World :=
  world (run [SessionEmit 0 "user_event"
                (JObj [("type", JStr "gifts_found");
                       ("gifts", JArr [JObj [("title", JStr "Robot")]])])]
           example_active).

(** A gifts_found event in an envelope, its list empty. *)
Definition empty_gifts_found : JSValue :=
  JObj [("event", JObj [("type", JStr "gifts_found"); ("gifts", JArr [])])].

(** The key the settings are stored under. *)
Definition storage_key : string := "santaAudioSettings".

(** Storage holding a text that is not JSON. *)
Definition broken_storage : gmap string string := {[ storage_key := "{" ]}.

(** [m] changes nothing but the document, and keeps its audio elements. *)
Definition ui_only {A} (m : M A) : Prop :=
  forall w, exists d,
    world (m w) = set_document d w /\ audio_ids d = audio_ids (document w).

Definition is_sound (e : Effect) : bool :=
  match e with AudioPlay _ => true | _ => false end.


Definition is_console (e : Effect) : bool :=
  match e with Console _ _ => true | _ => false end.

Definition non_console (es : list Effect) : list Effect :=
  List.filter (fun e => negb (is_console e)) es.

(** A gift whose image, title and price each have a string, so that the
    showcase can take them. *)
Definition showable (gift : JSValue) : bool :=
  has_string (prop gift "image") && has_string (prop gift "title")
  && has_string (prop gift "price").

Definition gift_selected_event : JSValue :=
  JObj [("type", JStr "gift_selected");
        ("gift", JObj [("title", JStr "Robot"); ("price", JStr "$19.99")])].

(** * Rendering, the debug log, card selection and the countdown

    The functions of the script not modelled above, and what the
    properties of rendering, dispatch and whole runs are stated with. *)

(** A gift [createGiftCard] makes a card of: it is not undefined or null,
    and each of the four fields the card takes has a string. *)
Definition renderable (gift : JSValue) : bool :=
  negb (nullish gift)
  && has_string (prop gift "image") && has_string (prop gift "title")
  && has_string (prop gift "price") && has_string (prop gift "description").

(** The card [createGiftCard] makes of such a gift. *)
Definition giftCard (gift : JSValue) (optionNumber : nat) : Card :=
  mkCard optionNumber
    (js_or (prop gift "image") (JStr gift_box_image))
    (prop gift "title")
    (js_or (prop gift "title") (JStr "Mystery Gift"))
    (js_or (prop gift "price") (JStr "Ask Santa!"))
    (js_or (prop gift "description") (JStr "A wonderful Christmas gift!")).

(** The cards [displayGifts] appends for a list of gifts, numbered from
    [first + 1]. *)
Definition giftCards (first : nat) (gifts : list JSValue) : list GNode :=
  imap (fun i gift => GCard (giftCard gift (first + i + 1))) gifts.

(** The timers scheduled with them. *)
Definition cardTimers (first : nat) (gifts : list JSValue) : list Effect :=
  imap (fun i _ => SetTimeout (CardSlideIn (first + i)) ((first + i) * 100)) gifts.

Arguments giftCards : simpl never.

Arguments cardTimers : simpl never.

(** The types the [switch] has a case for. *)
Definition known_types : list string :=
  ["gifts_found"; "gift_selected"; "nice_list_checked"; "search_failed"; "searching"].

(** A [gifts] value [displayGifts] throws on. *)
Definition unrenderable (gifts : JSValue) : bool :=
  match gifts with
  | JArr items => existsb nullish items
  | _ => truthy gifts && negb (is_zero (prop gifts "length"))
  end.

(** The debug log after [logEvent] on each of [events] in turn, while it is
    shown. *)
Definition logged (events entries : list (JSValue * JSValue)) : list (JSValue * JSValue) :=
  foldl (fun acc e => take 20 (e :: acc)) entries events.

(** An entry [logEvent] can write: the type has a string and the data is
    not undefined. *)
Definition loggable (e : JSValue * JSValue) : bool :=
  has_string (fst e) && match snd e with JUndefined => false | _ => true end.

(** [window.toggleEventLog()] *)
Definition toggleEventLog : M unit :=
  shown ← gets (fun w => display (document w) !! "eventLog");
  style_display "eventLog" (if bool_decide (shown = Some "none") then "block" else "none").

(** The inline style of a gift card, as far as [selectGift] writes it;
    [None] is a property no script has set. *)
Record CardStyle : Type := mkCardStyle {
  transform : option string;
  boxShadow : option string;
  opacity : option string }.

(** [selectGift(optionNumber)], on the styles of the [.gift-card] elements in
    document order.  It reads and writes nothing else; its console line is
    left out. *)
Definition selectGift (optionNumber : Z) (cards : list CardStyle) : list CardStyle :=
  imap (fun index card =>
          if (Z.of_nat index =? optionNumber - 1)%Z
          then mkCardStyle (Some "scale(1.1)") (Some "0 10px 40px rgba(255, 215, 0, 0.5)")
                 (opacity card)
          else mkCardStyle (transform card) (boxShadow card) (Some "0.5"))
       cards.

(** What [updateChristmasCountdown] reads from the host's clock, taken in
    one reading: the time now in milliseconds, the local month (0 to 11) and
    day of the month, and the time of local midnight on 25 December of the
    current year and of the next. *)
Record Clock : Type := mkClock {
  now : Z;
  getMonth : Z;
  getDate : Z;
  christmas_this_year : Z;
  christmas_next_year : Z }.

(** The text [updateChristmasCountdown] can write. *)
Inductive CountdownText : Type :=
| ItsChristmasDay
| OneDayUntil
| DaysUntil (days : Z).

(** [updateChristmasCountdown()], as the text it assigns to the countdown. *)
Definition updateChristmasCountdown (c : Clock) : CountdownText :=
  let christmas :=
    if (getMonth c =? 11)%Z && (getDate c >? 25)%Z
    then christmas_next_year c else christmas_this_year c in
  let diff := (christmas - now c)%Z in
  let days := (diff / (1000 * 60 * 60 * 24))%Z in
  if (days =? 0)%Z then ItsChristmasDay
  else if (days =? 1)%Z then OneDayUntil
  else DaysUntil days.

(** A stored text whose one field underflows to zero. *)
Definition underflowing_settings : string :=
  "{" +:+ quoted "echoCancellation" +:+ ":1e-400}".

(** [m] takes every world to one related to it by [R]. *)
Definition keeps (R : World -> World -> Prop) {A} (m : M A) : Prop :=
  forall w, R w (world (m w)).

(** What [R] has to allow for every listener but the mute button's, and
    every resumed function, to keep it. *)
Record Allows (R : World -> World -> Prop) : Prop := mkAllows {
  allows_refl : forall w, R w w;
  allows_trans : forall a b c, R a b -> R b c -> R a c;
  allows_document : forall w d, R w (set_document d w);
  allows_pending : forall w p, R w (set_pending p w);
  allows_client : forall w c, R w (set_client c w);
  allows_roomSession : forall w s, R w (set_roomSession s w);
  allows_audioSettings : forall w v, R w (set_audioSettings v w);
  allows_stop : forall w i, R w (set_tracks (alter stop i (tracks w)) w);
  allows_new_client : forall w c, R w (set_clients (clients w ++ [c]) w);
  allows_new_session : forall w s, R w (set_sessions (sessions w ++ [s]) w);
  allows_client_on : forall w cid l,
    R w (set_clients
           (alter (fun c => mkClient (c_listeners c ++ [l]) (c_disconnect_throws c))
              cid (clients w)) w);
  allows_session_on : forall w sid l,
    R w (set_sessions
           (alter (fun s => mkSession (localStream s) (peer s) (s_listeners s ++ [l]))
              sid (sessions w)) w);
  allows_addEventListener : forall w l, R w (set_dom_listeners (dom_listeners w ++ [l]) w) }.

(** The listeners an input runs in a world. *)
Definition fired (i : Input) (w : World) : list Handler :=
  match i with
  | DomEvent target event => dom_listeners_for target event (dom_listeners w)
  | ClientEmit cid event _ => listeners_for event (c_listeners (client_at cid w))
  | SessionEmit sid event _ => listeners_for event (s_listeners (session_at sid w))
  | _ => []
  end.

(** The mute flag and every track's [enabled] flag are the same in both. *)
Definition same_mute (w w' : World) : Prop :=
  isMuted w' = isMuted w /\ enabled <$> tracks w' = enabled <$> tracks w.

(** Every listener registered in [w] is still registered in [w'], at the
    same place in the order of its target. *)
Definition listeners_grow (w w' : World) : Prop :=
  dom_listeners w `prefix_of` dom_listeners w'
  /\ (forall cid c, clients w !! cid = Some c ->
        exists c', clients w' !! cid = Some c'
                   /\ c_listeners c `prefix_of` c_listeners c')
  /\ (forall sid s, sessions w !! sid = Some s ->
        exists s', sessions w' !! sid = Some s'
                   /\ s_listeners s `prefix_of` s_listeners s').

(** * Properties *)

Lemma skip_ws_length s : String.length (Json.skip_ws s) <= String.length s.
Proof.
  induction s as [|c s IH]; cbn; [lia|].
  destruct (Json.is_ws c); cbn; lia.
Qed.

Lemma strip_prefix_length p : forall s r,
  Json.strip_prefix p s = Some r -> String.length r <= String.length s.
Proof.
  induction p as [|a p IH]; intros s r H; cbn in H.
  - injection H as <-. lia.
  - destruct s as [|b s]; [discriminate|].
    destruct (Ascii.eqb a b); [|discriminate].
    apply IH in H. cbn. lia.
Qed.

Lemma optional_char_length cs s o r :
  Json.optional_char cs s = (o, r) ->
  String.length r <= String.length s
  /\ (o <> None -> String.length r < String.length s).
Proof.
  unfold Json.optional_char. destruct s as [|c s].
  - intros [= <- <-]. split; [lia|congruence].
  - destruct (existsb _ _); intros [= <- <-]; cbn; split; try lia; congruence.
Qed.

Lemma digits_length s : forall acc count z count' r,
  Json.digits acc count s = (z, count', r) ->
  String.length r + count' = String.length s + count.
Proof.
  induction s as [|c s IH]; intros acc count z count' r H; cbn in H.
  - injection H as <- <- <-. reflexivity.
  - destruct (Json.digit_of c).
    + apply IH in H. cbn. lia.
    + injection H as <- <- <-. reflexivity.
Qed.

Lemma parse_number_length s v r :
  Json.parse_number s = Some (v, r) -> String.length r < String.length s.
Proof.
  unfold Json.parse_number.
  destruct (Json.optional_char ["-"%char] s) as [sign s1] eqn:E1.
  destruct (Json.digits 0 0 s1) as [[ip n_int] s2] eqn:E2.
  apply optional_char_length in E1. apply digits_length in E2.
  destruct ((n_int =? 0) || _) eqn:Ez; [discriminate|].
  apply orb_false_iff in Ez. destruct Ez as [Ez _]. apply Nat.eqb_neq in Ez.
  destruct (Json.optional_char ["."%char] s2) as [[dot|] r2] eqn:E3;
    apply optional_char_length in E3.
  - destruct (Json.digits ip 0 r2) as [[m n_frac] s3] eqn:E4.
    apply digits_length in E4.
    destruct (n_frac =? 0); [discriminate|].
    destruct (Json.optional_char ["e"%char; "E"%char] s3) as [[e|] r3] eqn:E5;
      apply optional_char_length in E5.
    + destruct (Json.optional_char ["-"%char; "+"%char] r3) as [esign r4] eqn:E6.
      apply optional_char_length in E6.
      destruct (Json.digits 0 0 r4) as [[ev n_exp] s4] eqn:E7.
      apply digits_length in E7.
      destruct (n_exp =? 0); [discriminate|]. intros [= _ <-]. lia.
    + intros [= _ <-]. lia.
  - destruct (Json.optional_char ["e"%char; "E"%char] s2) as [[e|] r3] eqn:E5;
      apply optional_char_length in E5.
    + destruct (Json.optional_char ["-"%char; "+"%char] r3) as [esign r4] eqn:E6.
      apply optional_char_length in E6.
      destruct (Json.digits 0 0 r4) as [[ev n_exp] s4] eqn:E7.
      apply digits_length in E7.
      destruct (n_exp =? 0); [discriminate|]. intros [= _ <-]. lia.
    + intros [= _ <-]. lia.
Qed.

Lemma parse_chars_length_below n : forall s t r,
  String.length s < n ->
  Json.parse_chars s = Some (t, r) -> String.length r < String.length s.
Proof.
  induction n as [|n IH]; intros s t r Hn H; [lia|].
  destruct s as [|c s]; [discriminate|]. cbn [Json.parse_chars] in H. cbn in Hn.
  destruct (Ascii.eqb c (ascii_of_nat 34)); [injection H as <- <-; cbn; lia|].
  destruct (nat_of_ascii c <? 32); [discriminate|].
  destruct (Ascii.eqb c (ascii_of_nat 92)).
  - destruct s as [|e s']; [discriminate|]. cbn in Hn.
    assert (Hs : forall ch,
      match Json.parse_chars s' with
      | Some (t0, rest) => Some (String (ascii_of_nat ch) t0, rest)
      | None => None
      end = Some (t, r) ->
      String.length r < String.length (String c (String e s'))).
    { intros ch Hm. destruct (Json.parse_chars s') as [[t0 rest]|] eqn:E; [|discriminate].
      injection Hm as _ <-. apply IH in E; cbn in *; lia. }
    repeat match type of H with
           | (if ?b then _ else _) = _ => destruct b; [apply (Hs _ H)|]
           end.
    destruct (Ascii.eqb e "u"); [|discriminate].
    destruct s' as [|h1 [|h2 [|h3 [|h4 s'']]]]; try discriminate.
    destruct (Json.hex_of h1), (Json.hex_of h2), (Json.hex_of h3), (Json.hex_of h4);
      try discriminate.
    destruct (Json.parse_chars s'') as [[t0 rest]|] eqn:E; [|discriminate].
    injection H as _ <-. apply IH in E; cbn in *; lia.
  - destruct (Json.parse_chars s) as [[t0 rest]|] eqn:E; [|discriminate].
    injection H as _ <-. apply IH in E; cbn in *; lia.
Qed.

Lemma parse_chars_length s t r :
  Json.parse_chars s = Some (t, r) -> String.length r < String.length s.
Proof. apply (parse_chars_length_below (S (String.length s))). lia. Qed.

Lemma parse_consumes n :
  (forall s v r, Json.parse_value n s = Some (v, r) ->
                 String.length r < String.length s)
  /\ (forall acc s v r, Json.parse_items n acc s = Some (v, r) ->
                        String.length r < String.length s)
  /\ (forall acc s v r, Json.parse_members n acc s = Some (v, r) ->
                        String.length r < String.length s).
Proof.
  induction n as [|n (IHv & IHi & IHm)]; [repeat split; intros; discriminate|].
  split; [|split].
  - intros s v r H. cbn [Json.parse_value] in H.
    pose proof (skip_ws_length s) as Hs.
    destruct (Json.skip_ws s) as [|c s1]; [discriminate|]. cbn in Hs.
    pose proof (skip_ws_length s1) as Hs1.
    destruct (Ascii.eqb c "{").
    { destruct (Json.optional_char ["}"%char] (Json.skip_ws s1)) as [[b|] r1] eqn:E;
        apply optional_char_length in E.
      - injection H as _ <-. lia.
      - apply IHm in H. lia. }
    destruct (Ascii.eqb c "[").
    { destruct (Json.optional_char ["]"%char] (Json.skip_ws s1)) as [[b|] r1] eqn:E;
        apply optional_char_length in E.
      - injection H as _ <-. lia.
      - apply IHi in H. lia. }
    destruct (Ascii.eqb c (ascii_of_nat 34)).
    { destruct (Json.parse_chars s1) as [[t rest]|] eqn:E; [|discriminate].
      injection H as _ <-. apply parse_chars_length in E. lia. }
    destruct (Ascii.eqb c "t").
    { destruct (Json.strip_prefix "rue" s1) eqn:E; [|discriminate].
      injection H as _ <-. apply strip_prefix_length in E. lia. }
    destruct (Ascii.eqb c "f").
    { destruct (Json.strip_prefix "alse" s1) eqn:E; [|discriminate].
      injection H as _ <-. apply strip_prefix_length in E. lia. }
    destruct (Ascii.eqb c "n").
    { destruct (Json.strip_prefix "ull" s1) eqn:E; [|discriminate].
      injection H as _ <-. apply strip_prefix_length in E. lia. }
    apply parse_number_length in H. cbn in H. lia.
  - intros acc s v r H. cbn [Json.parse_items] in H.
    destruct (Json.parse_value n s) as [[v1 r1]|] eqn:E; [|discriminate].
    apply IHv in E. pose proof (skip_ws_length r1) as Hs.
    destruct (Json.skip_ws r1) as [|c r2]; [discriminate|]. cbn in Hs.
    destruct (Ascii.eqb c ","); [apply IHi in H; lia|].
    destruct (Ascii.eqb c "]"); [|discriminate].
    injection H as _ <-. lia.
  - intros acc s v r H. cbn [Json.parse_members] in H.
    pose proof (skip_ws_length s) as Hs.
    destruct (Json.skip_ws s) as [|q s1]; [discriminate|]. cbn in Hs.
    destruct (Ascii.eqb q (ascii_of_nat 34)); [|discriminate].
    destruct (Json.parse_chars s1) as [[k r1]|] eqn:Ek; [|discriminate].
    apply parse_chars_length in Ek. pose proof (skip_ws_length r1) as Hs1.
    destruct (Json.skip_ws r1) as [|colon r2]; [discriminate|]. cbn in Hs1.
    destruct (Ascii.eqb colon ":"); [|discriminate].
    destruct (Json.parse_value n r2) as [[v1 r3]|] eqn:E; [|discriminate].
    apply IHv in E. pose proof (skip_ws_length r3) as Hs3.
    destruct (Json.skip_ws r3) as [|c r4]; [discriminate|]. cbn in Hs3.
    destruct (Ascii.eqb c ","); [apply IHm in H; lia|].
    destruct (Ascii.eqb c "}"); [|discriminate].
    injection H as _ <-. lia.
Qed.

Lemma parse_fuel n : forall m,
  (forall s, 2 * String.length s < n -> 2 * String.length s < m ->
             Json.parse_value n s = Json.parse_value m s)
  /\ (forall acc s, 2 * String.length s + 1 < n -> 2 * String.length s + 1 < m ->
                    Json.parse_items n acc s = Json.parse_items m acc s)
  /\ (forall acc s, 2 * String.length s + 1 < n -> 2 * String.length s + 1 < m ->
                    Json.parse_members n acc s = Json.parse_members m acc s).
Proof.
  induction n as [|n IH]; intros m; [repeat split; intros; lia|].
  destruct m as [|m]; [repeat split; intros; lia|].
  destruct (IH m) as (IHv & IHi & IHm). clear IH.
  destruct (parse_consumes n) as (Cv & _ & _).
  split; [|split].
  - intros s Hn Hm. cbn [Json.parse_value].
    pose proof (skip_ws_length s) as Hs.
    destruct (Json.skip_ws s) as [|c s1]; [reflexivity|]. cbn in Hs.
    pose proof (skip_ws_length s1) as Hs1.
    destruct (Ascii.eqb c "{").
    { destruct (Json.optional_char ["}"%char] (Json.skip_ws s1)) as [[b|] r1];
        [reflexivity|]. apply IHm; lia. }
    destruct (Ascii.eqb c "[").
    { destruct (Json.optional_char ["]"%char] (Json.skip_ws s1)) as [[b|] r1];
        [reflexivity|]. apply IHi; lia. }
    reflexivity.
  - intros acc s Hn Hm. cbn [Json.parse_items].
    rewrite <- (IHv s) by lia.
    destruct (Json.parse_value n s) as [[v1 r1]|] eqn:E; [|reflexivity].
    apply Cv in E. pose proof (skip_ws_length r1) as Hs.
    destruct (Json.skip_ws r1) as [|c r2]; [reflexivity|]. cbn in Hs.
    destruct (Ascii.eqb c ","); [apply IHi; lia|reflexivity].
  - intros acc s Hn Hm. cbn [Json.parse_members].
    pose proof (skip_ws_length s) as Hs.
    destruct (Json.skip_ws s) as [|q s1]; [reflexivity|]. cbn in Hs.
    destruct (Ascii.eqb q (ascii_of_nat 34)); [|reflexivity].
    destruct (Json.parse_chars s1) as [[k r1]|] eqn:Ek; [|reflexivity].
    apply parse_chars_length in Ek. pose proof (skip_ws_length r1) as Hs1.
    destruct (Json.skip_ws r1) as [|colon r2]; [reflexivity|]. cbn in Hs1.
    destruct (Ascii.eqb colon ":"); [|reflexivity].
    rewrite <- (IHv r2) by lia.
    destruct (Json.parse_value n r2) as [[v1 r3]|] eqn:E; [|reflexivity].
    apply Cv in E. pose proof (skip_ws_length r3) as Hs3.
    destruct (Json.skip_ws r3) as [|c r4]; [reflexivity|]. cbn in Hs3.
    destruct (Ascii.eqb c ","); [apply IHm; lia|reflexivity].
Qed.

(** The fuel [Json.parse] gives is enough: beyond twice the length of the
    text, more fuel changes nothing, so [None] is a syntax error and never
    an exhausted counter. *)
Lemma parse_value_fuel text n :
  2 * String.length text < n ->
  Json.parse_value n text = Json.parse_value (S (2 * String.length text)) text.
Proof. intros H. apply parse_fuel; lia. Qed.

Lemma resetUI_out w :
  resetUI w = mkOut (Normal tt) (set_document (reset_document (document w)) w)
    [Console LLog "Status: waiting - Ready to Chat";
     Console LLog "Santa says: Ho ho ho! Click below to talk to me!"].
Proof. reflexivity. Qed.

Lemma forEach_stop ids w :
  forEach ids stop_track w = mkOut (Normal tt) (set_tracks (stop_tracks ids (tracks w)) w) [].
Proof.
  revert w. induction ids as [|i ids IH]; intros w.
  - destruct w; reflexivity.
  - cbn [forEach]. unfold mbind, M_bind, bind. 
    change (stop_track i w) with (mkOut (Normal tt) (set_tracks (alter stop i (tracks w)) w) []).
    cbn iota. rewrite IH. reflexivity.
Qed.

Lemma forEach_stop_streams srcs w :
  forEach srcs (fun src => forEach src stop_track) w
  = mkOut (Normal tt) (set_tracks (stop_tracks (concat srcs) (tracks w)) w) [].
Proof.
  revert w. induction srcs as [|s srcs IH]; intros w.
  - destruct w; reflexivity.
  - cbn [forEach]. unfold mbind, M_bind, bind. rewrite forEach_stop, IH.
    cbn [concat]. unfold stop_tracks. rewrite foldl_app. reflexivity.
Qed.

Ltac munfold :=
  unfold mbind, M_bind, mret, M_ret, bind, ret, gets, modify, emit, lift, throw,
    try_catch, console_log, console_warn, console_error, on_document,
    style_display, set_markup, set_prop, await, updateStatus, updateSantaMessage in *.
Ltac msimpl := repeat (progress (munfold; cbn)).

Lemma disconnect_world w : world (disconnect w) = cleaned w.
Proof.
  unfold disconnect, cleaned, local_stream_tracks, container_tracks, client_disconnect.
  destruct w as [cl rs mu au cls ss ts st dl pe doc].
  destruct doc as [di co sd ch vc gg pr sp lc ai].
  msimpl.
  destruct rs as [sid|]; [unfold session_at; cbn [sessions]; destruct (localStream _) eqn:E |].
  all: rewrite ?forEach_stop; msimpl.
  all: destruct cl as [cid|]; msimpl; [match goal with |- context [c_disconnect_throws ?c] => destruct (c_disconnect_throws c) end; msimpl|].
  all: destruct vc as [nodes|]; msimpl; rewrite ?forEach_stop_streams; msimpl.
  all: reflexivity.
Qed.

Lemma disconnect_value w : value (disconnect w) = Normal tt.
Proof.
  unfold disconnect, client_disconnect.
  destruct w as [cl rs mu au cls ss ts st dl pe doc].
  destruct doc as [di co sd ch vc gg pr sp lc ai].
  msimpl.
  destruct rs as [sid|]; [unfold session_at; cbn [sessions]; destruct (localStream _) eqn:E |].
  all: rewrite ?forEach_stop; msimpl.
  all: destruct cl as [cid|]; msimpl; [match goal with |- context [c_disconnect_throws ?c] => destruct (c_disconnect_throws c) end; msimpl|].
  all: destruct vc as [nodes|]; msimpl; rewrite ?forEach_stop_streams; msimpl.
  all: reflexivity.
Qed.

Lemma reset_document_idem d : reset_document (reset_document d) = reset_document d.
Proof.
  unfold reset_document; cbn. f_equal.
  - apply map_eq; intros k. rewrite !lookup_insert. repeat case_decide; congruence.
  - apply insert_insert_eq.
Qed.


Lemma disconnect_out w :
  disconnect w = mkOut (Normal tt) (cleaned w) (effects (disconnect w)).
Proof.
  pose proof (disconnect_world w) as Hw. pose proof (disconnect_value w) as Hv.
  destruct (disconnect w) as [v w1 e1]; cbn in *; subst; reflexivity.
Qed.

Lemma guarded_value m w : value (guarded m w) = Normal tt.
Proof. unfold guarded, try_catch. destruct (m w) as [[[]|e] w1 e1]; reflexivity. Qed.

Lemma forEach_guarded_value {A} (xs : list A) (f : A -> M unit) w :
  value (forEach xs (fun x => guarded (f x)) w) = Normal tt.
Proof.
  revert w; induction xs as [|x xs IH]; intros w; [reflexivity|].
  cbn [forEach]. unfold mbind, M_bind, bind.
  pose proof (guarded_value (f x) w) as Hv.
  destruct (guarded (f x) w) as [v w1 e1]; cbn in Hv; subst v.
  specialize (IH w1). destruct (forEach xs _ w1) as [v2 w2 e2]; cbn in *; assumption.
Qed.

Lemma step_value i w : value (step i w) = Normal tt.
Proof.
  destruct i; cbn [step]; unfold mbind, M_bind, bind, gets; cbn.
  1-3: match goal with |- context [forEach ?xs (fun h => guarded (@?f h)) ?w] =>
         pose proof (forEach_guarded_value xs f w) as Hv;
         destruct (forEach xs _ w) as [v w1 e1]; cbn in *; assumption end.
  all: unfold resume, mbind, M_bind, bind, gets, modify; cbn;
       destruct (pending w !! i) as [f|]; [|reflexivity];
       destruct f; cbn; try reflexivity.
  all: match goal with |- context [guarded ?m ?w] =>
         pose proof (guarded_value m w) as Hv;
         destruct (guarded m w) as [v w1 e1]; cbn in *; assumption end.
Qed.

Lemma run_cons_world i rest w :
  world (run (i :: rest) w) = world (run rest (world (step i w))).
Proof.
  cbn [run]. unfold mbind, M_bind, bind.
  pose proof (step_value i w) as Hv.
  destruct (step i w) as [v w1 e1]; cbn in *; subst v.
  destruct (run rest w1); reflexivity.
Qed.

Lemma cleaned_reset w :
  cleaned (set_document (reset_document (document w)) w) = cleaned w.
Proof.
  unfold cleaned, local_stream_tracks, container_tracks.
  destruct w as [cl rs mu au cls ss ts st dl pe doc]; cbn.
  f_equal.
  match goal with |- reset_document (set_videoContainer ?v (reset_document ?d)) = _ =>
    change (set_videoContainer v (reset_document d)) with (reset_document (set_videoContainer v d)) end.
  apply reset_document_idem.
Qed.

Lemma step_session_disconnect w sid event h params :
  listeners_for event (s_listeners (session_at sid w)) = [h] ->
  h = on_call_ended \/ h = on_destroy \/ h = on_room_left ->
  world (step (SessionEmit sid event params) w) = cleaned w.
Proof.
  intros Hl Hh. cbn [step]. unfold mbind, M_bind, bind, gets.
  rewrite Hl. destruct Hh as [-> | [-> | ->]]; cbn [forEach run_handler].
  - unfold handleRoomEnded, guarded. msimpl. rewrite resetUI_out. msimpl.
    rewrite disconnect_out. msimpl. apply cleaned_reset.
  - unfold guarded. msimpl. rewrite disconnect_out. reflexivity.
  - unfold guarded. msimpl. rewrite disconnect_out. reflexivity.
Qed.










Lemma stop_tracks_lookup ids : forall ts i,
  stop_tracks ids ts !! i
  = (fun t => mkTrack (kind t) (enabled t) (ended t || bool_decide (i ∈ ids))) <$> ts !! i.
Proof.
  induction ids as [|j ids IH]; intros ts i.
  - cbn. destruct (ts !! i) as [[k e d]|]; cbn; [|reflexivity].
    rewrite bool_decide_eq_false_2 by apply not_elem_of_nil.
    rewrite orb_false_r. reflexivity.
  - change (stop_tracks (j :: ids) ts) with (stop_tracks ids (alter stop j ts)).
    rewrite IH. destruct (decide (j = i)) as [->|Hne].
    + rewrite list_lookup_alter_eq. destruct (ts !! i) as [[k e d]|]; cbn; [|reflexivity].
      rewrite (bool_decide_eq_true_2 (i ∈ i :: ids)) by (apply elem_of_cons; left; reflexivity).
      rewrite orb_true_r. reflexivity.
    + rewrite list_lookup_alter_ne by assumption.
      destruct (ts !! i) as [[k e d]|]; cbn; [|reflexivity].
      do 3 f_equal. apply bool_decide_ext. rewrite elem_of_cons. intuition congruence.
Qed.





Lemma alter_last {A} (f : A -> A) (l : list A) (x : A) :
  alter f (length l) (l ++ [x])%list = (l ++ [f x])%list.
Proof. rewrite alter_app_r_alt by lia. rewrite Nat.sub_diag. reflexivity. Qed.

Lemma get_prop_not_nullish v k :
  nullish v = false -> exists r, get_prop v k = Normal r.
Proof. destruct v; cbn; intros H; try discriminate; eexists; reflexivity. Qed.

Lemma startCall_disabled w :
  startBtn_disabled (document w) = true ->
  startCall w = mkOut (Normal tt) w [Console LLog "Call already in progress"].
Proof. intros H. unfold startCall. msimpl. rewrite H. reflexivity. Qed.

Lemma startCall_enabled w :
  startBtn_disabled (document w) = false ->
  startCall w
  = mkOut (Normal tt)
      (set_pending (pending w ++ [AwaitSignalWire])
         (set_document
            (set_content (<["startBtn" := TextConnecting]> (content (document w)))
               (set_startBtn_disabled true (document w))) w))
      [Console LLog "Status: connecting - Connecting to Santa..."; Sdk ReqSignalWire].
Proof. intros H. unfold startCall. msimpl. rewrite H. reflexivity. Qed.

Lemma startCall_after_SignalWire_ok c w :
  nullish (audioSettings w) = false ->
  exists ec ns agc,
  startCall_after_SignalWire (Fulfilled c) w
  = mkOut (Normal tt)
      (set_pending (pending w ++ [AwaitDial])
         (set_client (Some (length (clients w)))
            (set_clients (clients w ++ [with_listener c]) w)))
      [Sdk (ReqDial (length (clients w)) ec ns agc)].
Proof.
  intros H.
  destruct (get_prop_not_nullish _ "echoCancellation" H) as [ec Hec].
  destruct (get_prop_not_nullish _ "noiseSuppression" H) as [ns Hns].
  destruct (get_prop_not_nullish _ "autoGainControl" H) as [agc Hagc].
  exists ec, ns, agc.
  unfold startCall_after_SignalWire, client_on. msimpl.
  rewrite Hec, Hns, Hagc. msimpl. rewrite alter_last. reflexivity.
Qed.

Lemma startCall_after_dial_ok s w :
  startCall_after_dial (Fulfilled s) w
  = mkOut (Normal tt)
      (set_pending (pending w ++ [AwaitStart])
         (set_roomSession (Some (length (sessions w)))
            (set_sessions (sessions w ++ [with_listeners s]) w)))
      [Console LLog "Room session created:"; Sdk (ReqStart (length (sessions w)))].
Proof.
  unfold startCall_after_dial, with_listeners. unfold session_on. msimpl.
  rewrite !alter_last. cbn. rewrite <- !app_assoc. reflexivity.
Qed.

Lemma startCall_after_start_ok w :
  startCall_after_start (Fulfilled tt) w
  = mkOut (Normal tt)
      (set_document
         (set_display
            (<["muteBtn" := "block"]> (<["endBtn" := "block"]>
               (<["startBtn" := "none"]> (display (document w)))))
            (document w)) w)
      [Console LLog "Call started successfully";
       Console LLog "Status: connected - Talking with Santa!"].
Proof. reflexivity. Qed.

Lemma run_cons i rest w w1 e1 :
  step i w = mkOut (Normal tt) w1 e1 ->
  run (i :: rest) w
  = mkOut (value (run rest w1)) (world (run rest w1)) (e1 ++ effects (run rest w1)).
Proof.
  intros H. cbn [run]. unfold mbind, M_bind, bind. rewrite H.
  destruct (run rest w1); reflexivity.
Qed.


Lemma resume_hit i f rest w :
  pending w !! i = Some f ->
  resume i f rest w = guarded rest (set_pending (delete i (pending w)) w).
Proof.
  intros H. unfold resume. msimpl. rewrite H. destruct f; msimpl.
  all: destruct (guarded rest _) as [v w1 e1]; reflexivity.
Qed.

Lemma guarded_normal m w w1 e1 :
  m w = mkOut (Normal tt) w1 e1 -> guarded m w = mkOut (Normal tt) w1 e1.
Proof. intros H. unfold guarded, try_catch. rewrite H. reflexivity. Qed.

Lemma step_start_click_disabled w :
  start_registered w -> startBtn_disabled (document w) = true ->
  step start_click w = mkOut (Normal tt) w [Console LLog "Call already in progress"].
Proof.
  intros Hr Hd. cbn [step start_click]. unfold mbind, M_bind, bind, gets.
  rewrite Hr. cbn [forEach run_handler]. unfold mbind, M_bind, bind.
  rewrite (guarded_normal _ _ _ _ (startCall_disabled w Hd)). reflexivity.
Qed.

Lemma step_start_click_enabled w :
  start_registered w -> startBtn_disabled (document w) = false ->
  step start_click w
  = mkOut (Normal tt) (connecting w)
      [Console LLog "Status: connecting - Connecting to Santa..."; Sdk ReqSignalWire].
Proof.
  intros Hr Hd. cbn [step start_click]. unfold mbind, M_bind, bind, gets.
  rewrite Hr. cbn [forEach run_handler]. unfold mbind, M_bind, bind.
  rewrite (guarded_normal _ _ _ _ (startCall_enabled w Hd)). reflexivity.
Qed.

Lemma run_ignored_clicks k rest w :
  start_registered w -> startBtn_disabled (document w) = true ->
  world (run (repeat start_click k ++ rest) w) = world (run rest w)
  /\ sdk_requests (effects (run (repeat start_click k ++ rest) w))
     = sdk_requests (effects (run rest w)).
Proof.
  intros Hr Hd. induction k as [|k IH]; [split; reflexivity|].
  cbn [repeat app]. rewrite (run_cons _ _ _ _ _ (step_start_click_disabled w Hr Hd)).
  cbn [world effects]. exact IH.
Qed.

Lemma step_SignalWire_ok c w :
  pending w = [AwaitSignalWire] -> nullish (audioSettings w) = false ->
  exists ec ns agc,
  step (SignalWireSettled 0 (Fulfilled c)) w
  = mkOut (Normal tt) (dialing c (set_pending [] w))
      [Sdk (ReqDial (length (clients w)) ec ns agc)].
Proof.
  intros Hp Hn.
  destruct (startCall_after_SignalWire_ok c (set_pending [] w) Hn) as (ec & ns & agc & H).
  exists ec, ns, agc. cbn [step]. rewrite (resume_hit 0 AwaitSignalWire) by (rewrite Hp; reflexivity).
  rewrite Hp. cbn [delete list_delete]. apply guarded_normal. exact H.
Qed.

Lemma step_Dial_ok s w :
  pending w = [AwaitDial] ->
  step (DialSettled 0 (Fulfilled s)) w
  = mkOut (Normal tt) (starting s (set_pending [] w))
      [Console LLog "Room session created:"; Sdk (ReqStart (length (sessions w)))].
Proof.
  intros Hp. cbn [step]. rewrite (resume_hit 0 AwaitDial) by (rewrite Hp; reflexivity).
  rewrite Hp. cbn [delete list_delete]. apply guarded_normal.
  exact (startCall_after_dial_ok s (set_pending [] w)).
Qed.

Lemma step_Start_ok w :
  pending w = [AwaitStart] ->
  step (StartSettled 0 (Fulfilled tt)) w
  = mkOut (Normal tt) (connected (set_pending [] w))
      [Console LLog "Call started successfully";
       Console LLog "Status: connected - Talking with Santa!"].
Proof.
  intros Hp. cbn [step]. rewrite (resume_hit 0 AwaitStart) by (rewrite Hp; reflexivity).
  rewrite Hp. cbn [delete list_delete]. apply guarded_normal.
  exact (startCall_after_start_ok (set_pending [] w)).
Qed.

Lemma sdk_requests_app a b :
  sdk_requests (a ++ b) = (sdk_requests a ++ sdk_requests b)%list.
Proof. apply omap_app. Qed.

Lemma run_start_with_clicks c s k1 k2 k3 k4 w :
  start_registered w -> startBtn_disabled (document w) = false ->
  pending w = [] -> nullish (audioSettings w) = false ->
  let inputs :=
    (start_click :: repeat start_click k1
     ++ SignalWireSettled 0 (Fulfilled c) :: repeat start_click k2
     ++ DialSettled 0 (Fulfilled s) :: repeat start_click k3
     ++ StartSettled 0 (Fulfilled tt) :: repeat start_click k4)%list in
  world (run inputs w) = started c s w
  /\ exists ec ns agc,
       sdk_requests (effects (run inputs w))
       = [ReqSignalWire; ReqDial (length (clients w)) ec ns agc;
          ReqStart (length (sessions w))].
Proof.
  intros Hr Hd Hp Hn inputs. subst inputs.
  rewrite (run_cons _ _ _ _ _ (step_start_click_enabled w Hr Hd)). cbn [world effects].
  set (w1 := connecting w).
  assert (Hp1 : pending w1 = [AwaitSignalWire]) by (cbn; rewrite Hp; reflexivity).
  rewrite sdk_requests_app.
  destruct (run_ignored_clicks k1
    (SignalWireSettled 0 (Fulfilled c) :: repeat start_click k2
     ++ DialSettled 0 (Fulfilled s) :: repeat start_click k3
     ++ StartSettled 0 (Fulfilled tt) :: repeat start_click k4) w1 Hr eq_refl) as [-> ->].
  destruct (step_SignalWire_ok c w1 Hp1 Hn) as (ec & ns & agc & H2).
  rewrite (run_cons _ _ _ _ _ H2). cbn [world effects].
  set (w2 := dialing c (set_pending [] w1)).
  assert (Hp2 : pending w2 = [AwaitDial]) by reflexivity.
  rewrite sdk_requests_app.
  destruct (run_ignored_clicks k2
    (DialSettled 0 (Fulfilled s) :: repeat start_click k3
     ++ StartSettled 0 (Fulfilled tt) :: repeat start_click k4) w2 Hr eq_refl) as [-> ->].
  rewrite (run_cons _ _ _ _ _ (step_Dial_ok s w2 Hp2)). cbn [world effects].
  set (w3 := starting s (set_pending [] w2)).
  assert (Hp3 : pending w3 = [AwaitStart]) by reflexivity.
  rewrite sdk_requests_app.
  destruct (run_ignored_clicks k3
    (StartSettled 0 (Fulfilled tt) :: repeat start_click k4) w3 Hr eq_refl) as [-> ->].
  rewrite (run_cons _ _ _ _ _ (step_Start_ok w3 Hp3)). cbn [world effects].
  set (w4 := connected (set_pending [] w3)).
  rewrite sdk_requests_app.
  destruct (run_ignored_clicks k4 [] w4 Hr eq_refl) as [E4w E4].
  rewrite app_nil_r in E4w, E4. rewrite E4w, E4. split; [reflexivity|].
  exists ec, ns, agc. reflexivity.
Qed.

(** C2. A click on the start control while it is disabled returns at once,
    with nothing requested from the SDK and no state changed.  So however
    many extra clicks arrive before the client is ready, before the dial
    resolves, before the call start resolves and afterwards, the run ends in
    the same world as the run without them: one client and one session
    created, one dial request sent, and the start control still disabled
    while the session is up. *)
Theorem second_start_is_ignored
    (w : World) (c : ClientObj) (s : SessionObj) (k1 k2 k3 k4 : nat) :
  start_registered w -> startBtn_disabled (document w) = false ->
  pending w = [] -> nullish (audioSettings w) = false ->
  let inputs :=
    (start_click :: repeat start_click k1
     ++ SignalWireSettled 0 (Fulfilled c) :: repeat start_click k2
     ++ DialSettled 0 (Fulfilled s) :: repeat start_click k3
     ++ StartSettled 0 (Fulfilled tt) :: repeat start_click k4)%list in
  let o := run inputs w in
  (forall v, startBtn_disabled (document v) = true ->
     startCall v = mkOut (Normal tt) v [Console LLog "Call already in progress"])
  /\ world o = world (run (start_inputs c s) w)
  /\ sessions (world o) = (sessions w ++ [with_listeners s])%list
  /\ clients (world o) = (clients w ++ [with_listener c])%list
  /\ roomSession (world o) = Some (length (sessions w))
  /\ client (world o) = Some (length (clients w))
  /\ startBtn_disabled (document (world o)) = true
  /\ exists ec ns agc,
       sdk_requests (effects o)
       = [ReqSignalWire; ReqDial (length (clients w)) ec ns agc;
          ReqStart (length (sessions w))].
Proof.
  intros Hr Hd Hp Hn inputs o.
  destruct (run_start_with_clicks c s k1 k2 k3 k4 w Hr Hd Hp Hn) as [Hw Hreq].
  destruct (run_start_with_clicks c s 0 0 0 0 w Hr Hd Hp Hn) as [Hw0 _].
  fold inputs in Hw, Hreq. fold o in Hw, Hreq.
  change (world (run (start_inputs c s) w) = started c s w) in Hw0.
  split; [exact startCall_disabled|].
  rewrite Hw0, Hw. repeat split; try reflexivity.
  exact Hreq.
Qed.

Lemma second_start_is_ignored_witness :
  roomSession
    (world (run (start_click :: repeat start_click 2
                 ++ SignalWireSettled 0 (Fulfilled example_client) :: repeat start_click 1
                 ++ DialSettled 0 (Fulfilled example_session) :: repeat start_click 3
                 ++ StartSettled 0 (Fulfilled tt) :: repeat start_click 1)
              example_loaded))
  = Some 0.
Proof.
  refine (proj1 (proj2 (proj2 (proj2 (proj2
    (second_start_is_ignored example_loaded example_client example_session 2 1 3 1
       _ _ _ _)))))); vm_compute; reflexivity.
Defined.

Lemma resetUI_world w : world (resetUI w) = set_document (reset_document (document w)) w.
Proof. rewrite resetUI_out. reflexivity. Qed.

(** C10. Neither [disconnect] nor [resetUI] writes [isMuted], and neither
    does starting a call.  So when a call ends while muted and the next one
    starts, the new session is up with [isMuted] still true, the mute button
    shown again with the label it had, and every track that was enabled
    (those of the new session included) still enabled. *)
Theorem mute_flag_survives_cleanup (w : World) (c : ClientObj) (s : SessionObj) :
  (forall v, isMuted (world (disconnect v)) = isMuted v
             /\ isMuted (world (resetUI v)) = isMuted v)
  /\ (isMuted w = true -> start_registered w -> pending w = [] ->
      nullish (audioSettings w) = false ->
      let w1 := world (disconnect w) in
      let w2 := world (run (start_inputs c s) w1) in
      isMuted w1 = true
      /\ roomSession w2 = Some (length (sessions w))
      /\ session_at (length (sessions w)) w2 = with_listeners s
      /\ isMuted w2 = true
      /\ display (document w2) !! "muteBtn" = Some "block"
      /\ content (document w2) !! "muteBtn" = content (document w) !! "muteBtn"
      /\ forall i t, tracks w !! i = Some t -> enabled t = true ->
           exists t', tracks w2 !! i = Some t' /\ enabled t' = true).
Proof.
  split.
  - intros v. rewrite disconnect_world, resetUI_world. split; reflexivity.
  - intros Hm Hr Hp Hn w1 w2. subst w1 w2. rewrite disconnect_world.
    destruct (run_start_with_clicks c s 0 0 0 0 (cleaned w)) as [Hw _];
      try assumption; try reflexivity.
    change (world (run (start_inputs c s) (cleaned w)) = started c s (cleaned w)) in Hw.
    rewrite Hw. repeat split; try assumption.
    + unfold session_at. cbn. rewrite lookup_app_r by lia.
      rewrite Nat.sub_diag. reflexivity.
    + cbn. apply lookup_insert_eq.
    + cbn. rewrite !lookup_insert_ne by discriminate. reflexivity.
    + intros i t Ht He. cbn. rewrite !stop_tracks_lookup, Ht. cbn.
      eexists; split; [reflexivity|]. exact He.
Qed.

Lemma mute_flag_survives_cleanup_witness :
  isMuted
    (world (run (start_inputs example_client example_session)
              (world (disconnect example_muted_call)))) = true.
Proof.
  refine (proj1 (proj2 (proj2 (proj2
    (proj2 (mute_flag_survives_cleanup example_muted_call example_client example_session)
       _ _ _ _))))); vm_compute; reflexivity.
Defined.

Lemma step_rejected_SignalWire w :
  pending w = [AwaitSignalWire] ->
  world (step (SignalWireSettled 0 Rejected) w) = failed (set_pending [] w).
Proof.
  intros Hp. cbn [step]. rewrite (resume_hit 0 AwaitSignalWire) by (rewrite Hp; reflexivity).
  rewrite Hp. reflexivity.
Qed.

Lemma step_rejected_Dial w :
  pending w = [AwaitDial] ->
  world (step (DialSettled 0 Rejected) w) = failed (set_pending [] w).
Proof.
  intros Hp. cbn [step]. rewrite (resume_hit 0 AwaitDial) by (rewrite Hp; reflexivity).
  rewrite Hp. reflexivity.
Qed.

Lemma step_rejected_Start w :
  pending w = [AwaitStart] ->
  world (step (StartSettled 0 Rejected) w) = failed (set_pending [] w).
Proof.
  intros Hp. cbn [step]. rewrite (resume_hit 0 AwaitStart) by (rewrite Hp; reflexivity).
  rewrite Hp. reflexivity.
Qed.

Lemma run_cons_step i rest w w1 e1 :
  step i w = mkOut (Normal tt) w1 e1 ->
  world (run (i :: rest) w) = world (run rest w1).
Proof. intros H. rewrite (run_cons _ _ _ _ _ H). reflexivity. Qed.

Lemma run_single_world i w : world (run [i] w) = world (step i w).
Proof. rewrite run_cons_world. reflexivity. Qed.

(** C3, as the code has it.  Whichever of the three awaited SDK calls is
    rejected, the catch block re-enables the start control and restores its
    label, and no function is left suspended.  It does not touch the
    handles: a rejected client creation leaves them as they were before the
    call, a rejected dial leaves [client] set to the client just created, and
    a rejected call start leaves both [client] and [roomSession] set. *)
Theorem start_failure_reenables_start
    (w : World) (c : ClientObj) (s : SessionObj) :
  start_registered w -> startBtn_disabled (document w) = false ->
  pending w = [] -> nullish (audioSettings w) = false ->
  let w1 := world (run [start_click; SignalWireSettled 0 Rejected] w) in
  let w2 := world (run [start_click; SignalWireSettled 0 (Fulfilled c);
                        DialSettled 0 Rejected] w) in
  let w3 := world (run [start_click; SignalWireSettled 0 (Fulfilled c);
                        DialSettled 0 (Fulfilled s); StartSettled 0 Rejected] w) in
  (w1 = set_document
          (set_content (<["startBtn" := HtmlTalkToSanta]> (content (document w)))
             (document w)) w)
  /\ (startBtn_disabled (document w2) = false
      /\ content (document w2) !! "startBtn" = Some HtmlTalkToSanta
      /\ pending w2 = []
      /\ client w2 = Some (length (clients w))
      /\ roomSession w2 = roomSession w)
  /\ (startBtn_disabled (document w3) = false
      /\ content (document w3) !! "startBtn" = Some HtmlTalkToSanta
      /\ pending w3 = []
      /\ client w3 = Some (length (clients w))
      /\ roomSession w3 = Some (length (sessions w))).
Proof.
  intros Hr Hd Hp Hn w1 w2 w3. subst w1 w2 w3.
  rewrite !(run_cons_step _ _ _ _ _ (step_start_click_enabled w Hr Hd)).
  set (v1 := connecting w).
  assert (Hp1 : pending v1 = [AwaitSignalWire]) by (cbn; rewrite Hp; reflexivity).
  destruct (step_SignalWire_ok c v1 Hp1 Hn) as (ec & ns & agc & H2).
  rewrite !(run_cons_step _ _ _ _ _ H2).
  set (v2 := dialing c (set_pending [] v1)).
  rewrite !(run_cons_step _ _ _ _ _ (step_Dial_ok s v2 eq_refl)).
  rewrite !run_single_world.
  rewrite (step_rejected_SignalWire v1 Hp1).
  rewrite (step_rejected_Dial v2 eq_refl).
  rewrite (step_rejected_Start (starting s (set_pending [] v2)) eq_refl).
  split; [|split].
  - unfold failed, v1, connecting. destruct w as [cl rs mu au cls ss ts st dl pe doc].
    destruct doc as [di co sd ch vc gg pr sp lc ai]. cbn in *. subst.
    rewrite insert_insert_eq. reflexivity.
  - repeat split; try reflexivity. cbn. apply lookup_insert_eq.
  - repeat split; try reflexivity. cbn. apply lookup_insert_eq.
Qed.

Lemma start_failure_reenables_start_witness :
  startBtn_disabled
    (document (world (run [start_click; SignalWireSettled 0 (Fulfilled example_client);
                           DialSettled 0 Rejected] example_loaded))) = false.
Proof.
  refine (proj1 (proj1 (proj2
    (start_failure_reenables_start example_loaded example_client example_session
       _ _ _ _)))); vm_compute; reflexivity.
Defined.

(** C3 as stated fails: from a loaded page with both handles unset, a
    rejected dial leaves [client] set, and a rejected call start leaves
    [client] and [roomSession] set. *)
Lemma start_failure_keeps_handles :
  client example_loaded = None /\ roomSession example_loaded = None
  /\ client (world (run [start_click; SignalWireSettled 0 (Fulfilled example_client);
                         DialSettled 0 Rejected] example_loaded)) = Some 0
  /\ roomSession (world (run [start_click; SignalWireSettled 0 (Fulfilled example_client);
                              DialSettled 0 (Fulfilled example_session);
                              StartSettled 0 Rejected] example_loaded)) = Some 0.
Proof. vm_compute. repeat split; reflexivity. Qed.

(** C4, as the code has it.  Once the dial has resolved, [startCall] adds
    the call.ended, destroy and room.left listeners to the new session and
    only then sends the start request and suspends on it, so any of the three
    signals arriving while the call start is awaited runs [disconnect].  No
    part of [startCall] adds a page-level listener: the end-button listener
    is added by [initializeUI] and the unload listener by the script's top
    level.  Until the dial resolves there is no session object of this
    call, and [roomSession] is what it was at the click: the segments before
    the dial do not write it.  A page unload arriving then does nothing when
    no session handle is set; when a handle is left over from an earlier
    attempt, it asks that session to hang up. *)
Theorem session_listeners_before_start (w : World) (s : SessionObj) :
  s_listeners s = [] ->
  let o := startCall_after_dial (Fulfilled s) w in
  let sid := length (sessions w) in
  (roomSession (world o) = Some sid
   /\ listeners_for "call.ended" (s_listeners (session_at sid (world o))) = [on_call_ended]
   /\ listeners_for "destroy" (s_listeners (session_at sid (world o))) = [on_destroy]
   /\ listeners_for "room.left" (s_listeners (session_at sid (world o))) = [on_room_left]
   /\ pending (world o) = (pending w ++ [AwaitStart])%list
   /\ sdk_requests (effects o) = [ReqStart sid])
  /\ (forall event params,
        event = "call.ended" \/ event = "destroy" \/ event = "room.left" ->
        let w' := world (step (SessionEmit sid event params) (world o)) in
        w' = world (disconnect (world o)) /\ roomSession w' = None /\ client w' = None)
  /\ (dom_listeners (world (startCall w)) = dom_listeners w
      /\ (forall r, dom_listeners (world (startCall_after_SignalWire r w)) = dom_listeners w)
      /\ (forall r, dom_listeners (world (startCall_after_dial r w)) = dom_listeners w)
      /\ (forall r, dom_listeners (world (startCall_after_start r w)) = dom_listeners w))
  /\ (dom_listeners (world (initializeUI w))
      = (dom_listeners w ++ [("startBtn", "click", click_startCall);
                             ("endBtn", "click", click_endCall);
                             ("muteBtn", "click", click_toggleMute)])%list
      /\ dom_listeners (world (script w))
         = (dom_listeners w ++ [("document", "DOMContentLoaded", on_DOMContentLoaded);
                                ("window", "beforeunload", on_beforeunload)])%list)
  /\ (sessions (world (startCall w)) = sessions w
      /\ forall r, sessions (world (startCall_after_SignalWire r w)) = sessions w)
  /\ (roomSession (world (startCall w)) = roomSession w
      /\ forall r, roomSession (world (startCall_after_SignalWire r w)) = roomSession w)
  /\ (roomSession w = None ->
      run_handler on_beforeunload JUndefined w = mkOut (Normal tt) w [])
  /\ (forall old, roomSession w = Some old ->
      exists es,
        run_handler on_beforeunload JUndefined w
        = mkOut (Normal tt) (set_pending (pending w ++ [AwaitHangup]) w) es
        /\ sdk_requests es = [ReqHangup old]).
Proof.
  intros Hs o sid. subst o sid. rewrite startCall_after_dial_ok. cbn [world effects].
  fold (starting s w).
  assert (Hat : session_at (length (sessions w)) (starting s w) = with_listeners s).
  { unfold session_at. cbn. rewrite lookup_app_r by lia. rewrite Nat.sub_diag. reflexivity. }
  split; [|split; [|split; [|split; [|split]]]].
  - rewrite Hat. unfold with_listeners. rewrite Hs. repeat split; reflexivity.
  - intros event params Hev. rewrite disconnect_world.
    assert (Hc : world (step (SessionEmit (length (sessions w)) event params) (starting s w))
                 = cleaned (starting s w)).
    { destruct Hev as [-> | [-> | ->]].
      - apply (step_session_disconnect _ _ _ on_call_ended); [|tauto].
        rewrite Hat. unfold with_listeners. rewrite Hs. reflexivity.
      - apply (step_session_disconnect _ _ _ on_destroy); [|tauto].
        rewrite Hat. unfold with_listeners. rewrite Hs. reflexivity.
      - apply (step_session_disconnect _ _ _ on_room_left); [|tauto].
        rewrite Hat. unfold with_listeners. rewrite Hs. reflexivity. }
    rewrite Hc. repeat split; reflexivity.
  - repeat split.
    + destruct (startBtn_disabled (document w)) eqn:E.
      * rewrite (startCall_disabled w E). reflexivity.
      * rewrite (startCall_enabled w E). reflexivity.
    + intros [c'|]; [|reflexivity].
      unfold startCall_after_SignalWire, client_on. msimpl.
      destruct (get_prop (audioSettings w) "echoCancellation"); msimpl; [|reflexivity].
      destruct (get_prop (audioSettings w) "noiseSuppression"); msimpl; [|reflexivity].
      destruct (get_prop (audioSettings w) "autoGainControl"); msimpl; reflexivity.
    + intros [s'|]; [|reflexivity]. rewrite startCall_after_dial_ok. reflexivity.
    + intros [[]|]; reflexivity.
  - split; unfold initializeUI, script, addEventListener; msimpl;
      rewrite <- !app_assoc; reflexivity.
  - split.
    + destruct (startBtn_disabled (document w)) eqn:E.
      * rewrite (startCall_disabled w E). reflexivity.
      * rewrite (startCall_enabled w E). reflexivity.
    + intros [c'|]; [|reflexivity].
      unfold startCall_after_SignalWire, client_on. msimpl.
      destruct (get_prop (audioSettings w) "echoCancellation"); msimpl; [|reflexivity].
      destruct (get_prop (audioSettings w) "noiseSuppression"); msimpl; [|reflexivity].
      destruct (get_prop (audioSettings w) "autoGainControl"); msimpl; reflexivity.
  - split; [split|split].
    + destruct (startBtn_disabled (document w)) eqn:E.
      * rewrite (startCall_disabled w E). reflexivity.
      * rewrite (startCall_enabled w E). reflexivity.
    + intros [c'|]; [|reflexivity].
      unfold startCall_after_SignalWire, client_on. msimpl.
      destruct (get_prop (audioSettings w) "echoCancellation"); msimpl; [|reflexivity].
      destruct (get_prop (audioSettings w) "noiseSuppression"); msimpl; [|reflexivity].
      destruct (get_prop (audioSettings w) "autoGainControl"); msimpl; reflexivity.
    + intros Hrs. cbn [run_handler]. msimpl. rewrite Hrs. destruct w; reflexivity.
    + intros old Hrs. cbn [run_handler]. unfold hangup. msimpl. rewrite Hrs. msimpl.
      rewrite Hrs. msimpl. eexists. split; reflexivity.
Qed.

Lemma session_listeners_before_start_witness :
  listeners_for "destroy"
    (s_listeners (session_at 0
       (world (startCall_after_dial (Fulfilled example_session) example_loaded))))
  = [on_destroy].
Proof.
  refine (proj1 (proj2 (proj2 (proj1
    (session_listeners_before_start example_loaded example_session _)))));
    reflexivity.
Defined.

(** C4 as stated fails: while [startCall] awaits the dial, no session exists
    and no session listener is registered; a page unload delivered then
    changes nothing and sends nothing to the SDK, and the call goes on to
    become active; an end-button click delivered then resets the page, and
    the call still becomes active once the dial and the start resolve. *)
Lemma termination_during_dial_is_missed :
  pending example_dialing = [AwaitDial]
  /\ sessions example_dialing = []
  /\ step (DomEvent "window" "beforeunload") example_dialing
     = mkOut (Normal tt) example_dialing []
  /\ roomSession
       (world (run [DomEvent "window" "beforeunload";
                    DialSettled 0 (Fulfilled example_session);
                    StartSettled 0 (Fulfilled tt)] example_dialing)) = Some 0
  /\ roomSession
       (world (run [DomEvent "endBtn" "click";
                    DialSettled 0 (Fulfilled example_session);
                    StartSettled 0 (Fulfilled tt)] example_dialing)) = Some 0.
Proof. vm_compute. repeat split; reflexivity. Qed.

Lemma forEach_set_enabled ids w :
  forEach ids (fun t => m ← gets isMuted; set_enabled (negb m) t) w
  = mkOut (Normal tt)
      (set_tracks (enable_tracks (negb (isMuted w)) ids (tracks w)) w) [].
Proof.
  revert w. induction ids as [|i ids IH]; intros w.
  - destruct w; reflexivity.
  - cbn [forEach]. unfold mbind at 1, M_bind at 1, bind at 1.
    change ((m ← gets isMuted; set_enabled (negb m) i) w)
      with (mkOut (Normal tt)
              (set_tracks (alter (set_enabled_to (negb (isMuted w))) i (tracks w)) w) []).
    cbn iota. rewrite IH. reflexivity.
Qed.

Lemma toggleMute_no_session w :
  roomSession w = None -> toggleMute w = mkOut (Normal tt) w [].
Proof. intros H. unfold toggleMute. msimpl. rewrite H. reflexivity. Qed.

Lemma toggleMute_world w sid :
  roomSession w = Some sid -> world (toggleMute w) = toggled w sid.
Proof.
  intros H. unfold toggleMute, toggled, local_audio_tracks, mute_stream, getAudioTracks.
  msimpl. rewrite H. msimpl.
  change (session_at sid (set_isMuted (negb (isMuted w)) w)) with (session_at sid w).
  destruct (localStream (session_at sid w)) as [stream|].
  - msimpl. rewrite forEach_set_enabled. msimpl. rewrite negb_involutive.
    destruct (isMuted w); reflexivity.
  - destruct (peer (session_at sid w)) as [[stream|]|].
    + msimpl. rewrite forEach_set_enabled. msimpl. rewrite negb_involutive.
      destruct (isMuted w); reflexivity.
    + msimpl. destruct (isMuted w); destruct w; reflexivity.
    + msimpl. destruct (isMuted w); destruct w; reflexivity.
Qed.

Lemma enable_tracks_lookup v ids : forall ts i,
  enable_tracks v ids ts !! i
  = (fun t => if bool_decide (i ∈ ids) then set_enabled_to v t else t) <$> ts !! i.
Proof.
  induction ids as [|j ids IH]; intros ts i.
  - cbn. destruct (ts !! i); reflexivity.
  - change (enable_tracks v (j :: ids) ts)
      with (enable_tracks v ids (alter (set_enabled_to v) j ts)).
    rewrite IH. destruct (decide (j = i)) as [->|Hne].
    + rewrite list_lookup_alter_eq. destruct (ts !! i) as [t|]; cbn; [|reflexivity].
      rewrite (bool_decide_eq_true_2 (i ∈ i :: ids)) by (apply elem_of_cons; left; reflexivity).
      destruct (bool_decide (i ∈ ids)); reflexivity.
    + rewrite list_lookup_alter_ne by assumption.
      destruct (ts !! i) as [t|]; cbn; [|reflexivity].
      rewrite (bool_decide_ext (i ∈ j :: ids) (i ∈ ids)); [reflexivity|].
      rewrite elem_of_cons. intuition congruence.
Qed.

Lemma is_audio_enable_tracks v ids ts i :
  is_audio (enable_tracks v ids ts) i = is_audio ts i.
Proof.
  unfold is_audio. rewrite enable_tracks_lookup.
  destruct (ts !! i) as [[k e d]|]; cbn; [|reflexivity].
  destruct (bool_decide (i ∈ ids)); reflexivity.
Qed.

Lemma local_audio_tracks_toggled w sid :
  local_audio_tracks (toggled w sid) sid = local_audio_tracks w sid.
Proof.
  unfold local_audio_tracks.
  change (session_at sid (toggled w sid)) with (session_at sid w).
  destruct (mute_stream (session_at sid w)) as [stream|]; [|reflexivity].
  cbn [toggled tracks set_document set_tracks].
  induction stream as [|i stream IH]; [reflexivity|].
  cbn [List.filter]. rewrite is_audio_enable_tracks, IH. reflexivity.
Qed.

(** C5, as the code has it.  With a session present and neither
    [roomSession.localStream] nor [roomSession.peer.localStream] available,
    [toggleMute] warns and touches no track, but it has already inverted
    [isMuted], and it goes on to relabel the mute button from the new flag:
    the resulting world is the old one with the flag inverted and the button
    relabelled. *)
Theorem toggleMute_without_stream (w : World) (sid : nat) :
  roomSession w = Some sid ->
  localStream (session_at sid w) = None ->
  peer (session_at sid w) = None \/ peer (session_at sid w) = Some None ->
  toggleMute w
  = mkOut (Normal tt)
      (set_document
         (set_content (<["muteBtn" := mute_label (negb (isMuted w))]> (content (document w)))
            (document w))
         (set_isMuted (negb (isMuted w)) w))
      [Console LWarn "Unable to find local stream to mute/unmute";
       Console LLog (if negb (isMuted w) then "Santa says: Microphone muted"
                     else "Santa says: Microphone unmuted")].
Proof.
  intros Hrs Hls Hp. unfold toggleMute. msimpl. rewrite Hrs. msimpl.
  change (session_at sid (set_isMuted (negb (isMuted w)) w)) with (session_at sid w).
  rewrite Hls. destruct Hp as [-> | ->]; msimpl; destruct (isMuted w); reflexivity.
Qed.

Lemma toggleMute_without_stream_witness :
  isMuted (world (toggleMute example_streamless_call)) = true.
Proof.
  rewrite (toggleMute_without_stream example_streamless_call 0);
    [reflexivity | reflexivity | reflexivity | left; reflexivity].
Defined.

(** C5 as stated fails: in a call whose session exposes no local stream,
    one click on the mute button turns [isMuted] from false to true and
    relabels the button to Unmute. *)
Lemma toggleMute_without_stream_flips_flag :
  isMuted example_streamless_call = false
  /\ roomSession example_streamless_call = Some 0
  /\ localStream (session_at 0 example_streamless_call) = None
  /\ peer (session_at 0 example_streamless_call) = None
  /\ isMuted (world (toggleMute example_streamless_call)) = true
  /\ content (document (world (toggleMute example_streamless_call))) !! "muteBtn"
     = Some HtmlUnmute
  /\ world (toggleMute example_streamless_call) <> example_streamless_call.
Proof.
  repeat split; try (vm_compute; reflexivity).
  intros H. apply (f_equal isMuted) in H. vm_compute in H. discriminate.
Qed.

(** C6, as the code has it.  Without a session handle [toggleMute] does
    nothing at all.  With one, two calls put [isMuted] back to its value and
    leave every local audio track with [enabled] equal to the negation of
    that value, all other tracks untouched; the tracks are back to their
    original flags exactly when those agreed with the mute flag beforehand. *)
Theorem toggleMute_twice (w : World) (sid : nat) :
  (forall v, roomSession v = None -> toggleMute v = mkOut (Normal tt) v [])
  /\ (roomSession w = Some sid ->
      let w2 := world (toggleMute (world (toggleMute w))) in
      isMuted w2 = isMuted w
      /\ (forall i t, tracks w !! i = Some t ->
            tracks w2 !! i
            = Some (if bool_decide (i ∈ local_audio_tracks w sid)
                    then mkTrack (kind t) (negb (isMuted w)) (ended t) else t))
      /\ ((forall i t, i ∈ local_audio_tracks w sid -> tracks w !! i = Some t ->
             enabled t = negb (isMuted w)) ->
          tracks w2 = tracks w)).
Proof.
  split; [exact toggleMute_no_session|].
  intros Hrs w2. subst w2.
  rewrite (toggleMute_world w sid Hrs).
  rewrite (toggleMute_world (toggled w sid) sid Hrs).
  assert (Hl : forall i, tracks (toggled (toggled w sid) sid) !! i
    = (fun t => if bool_decide (i ∈ local_audio_tracks w sid)
                then mkTrack (kind t) (negb (isMuted w)) (ended t) else t) <$> tracks w !! i).
  { intros i. cbn [toggled tracks set_document set_tracks isMuted set_isMuted].
    rewrite enable_tracks_lookup.
    change (local_audio_tracks (set_document _ _) sid)
      with (local_audio_tracks (toggled w sid) sid).
    rewrite local_audio_tracks_toggled, enable_tracks_lookup.
    destruct (tracks w !! i) as [t|]; cbn; [|reflexivity].
    destruct (bool_decide (i ∈ local_audio_tracks w sid)); reflexivity. }
  split; [|split].
  - cbn. apply negb_involutive.
  - intros i t Ht. rewrite Hl, Ht. reflexivity.
  - intros Hsync. apply list_eq. intros i. rewrite Hl.
    destruct (tracks w !! i) as [t|] eqn:Ht; cbn; [|reflexivity].
    destruct (bool_decide (i ∈ local_audio_tracks w sid)) eqn:Hi; [|reflexivity].
    apply bool_decide_eq_true_1 in Hi. rewrite <- (Hsync i t Hi Ht).
    destruct t; reflexivity.
Qed.

Lemma toggleMute_twice_witness :
  tracks (world (toggleMute (world (toggleMute example_active)))) = tracks example_active.
Proof.
  refine (proj2 (proj2 (proj2 (toggleMute_twice example_active 0) _)) _).
  - reflexivity.
  - intros i t Hi Ht. vm_compute in Hi.
    apply list_elem_of_singleton in Hi. subst i. vm_compute in Ht.
    injection Ht as <-. reflexivity.
Defined.

(** C6 as stated fails: a call is muted and hung up, and a second call
    starts on fresh, enabled tracks.  [isMuted] is still true, so two clicks
    on the mute button leave the new audio track disabled although it
    started enabled. *)
Lemma toggleMute_twice_changes_track :
  roomSession example_second_call = Some 1
  /\ localStream (session_at 1 example_second_call) = Some [2; 3]
  /\ isMuted example_second_call = true
  /\ tracks example_second_call !! 2 = Some (mkTrack AudioTrack true false)
  /\ tracks (world (toggleMute (world (toggleMute example_second_call)))) !! 2
     = Some (mkTrack AudioTrack false false)
  /\ tracks (world (run [DomEvent "muteBtn" "click"; DomEvent "muteBtn" "click"]
                      example_second_call)) !! 2
     = Some (mkTrack AudioTrack false false).
Proof. vm_compute. repeat split; reflexivity. Qed.

Lemma get_prop_prop v k : nullish v = false -> get_prop v k = Normal (prop v k).
Proof. unfold prop. destruct v; cbn; intros H; try discriminate; reflexivity. Qed.

Lemma get_prop_nullish v k :
  nullish v = true -> exists msg, get_prop v k = Throw (TypeError msg).
Proof. destruct v; cbn; intros H; try discriminate; eexists; reflexivity. Qed.

Lemma prop_of_get v k r : get_prop v k = Normal r -> prop v k = r.
Proof. unfold prop. intros ->. reflexivity. Qed.

Lemma truthy_not_nullish v : truthy v = true -> nullish v = false.
Proof. destruct v; cbn; congruence. Qed.

Lemma to_string_ok v : has_string v = true -> to_string v = Normal tt.
Proof. unfold to_string. intros ->. reflexivity. Qed.

Lemma to_string_throws v :
  has_string v = false ->
  to_string v = Throw (TypeError "Cannot convert object to primitive value").
Proof. unfold to_string. intros ->. reflexivity. Qed.

Lemma has_string_falsy v : truthy v = false -> has_string v = true.
Proof. destruct v; cbn; congruence. Qed.

Lemma has_string_js_or a s : has_string a = true -> has_string (js_or a (JStr s)) = true.
Proof. intros H. unfold js_or. destruct (truthy a); [exact H|reflexivity]. Qed.

Lemma stringify_prefix_ok v : nullish v = false -> stringify_prefix v = Normal tt.
Proof. destruct v; cbn; intros H; try discriminate; reflexivity. Qed.

Ltac msimpl_keep f := repeat (progress (munfold; cbn -[f])).

Lemma bind_lift_normal {A B} (a : A) (k : A -> M B) w :
  (lift (Normal a) ≫= k) w = k a w.
Proof. unfold mbind, M_bind, bind, lift. destruct (k a w). reflexivity. Qed.

Lemma bind_lift_throw {A B} e (k : A -> M B) w :
  (lift (Throw e) ≫= k) w = mkOut (Throw e) w [].
Proof. reflexivity. Qed.

Lemma bind_mret {A B} (a : A) (k : A -> M B) w : (mret a ≫= k) w = k a w.
Proof. exact (bind_lift_normal a k w). Qed.

Lemma bind_on_document {B} f (k : unit -> M B) w :
  (on_document f ≫= k) w = k tt (set_document (f (document w)) w).
Proof.
  unfold on_document, modify, mbind, M_bind, bind.
  destruct (k tt _). reflexivity.
Qed.

Lemma bind_ext {A B} (m : M A) (k k' : A -> M B) w :
  (forall a w', k a w' = k' a w') -> (m ≫= k) w = (m ≫= k') w.
Proof.
  intros H. unfold mbind, M_bind, bind. destruct (m w) as [[a|e] w1 e1]; [|reflexivity].
  rewrite H. reflexivity.
Qed.

Lemma bind_console {B} msg (k : unit -> M B) w :
  (console_log msg ≫= k) w
  = match k tt w with
    | mkOut v w2 e2 => mkOut v w2 (Console LLog msg :: e2)
    end.
Proof. reflexivity. Qed.

Lemma bind_emit {B} e (k : unit -> M B) w :
  (emit e ≫= k) w = match k tt w with mkOut v w2 e2 => mkOut v w2 (e :: e2) end.
Proof. reflexivity. Qed.

Lemma bind_normal {A B} (m : M A) (k : A -> M B) w a :
  m w = mkOut (Normal a) w [] -> (m ≫= k) w = k a w.
Proof.
  intros H. unfold mbind, M_bind, bind. rewrite H. destruct (k a w). reflexivity.
Qed.

Lemma bind_throw {A B} (m : M A) (k : A -> M B) w e w1 e1 :
  m w = mkOut (Throw e) w1 e1 -> (m ≫= k) w = mkOut (Throw e) w1 e1.
Proof. intros H. unfold mbind, M_bind, bind. rewrite H. reflexivity. Qed.

Lemma eventData_of_falsy params : truthy params = false -> eventData_of params = params.
Proof. intros H. unfold eventData_of. rewrite H. reflexivity. Qed.

Lemma eventData_of_truthy params :
  truthy params = true ->
  eventData_of params
  = if truthy (prop params "event") then prop params "event" else params.
Proof.
  intros H. unfold eventData_of. rewrite H.
  rewrite (get_prop_prop params "event" (truthy_not_nullish _ H)). reflexivity.
Qed.

Lemma typed_is_truthy ev : truthy (prop ev "type") = true -> truthy ev = true.
Proof.
  destruct ev as [| |b|m e|s|items|fs]; try reflexivity; unfold prop; cbn;
    discriminate.
Qed.

Lemma handleUserEvent_found params w :
  handleUserEvent params w
  = (console_log "User event received:";; handle_found (eventData_of params)) w.
Proof.
  unfold handleUserEvent. apply bind_ext. intros _ w'. cbv zeta.
  destruct (truthy params) eqn:Ep.
  - rewrite (eventData_of_truthy _ Ep).
    rewrite (get_prop_prop params "event" (truthy_not_nullish _ Ep)).
    rewrite bind_lift_normal. cbn [andb]. reflexivity.
  - rewrite (eventData_of_falsy _ Ep). rewrite bind_mret. cbn [andb]. reflexivity.
Qed.

(** A message without a usable event: the handler logs and returns. *)
Lemma handleUserEvent_dropped params w :
  truthy (prop (eventData_of params) "type") = false ->
  handleUserEvent params w
  = mkOut (Normal tt) w
      [Console LLog "User event received:"; Console LLog "No valid event data found"].
Proof.
  intros H. rewrite handleUserEvent_found, bind_console. unfold handle_found.
  destruct (truthy (eventData_of params)) eqn:E.
  - rewrite (get_prop_prop _ "type" (truthy_not_nullish _ E)), bind_lift_normal, H.
    reflexivity.
  - rewrite bind_mret. reflexivity.
Qed.

(** A message with an event of truthy type that has a string: logged, then
    dispatched. *)
Lemma handleUserEvent_dispatch params w :
  truthy (prop (eventData_of params) "type") = true ->
  has_string (prop (eventData_of params) "type") = true ->
  handleUserEvent params w
  = (console_log "User event received:";;
     console_log "=== FRONTEND EVENT RECEIVED ===";;
     console_log "Event Type:";;
     console_log "Event Data:";;
     console_log "=== END EVENT DATA ===";;
     logEvent (prop (eventData_of params) "type") (eventData_of params);;
     dispatch (prop (eventData_of params) "type") (eventData_of params)) w.
Proof.
  intros H Hs. rewrite handleUserEvent_found. apply bind_ext. intros _ w'.
  unfold handle_found. rewrite (typed_is_truthy _ H).
  rewrite (get_prop_prop _ "type" (truthy_not_nullish _ (typed_is_truthy _ H))).
  rewrite bind_lift_normal, H. cbn [negb orb].
  apply bind_ext. intros _ w''. rewrite (to_string_ok _ Hs), bind_lift_normal. reflexivity.
Qed.

(** A message with an event of truthy type that has no string: the
    conversion in the console line throws, before anything is done. *)
Lemma handleUserEvent_unprintable params w :
  truthy (prop (eventData_of params) "type") = true ->
  has_string (prop (eventData_of params) "type") = false ->
  handleUserEvent params w
  = mkOut (Throw (TypeError "Cannot convert object to primitive value")) w
      [Console LLog "User event received:"; Console LLog "=== FRONTEND EVENT RECEIVED ==="].
Proof.
  intros H Hs. rewrite handleUserEvent_found, bind_console. unfold handle_found.
  rewrite (typed_is_truthy _ H).
  rewrite (get_prop_prop _ "type" (truthy_not_nullish _ (typed_is_truthy _ H))).
  rewrite bind_lift_normal, H. cbn [negb orb].
  rewrite bind_console, (to_string_throws _ Hs). reflexivity.
Qed.

Lemma logEvent_out type data w :
  has_string type = true -> nullish data = false ->
  exists lc,
    logEvent type data w
    = mkOut (Normal tt) (set_document (set_logContent lc (document w)) w) [].
Proof.
  intros Hs Hd. unfold logEvent.
  rewrite (to_string_ok _ Hs), (stringify_prefix_ok _ Hd). msimpl.
  destruct (logContent (document w)) as [entries|] eqn:E.
  - case_bool_decide; msimpl.
    + exists (Some entries). rewrite <- E. destruct w as [? ? ? ? ? ? ? ? ? ? []]; reflexivity.
    + eexists; reflexivity.
  - exists None. rewrite <- E. destruct w as [? ? ? ? ? ? ? ? ? ? []]; reflexivity.
Qed.

(** An event of truthy type [t] that has a string: the handler records it in
    the debug log (when that is shown) and runs the [switch]. *)
Lemma handleUserEvent_typed params t w :
  get_prop (eventData_of params) "type" = Normal t ->
  truthy t = true ->
  has_string t = true ->
  exists lc,
    handleUserEvent params w
    = match dispatch t (eventData_of params)
              (set_document (set_logContent lc (document w)) w) with
      | mkOut v w2 e2 =>
          mkOut v w2
            (Console LLog "User event received:"
             :: Console LLog "=== FRONTEND EVENT RECEIVED ==="
             :: Console LLog "Event Type:"
             :: Console LLog "Event Data:"
             :: Console LLog "=== END EVENT DATA ===" :: e2)
      end.
Proof.
  intros Hg Ht Hs. pose proof (prop_of_get _ _ _ Hg) as Hp.
  rewrite handleUserEvent_dispatch by (rewrite Hp; assumption). rewrite Hp.
  assert (Hn : nullish (eventData_of params) = false).
  { apply truthy_not_nullish, typed_is_truthy. rewrite Hp. exact Ht. }
  destruct (logEvent_out t (eventData_of params) w Hs Hn) as [lc Hlc]. exists lc.
  unfold mbind, M_bind, bind, console_log, emit. rewrite Hlc.
  destruct (dispatch _ _ _) as [v w2 e2]. reflexivity.
Qed.

Lemma displayGifts_nothing gifts w :
  gifts = JUndefined \/ gifts = JNull \/ gifts = JArr [] ->
  displayGifts gifts w
  = mkOut (Normal tt) w
      [Console LLog "DEBUG Frontend: displayGifts called";
       Console LLog "DEBUG Frontend: No gifts to display"].
Proof. intros [-> | [-> | ->]]; reflexivity. Qed.

(** C7. A gifts_found event, bare or wrapped in an [event] envelope, whose
    [gifts] is undefined, null or the empty array: [displayGifts] returns
    before touching anything, so the handler completes without throwing,
    schedules no card animation and leaves the children of the gallery as
    they were. *)
Theorem gifts_found_empty_keeps_gallery (params gifts : JSValue) (w : World) :
  get_prop (eventData_of params) "type" = Normal (JStr "gifts_found") ->
  get_prop (eventData_of params) "gifts" = Normal gifts ->
  gifts = JUndefined \/ gifts = JNull \/ gifts = JArr [] ->
  let o := handleUserEvent params w in
  value o = Normal tt
  /\ giftGallery (document (world o)) = giftGallery (document w)
  /\ List.filter is_card_timer (effects o) = []
  /\ world (displayGifts gifts w) = w.
Proof.
  intros Ht Hg Hgifts o. subst o.
  split; [|split; [|split]]; [| | |rewrite (displayGifts_nothing gifts w Hgifts); reflexivity].
  all: destruct (handleUserEvent_typed params _ w Ht eq_refl eq_refl) as [lc ->].
  all: unfold dispatch; cbn [is_str String.eqb Ascii.eqb Bool.eqb].
  all: msimpl_keep displayGifts; rewrite Hg; msimpl_keep displayGifts.
  all: match goal with Hgf : _ \/ _ |- context [displayGifts ?g ?v] =>
         rewrite (displayGifts_nothing g v Hgf) end; msimpl.
  all: reflexivity.
Qed.

Lemma gifts_found_empty_keeps_gallery_witness :
  giftGallery (document (world (handleUserEvent empty_gifts_found example_gallery_world)))
  = giftGallery (document example_gallery_world).
Proof.
  refine (proj1 (proj2
    (gifts_found_empty_keeps_gallery empty_gifts_found (JArr []) example_gallery_world
       _ _ _)));
    [reflexivity | reflexivity | right; right; reflexivity].
Defined.

Example gallery_after_robot :
  giftGallery (document example_gallery_world)
  = [GCard (mkCard 1 (JStr gift_box_image) (JStr "Robot")
              (JStr "Robot") (JStr "Ask Santa!") (JStr "A wonderful Christmas gift!"))].
Proof. vm_compute. reflexivity. Qed.

(** C8, as the code has it.  Starting from the default settings: when
    nothing is stored under the key, or the empty string is, loading
    completes, the settings are the defaults and the three checkboxes show
    them.  When a non-empty text is stored that [JSON.parse] rejects, the
    SyntaxError is not caught: [initializeSettings] throws it, having changed
    nothing, so the settings are still the defaults but the checkboxes are
    not set and the settings listeners are not registered. *)
Theorem initializeSettings_outcomes (w : World) (text : string) :
  audioSettings w = default_audioSettings ->
  (localStorage w !! storage_key = None \/ localStorage w !! storage_key = Some EmptyString ->
   let o := initializeSettings w in
   value o = Normal tt
   /\ audioSettings (world o) = default_audioSettings
   /\ checked (document (world o)) !! "echoCancellation" = Some true
   /\ checked (document (world o)) !! "noiseSuppression" = Some false
   /\ checked (document (world o)) !! "autoGainControl" = Some false)
  /\ (localStorage w !! storage_key = Some text -> text <> EmptyString ->
      Json.parse text = None ->
      initializeSettings w = mkOut (Throw SyntaxError) w []).
Proof.
  intros Hdef. unfold storage_key. split.
  - intros Hs. unfold initializeSettings, set_checkbox, addEventListener. msimpl.
    destruct Hs as [-> | ->]; msimpl; rewrite Hdef; msimpl;
      (repeat split; try reflexivity; try assumption);
      rewrite ?lookup_insert_ne by discriminate; apply lookup_insert_eq.
  - intros Hs Hne Hp. unfold initializeSettings. msimpl. rewrite Hs.
    destruct (String.eqb text EmptyString) eqn:E.
    + apply String.eqb_eq in E. contradiction.
    + msimpl. rewrite Hp. reflexivity.
Qed.

Lemma initializeSettings_outcomes_witness :
  initializeSettings (initial_world broken_storage example_page)
  = mkOut (Throw SyntaxError) (initial_world broken_storage example_page) [].
Proof.
  refine (proj2 (initializeSettings_outcomes
                   (initial_world broken_storage example_page) "{" _) _ _ _);
    [reflexivity | reflexivity | discriminate | reflexivity].
Defined.

(** C8 as stated fails: with the text "{" stored under the key,
    [JSON.parse] rejects it and [initializeSettings] throws; at page load the
    exception escapes the DOMContentLoaded listener, after which the
    settings are still the defaults but no checkbox has been set and the
    settings-panel listeners are missing. *)
Lemma unparsable_settings_throw :
  Json.parse "{" = None
  /\ value (initializeSettings (initial_world broken_storage example_page))
     = Throw SyntaxError
  /\ effects ((script;; step (DomEvent "document" "DOMContentLoaded"))
               (initial_world broken_storage example_page))
     = [Uncaught SyntaxError]
  /\ audioSettings (loaded_world broken_storage example_page) = default_audioSettings
  /\ checked (document (loaded_world broken_storage example_page)) = ∅
  /\ dom_listeners_for "settingsToggle" "click"
       (dom_listeners (loaded_world broken_storage example_page)) = [].
Proof. vm_compute. repeat split; reflexivity. Qed.

Lemma set_document_same w : set_document (document w) w = w.
Proof. destruct w; reflexivity. Qed.

Lemma ui_only_pure {A} (m : M A) : (forall w, world (m w) = w) -> ui_only m.
Proof.
  intros H w. exists (document w). rewrite H, set_document_same. split; reflexivity.
Qed.

Lemma ui_only_ret {A} (a : A) : ui_only (mret a).
Proof. apply ui_only_pure. reflexivity. Qed.

Lemma ui_only_throw {A} e : ui_only (@throw A e).
Proof. apply ui_only_pure. reflexivity. Qed.

Lemma ui_only_lift {A} (c : Completion A) : ui_only (lift c).
Proof. apply ui_only_pure. reflexivity. Qed.

Lemma ui_only_emit e : ui_only (emit e).
Proof. apply ui_only_pure. reflexivity. Qed.

Lemma ui_only_gets {A} (f : World -> A) : ui_only (gets f).
Proof. apply ui_only_pure. reflexivity. Qed.

Lemma ui_only_on_document f :
  (forall d, audio_ids (f d) = audio_ids d) -> ui_only (on_document f).
Proof. intros H w. exists (f (document w)). split; [reflexivity|apply H]. Qed.

Lemma ui_only_bind {A B} (m : M A) (k : A -> M B) :
  ui_only m -> (forall a, ui_only (k a)) -> ui_only (m ≫= k).
Proof.
  intros Hm Hk w. unfold mbind, M_bind, bind.
  destruct (Hm w) as (d & Hw & Ha).
  destruct (m w) as [[a|e] w1 e1]; cbn in Hw; subst w1.
  - destruct (Hk a (set_document d w)) as (d' & Hw' & Ha').
    destruct (k a (set_document d w)) as [v w2 e2]; cbn in *; subst w2.
    exists d'. split; [reflexivity|]. congruence.
  - exists d. split; [reflexivity|assumption].
Qed.


Lemma ui_only_forEach {A} (xs : list A) (f : A -> M unit) :
  (forall x, ui_only (f x)) -> ui_only (forEach xs f).
Proof.
  intros Hf. induction xs as [|x xs IH]; cbn [forEach].
  - apply ui_only_ret.
  - apply ui_only_bind; [apply Hf|intros _; exact IH].
Qed.

Ltac ui_only_step :=
  first
    [ apply ui_only_bind; [|intros ?]
    | apply ui_only_ret
    | apply ui_only_emit
    | apply ui_only_lift
    | apply ui_only_throw
    | apply ui_only_gets
    | apply ui_only_on_document; intros ?; reflexivity
    | apply ui_only_forEach; intros ?
    | match goal with
      | |- ui_only (if ?b then _ else _) => destruct b
      | |- ui_only (match ?x with _ => _ end) => destruct x
      end ].

Lemma ui_only_appendCards gifts : forall index, ui_only (appendCards gifts index).
Proof.
  induction gifts as [|g gifts IH]; intros index; cbn [appendCards].
  - apply ui_only_ret.
  - unfold createGiftCard, console_log. repeat ui_only_step. apply IH.
Qed.

Lemma ui_only_handleUserEvent params : ui_only (handleUserEvent params).
Proof.
  unfold handleUserEvent, logEvent, displayGifts, displaySelectedGift,
    displayNiceListResult, showConfetti, playSound, showSearchStatus, updateStatus,
    style_display, set_markup, set_prop, console_log.
  repeat first [apply ui_only_appendCards | ui_only_step].
Qed.

Lemma playSound_out soundId w :
  playSound soundId w
  = mkOut (Normal tt) w
      (if bool_decide (soundId ∈ audio_ids (document w)) then [AudioPlay soundId] else []).
Proof. unfold playSound. msimpl. case_bool_decide; reflexivity. Qed.

Lemma displaySelectedGift_out gift w :
  nullish gift = false -> showable gift = true ->
  displaySelectedGift gift w
  = mkOut (Normal tt)
      (set_document
         (set_display
            (<["giftShowcase" := "block"]> (<["giftGallery" := "none"]> (display (document w))))
            (set_props
               (<["showcasePrice" := prop gift "price"]>
                  (<["showcaseName" := prop gift "title"]>
                     (<["showcaseImage" := js_or (prop gift "image") (JStr "placeholder.jpg")]>
                        (props (document w)))))
               (document w)))
         w) [].
Proof.
  intros Hn Hs. unfold showable in Hs.
  apply andb_prop in Hs as [Hs Hp]. apply andb_prop in Hs as [Hi Ht].
  unfold displaySelectedGift.
  rewrite !(get_prop_prop gift _ Hn). msimpl.
  rewrite (to_string_ok _ (has_string_js_or _ _ Hi)), (to_string_ok _ Ht), (to_string_ok _ Hp).
  msimpl. destruct w as [? ? ? ? ? ? ? ? ? ? []]. reflexivity.
Qed.










(** * Properties of rendering, dispatch and whole runs *)

Lemma has_string_of_js_or a s : has_string (js_or a (JStr s)) = has_string a.
Proof.
  unfold js_or. destruct (truthy a) eqn:E; [reflexivity|].
  rewrite (has_string_falsy a E). reflexivity.
Qed.

Lemma to_string_js_or a s : to_string (js_or a (JStr s)) = to_string a.
Proof. unfold to_string. rewrite has_string_of_js_or. reflexivity. Qed.

Lemma renderable_fields gift :
  renderable gift = true ->
  nullish gift = false
  /\ has_string (prop gift "image") = true /\ has_string (prop gift "title") = true
  /\ has_string (prop gift "price") = true /\ has_string (prop gift "description") = true.
Proof.
  unfold renderable. intros H.
  apply andb_prop in H as [H Hd]. apply andb_prop in H as [H Hp].
  apply andb_prop in H as [H Ht]. apply andb_prop in H as [Hn Hi].
  apply negb_true_iff in Hn. repeat split; assumption.
Qed.

Lemma createGiftCard_out gift n w :
  renderable gift = true ->
  createGiftCard gift n w = mkOut (Normal (giftCard gift n)) w [].
Proof.
  intros H. destruct (renderable_fields gift H) as (Hn & Hi & Ht & Hp & Hd).
  unfold createGiftCard, giftCard.
  rewrite !(get_prop_prop gift _ Hn). msimpl. rewrite !to_string_js_or.
  rewrite (to_string_ok _ Hi), (to_string_ok _ Ht), (to_string_ok _ Hp), (to_string_ok _ Hd).
  reflexivity.
Qed.

Lemma createGiftCard_throws gift n w :
  renderable gift = false ->
  exists msg, createGiftCard gift n w = mkOut (Throw (TypeError msg)) w [].
Proof.
  intros H. unfold createGiftCard. destruct (nullish gift) eqn:Hn.
  - destruct (get_prop_nullish gift "image" Hn) as [msg ->]. exists msg. reflexivity.
  - unfold renderable in H. rewrite Hn in H. cbn [negb andb] in H.
    rewrite !(get_prop_prop gift _ Hn). msimpl. rewrite !to_string_js_or.
    unfold to_string.
    destruct (has_string (prop gift "image")); [|eexists; reflexivity].
    destruct (has_string (prop gift "title")); [|eexists; reflexivity].
    destruct (has_string (prop gift "price")); [|eexists; reflexivity].
    destruct (has_string (prop gift "description")); [discriminate|eexists; reflexivity].
Qed.

Lemma js_or_truthy a b : truthy b = true -> truthy (js_or a b) = true.
Proof. intros H. unfold js_or. destruct (truthy a) eqn:E; assumption. Qed.

Lemma js_or_fallback a b : truthy a = false -> js_or a b = b.
Proof. intros H. unfold js_or. rewrite H. reflexivity. Qed.

Lemma js_or_given a b : truthy a = true -> js_or a b = a.
Proof. intros H. unfold js_or. rewrite H. reflexivity. Qed.

(** X1.  [createGiftCard] changes nothing.  On a gift that is not undefined
    or null and whose image, title, price and description each have a
    string, it returns a card whose image, title, price and description are
    never falsy: each is the gift's field when that is truthy and the fixed
    fallback otherwise (for the image the gift-box data URL); the image's
    alt text has no fallback, it is the gift's title as it comes.  On any
    other gift it throws a TypeError: reading a field of undefined or null,
    or converting a field that has no string. *)
Theorem createGiftCard_fallbacks (gift : JSValue) (optionNumber : nat) (w : World) :
  (renderable gift = true ->
   exists card,
     createGiftCard gift optionNumber w = mkOut (Normal card) w []
     /\ card_option card = optionNumber
     /\ card_alt card = prop gift "title"
     /\ truthy (card_image card) = true /\ truthy (card_title card) = true
     /\ truthy (card_price card) = true /\ truthy (card_description card) = true
     /\ card_image card
        = (if truthy (prop gift "image") then prop gift "image" else JStr gift_box_image)
     /\ card_title card
        = (if truthy (prop gift "title") then prop gift "title" else JStr "Mystery Gift")
     /\ card_price card
        = (if truthy (prop gift "price") then prop gift "price" else JStr "Ask Santa!")
     /\ card_description card
        = (if truthy (prop gift "description") then prop gift "description"
           else JStr "A wonderful Christmas gift!"))
  /\ (renderable gift = false ->
      exists msg,
        createGiftCard gift optionNumber w = mkOut (Throw (TypeError msg)) w []).
Proof.
  split; [|apply createGiftCard_throws].
  intros H. exists (giftCard gift optionNumber).
  split; [apply createGiftCard_out; exact H|].
  unfold giftCard; cbn.
  repeat split; try reflexivity; apply js_or_truthy; reflexivity.
Qed.

Lemma createGiftCard_fallbacks_witness :
  exists card,
    createGiftCard (JObj []) 3 example_active = mkOut (Normal card) example_active []
    /\ card_image card = JStr gift_box_image
    /\ card_title card = JStr "Mystery Gift".
Proof.
  destruct (proj1 (createGiftCard_fallbacks (JObj []) 3 example_active) eq_refl)
    as (card & H1 & _ & _ & _ & _ & _ & _ & H2 & H3 & _).
  exists card. split; [exact H1|split; [exact H2|exact H3]].
Defined.

Lemma giftCards_cons first g gifts :
  giftCards first (g :: gifts)
  = GCard (giftCard g (first + 1)) :: giftCards (S first) gifts.
Proof.
  unfold giftCards. cbn [imap]. rewrite Nat.add_0_r. f_equal.
  apply imap_ext. intros i x _. cbn. do 2 f_equal. lia.
Qed.

Lemma cardTimers_cons first g gifts :
  cardTimers first (g :: gifts)
  = SetTimeout (CardSlideIn first) (first * 100) :: cardTimers (S first) gifts.
Proof.
  unfold cardTimers. cbn [imap]. rewrite Nat.add_0_r. f_equal.
  apply imap_ext. intros i x _. cbn. f_equal; try f_equal; lia.
Qed.

(** One round of the loop on a gift it makes a card of. *)
Lemma appendCards_cons g gifts first w :
  renderable g = true ->
  appendCards (g :: gifts) first w
  = match appendCards gifts (S first)
            (set_document
               (set_giftGallery (giftGallery (document w) ++ [GCard (giftCard g (first + 1))])
                  (document w)) w) with
    | mkOut v w2 e2 =>
        mkOut v w2
          (Console LLog "DEBUG Frontend: Creating card for gift"
           :: SetTimeout (CardSlideIn first) (first * 100) :: e2)
    end.
Proof.
  intros H. destruct (renderable_fields g H) as (Hn & _ & Ht & _ & _).
  cbn [appendCards].
  rewrite (get_prop_prop g "title" Hn), bind_lift_normal.
  rewrite (to_string_ok _ Ht), bind_lift_normal, bind_console.
  rewrite (bind_normal _ _ _ _ (createGiftCard_out g (first + 1) w H)).
  rewrite bind_on_document, bind_emit.
  destruct (appendCards gifts (S first) _) as [v w2 e2]. reflexivity.
Qed.

(** The loop stops at a gift it makes no card of. *)
Lemma appendCards_stops g gifts first w :
  renderable g = false ->
  exists msg es,
    appendCards (g :: gifts) first w = mkOut (Throw (TypeError msg)) w es
    /\ List.filter is_card_timer es = [].
Proof.
  intros H. cbn [appendCards]. destruct (nullish g) eqn:Hn.
  - destruct (get_prop_nullish g "title" Hn) as [msg ->].
    exists msg, []. split; reflexivity.
  - rewrite (get_prop_prop g "title" Hn), bind_lift_normal.
    destruct (has_string (prop g "title")) eqn:Ht.
    + rewrite (to_string_ok _ Ht), bind_lift_normal, bind_console.
      destruct (createGiftCard_throws g (first + 1) w H) as [msg Hc].
      rewrite (bind_throw _ _ _ _ _ _ Hc).
      exists msg. eexists. split; reflexivity.
    + rewrite (to_string_throws _ Ht). eexists. exists []. split; reflexivity.
Qed.

Lemma appendCards_out gifts : forall first w,
  Forall (fun g => renderable g = true) gifts ->
  exists es,
    appendCards gifts first w
    = mkOut (Normal tt)
        (set_document
           (set_giftGallery (giftGallery (document w) ++ giftCards first gifts) (document w))
           w) es
    /\ List.filter is_card_timer es = cardTimers first gifts.
Proof.
  induction gifts as [|g gifts IH]; intros first w Hall.
  - exists []. unfold giftCards. cbn. rewrite app_nil_r.
    destruct w as [? ? ? ? ? ? ? ? ? ? []]. split; reflexivity.
  - inversion Hall as [|? ? Hg Hrest]; subst.
    rewrite (appendCards_cons g gifts first w Hg).
    match goal with |- context [appendCards gifts (S first) ?v] =>
      destruct (IH (S first) v Hrest) as (es & -> & Hes) end.
    rewrite giftCards_cons, cardTimers_cons.
    eexists. split.
    + cbn. rewrite <- app_assoc. cbn [app]. reflexivity.
    + cbn. rewrite Hes. reflexivity.
Qed.

Lemma appendCards_throws pre bad post : forall first w,
  Forall (fun g => renderable g = true) pre ->
  renderable bad = false ->
  exists msg es,
    appendCards (pre ++ bad :: post) first w
    = mkOut (Throw (TypeError msg))
        (set_document
           (set_giftGallery (giftGallery (document w) ++ giftCards first pre) (document w))
           w) es
    /\ List.filter is_card_timer es = cardTimers first pre.
Proof.
  induction pre as [|g pre IH]; intros first w Hall Hbad.
  - destruct (appendCards_stops bad post first w Hbad) as (msg & es & H & Hes).
    exists msg, es. cbn [app]. rewrite H. unfold giftCards. cbn. rewrite app_nil_r.
    destruct w as [? ? ? ? ? ? ? ? ? ? []]. split; [reflexivity|exact Hes].
  - inversion Hall as [|? ? Hg Hrest]; subst.
    cbn [app]. rewrite (appendCards_cons g _ first w Hg).
    match goal with |- context [appendCards (pre ++ bad :: post) (S first) ?v] =>
      destruct (IH (S first) v Hrest Hbad) as (msg & es & -> & Hes) end.
    rewrite giftCards_cons, cardTimers_cons.
    exists msg. eexists. split.
    + cbn. rewrite <- app_assoc. cbn [app]. reflexivity.
    + cbn. rewrite Hes. reflexivity.
Qed.

Lemma giftCards_length first gifts : length (giftCards first gifts) = length gifts.
Proof. unfold giftCards. apply length_imap. Qed.

Lemma giftCards_lookup first gifts i g :
  gifts !! i = Some g ->
  giftCards first gifts !! i = Some (GCard (giftCard g (first + i + 1))).
Proof. intros H. unfold giftCards. rewrite list_lookup_imap, H. reflexivity. Qed.

Lemma cardTimers_lookup first gifts i g :
  gifts !! i = Some g ->
  cardTimers first gifts !! i = Some (SetTimeout (CardSlideIn (first + i)) ((first + i) * 100)).
Proof. intros H. unfold cardTimers. rewrite list_lookup_imap, H. reflexivity. Qed.

Lemma rounds_to_zero_integer m : rounds_to_zero m 0 = (m =? 0)%Z.
Proof. unfold rounds_to_zero. destruct (m =? 0)%Z; reflexivity. Qed.

(** What [displayGifts] does with a non-empty array, up to [forEach]. *)
Lemma displayGifts_array g items w :
  displayGifts (JArr (g :: items)) w
  = (console_log "DEBUG Frontend: displayGifts called";;
     on_document (set_giftGallery []);;
     console_log "DEBUG Frontend: Processing gifts for display";;
     appendCards (g :: items) 0;;
     console_log "DEBUG Frontend: Finished appending gift cards to gallery") w.
Proof.
  unfold displayGifts. cbn [truthy]. unfold get_prop. cbn [String.eqb Ascii.eqb Bool.eqb].
  rewrite !bind_lift_normal. rewrite (to_string_ok (JNum _ 0) eq_refl), bind_lift_normal.
  apply bind_ext. intros _ w'. rewrite bind_lift_normal.
  replace (is_zero _) with false
    by (cbn [is_zero]; rewrite rounds_to_zero_integer; symmetry; apply Z.eqb_neq; cbn; lia).
  cbn [negb orb]. rewrite !bind_on_document, bind_lift_normal.
  rewrite (to_string_ok (JNum _ 0) eq_refl), bind_lift_normal. reflexivity.
Qed.

(** X2. Given a non-empty array of gifts each of which is not undefined or
    null and has a string for its image, title, price and description,
    [displayGifts] completes; the gallery then holds exactly one card per
    gift, in the order of the array, whatever it held before (the welcome
    block included); the card of the gift at index [i] carries option number
    [i + 1], and its slide-in animation is scheduled [100 * i] ms later;
    nothing but the gallery is changed. *)
Theorem displayGifts_renders_each_gift (items : list JSValue) (w : World) :
  items <> [] ->
  Forall (fun g => renderable g = true) items ->
  let o := displayGifts (JArr items) w in
  value o = Normal tt
  /\ world o = set_document (set_giftGallery (giftGallery (document (world o))) (document w)) w
  /\ length (giftGallery (document (world o))) = length items
  /\ (forall i g, items !! i = Some g ->
        exists card,
          giftGallery (document (world o)) !! i = Some (GCard card)
          /\ createGiftCard g (i + 1) w = mkOut (Normal card) w []
          /\ List.filter is_card_timer (effects o) !! i
             = Some (SetTimeout (CardSlideIn i) (i * 100)))
  /\ length (List.filter is_card_timer (effects o)) = length items.
Proof.
  intros Hne Hall o. subst o.
  destruct items as [|g items]; [contradiction|].
  rewrite displayGifts_array. msimpl_keep appendCards.
  match goal with |- context [appendCards ?l ?n ?v] =>
    destruct (appendCards_out l n v Hall) as (es & -> & Hes) end.
  cbn. rewrite List.filter_app. cbn. rewrite app_nil_r, Hes.
  split; [reflexivity|]. split; [reflexivity|].
  split; [apply giftCards_length|]. split.
  - intros i x Hx. exists (giftCard x (i + 1)). split; [|split].
    + apply (giftCards_lookup 0 _ _ _ Hx).
    + apply createGiftCard_out. rewrite Forall_forall in Hall. apply Hall.
      eapply list_elem_of_lookup_2. exact Hx.
    + apply (cardTimers_lookup 0 _ _ _ Hx).
  - unfold cardTimers. rewrite length_imap. reflexivity.
Qed.

Lemma displayGifts_renders_each_gift_witness :
  length (giftGallery (document (world
    (displayGifts (JArr [JObj [("title", JStr "Robot")]; JObj []]) example_active)))) = 2.
Proof.
  refine (proj1 (proj2 (proj2
    (displayGifts_renders_each_gift [JObj [("title", JStr "Robot")]; JObj []] example_active
       _ _)))).
  - discriminate.
  - repeat constructor.
Defined.

(** X3. When the array holds a gift no card can be made of (undefined,
    null, or with an image, title, price or description that has no string),
    [displayGifts] throws a TypeError at the first such gift: by then the
    previous content of the gallery is gone and the cards of the gifts
    before it, and only those, have been appended and scheduled. *)
Theorem displayGifts_stops_at_missing_gift (pre post : list JSValue) (bad : JSValue)
    (w : World) :
  Forall (fun g => renderable g = true) pre ->
  renderable bad = false ->
  let o := displayGifts (JArr (pre ++ bad :: post)) w in
  (exists msg, value o = Throw (TypeError msg))
  /\ giftGallery (document (world o)) = giftCards 0 pre
  /\ List.filter is_card_timer (effects o) = cardTimers 0 pre.
Proof.
  intros Hall Hbad o. subst o.
  destruct (pre ++ bad :: post)%list as [|g items] eqn:E;
    [destruct pre; discriminate|].
  rewrite displayGifts_array, <- E. msimpl_keep appendCards.
  match goal with |- context [appendCards _ ?n ?v] =>
    destruct (appendCards_throws pre bad post n v Hall Hbad) as (msg & es & -> & Hes) end.
  cbn. split; [exists msg; reflexivity|]. split; [reflexivity|exact Hes].
Qed.

Lemma displayGifts_stops_at_missing_gift_witness :
  giftGallery (document (world
    (displayGifts
       (JArr [JObj [("title", JStr "Robot")]; JObj [("title", JObj [("toString", JNull)])];
              JObj []])
       example_active)))
  = giftCards 0 [JObj [("title", JStr "Robot")]].
Proof.
  refine (proj1 (proj2
    (displayGifts_stops_at_missing_gift [JObj [("title", JStr "Robot")]] [JObj []]
       (JObj [("title", JObj [("toString", JNull)])]) example_active _ _))).
  - repeat constructor.
  - reflexivity.
Defined.

Lemma displayGifts_non_array gifts w :
  truthy gifts = true ->
  (forall items, gifts <> JArr items) ->
  is_zero (prop gifts "length") = false ->
  has_string (prop gifts "length") = true ->
  exists es,
    displayGifts gifts w
    = mkOut (Throw (TypeError "gifts.forEach is not a function"))
        (set_document (set_giftGallery [] (document w)) w) es
    /\ List.filter is_card_timer es = [].
Proof.
  intros Ht Harr Hlen Hs. unfold displayGifts. rewrite Ht.
  rewrite (get_prop_prop gifts "length" (truthy_not_nullish _ Ht)).
  rewrite !bind_lift_normal, (to_string_ok _ Hs), bind_lift_normal, bind_console.
  rewrite bind_lift_normal, Hlen. cbn [negb orb].
  rewrite !bind_on_document, bind_lift_normal, (to_string_ok _ Hs), bind_lift_normal.
  rewrite bind_console.
  destruct gifts; try (exfalso; eapply Harr; reflexivity); cbn;
    eexists; split; reflexivity.
Qed.

Lemma displayGifts_unprintable_length gifts w :
  truthy gifts = true ->
  has_string (prop gifts "length") = false ->
  displayGifts gifts w
  = mkOut (Throw (TypeError "Cannot convert object to primitive value")) w [].
Proof.
  intros Ht Hs. unfold displayGifts. rewrite Ht.
  rewrite (get_prop_prop gifts "length" (truthy_not_nullish _ Ht)).
  rewrite bind_lift_normal, (to_string_throws _ Hs). reflexivity.
Qed.

(** X4. A [gifts] value that is truthy but not an array (an object, a
    non-empty string, a number, [true]).  When its [length] has no string,
    the first console line throws a TypeError and nothing is changed.
    Otherwise, unless the [length] is 0, the gallery is emptied and the call
    of [gifts.forEach] throws a TypeError; no card is made. *)
Theorem displayGifts_not_an_array (gifts : JSValue) (w : World) :
  truthy gifts = true ->
  (forall items, gifts <> JArr items) ->
  let o := displayGifts gifts w in
  (has_string (prop gifts "length") = false ->
   o = mkOut (Throw (TypeError "Cannot convert object to primitive value")) w [])
  /\ (has_string (prop gifts "length") = true ->
      is_zero (prop gifts "length") = false ->
      value o = Throw (TypeError "gifts.forEach is not a function")
      /\ world o = set_document (set_giftGallery [] (document w)) w
      /\ List.filter is_card_timer (effects o) = []).
Proof.
  intros Ht Harr o. subst o. split.
  - intros Hs. apply displayGifts_unprintable_length; assumption.
  - intros Hs Hlen.
    destruct (displayGifts_non_array gifts w Ht Harr Hlen Hs) as (es & -> & Hes).
    repeat split. exact Hes.
Qed.

Lemma displayGifts_not_an_array_witness :
  displayGifts (JObj [("length", JObj [("toString", JNum 1 0)])]) example_gallery_world
  = mkOut (Throw (TypeError "Cannot convert object to primitive value"))
      example_gallery_world [].
Proof.
  refine (proj1
    (displayGifts_not_an_array (JObj [("length", JObj [("toString", JNum 1 0)])])
       example_gallery_world _ _) _).
  - reflexivity.
  - discriminate.
  - reflexivity.
Defined.

Lemma is_str_other t s : t <> JStr s -> is_str t s = false.
Proof.
  intros H. destruct t; try reflexivity. cbn.
  destruct (String.eqb s0 s) eqn:E; [|reflexivity].
  apply String.eqb_eq in E. subst. contradiction.
Qed.

Lemma first_unrenderable items :
  existsb (fun g => negb (renderable g)) items = true ->
  exists pre bad post,
    items = (pre ++ bad :: post)%list
    /\ Forall (fun g => renderable g = true) pre /\ renderable bad = false.
Proof.
  induction items as [|g items IH]; cbn; [discriminate|].
  destruct (renderable g) eqn:E; cbn.
  - intros H. destruct (IH H) as (pre & bad & post & -> & Hpre & Hbad).
    exists (g :: pre), bad, post. repeat split; [constructor; assumption|exact Hbad].
  - intros _. exists [], g, items. repeat split; [constructor|exact E].
Qed.

Lemma existsb_nullish_unrenderable items :
  existsb nullish items = true -> existsb (fun g => negb (renderable g)) items = true.
Proof.
  induction items as [|g items IH]; cbn; [discriminate|].
  unfold renderable at 1. destruct (nullish g); cbn; [reflexivity|].
  intros H. rewrite (IH H). apply orb_true_r.
Qed.

Lemma displayGifts_unrenderable gifts w :
  unrenderable gifts = true ->
  exists msg g es,
    displayGifts gifts w
    = mkOut (Throw (TypeError msg)) (set_document (set_giftGallery g (document w)) w) es.
Proof.
  intros H.
  assert (Hother : (forall items, gifts <> JArr items) ->
                   truthy gifts && negb (is_zero (prop gifts "length")) = true ->
                   exists msg g es,
                     displayGifts gifts w
                     = mkOut (Throw (TypeError msg))
                         (set_document (set_giftGallery g (document w)) w) es).
  { intros Harr Hc. apply andb_prop in Hc as [H1 H2]. apply negb_true_iff in H2.
    destruct (has_string (prop gifts "length")) eqn:Hs.
    - destruct (displayGifts_non_array gifts w H1 Harr H2 Hs) as (es & -> & _).
      eexists _, _, _. reflexivity.
    - rewrite (displayGifts_unprintable_length gifts w H1 Hs).
      exists "Cannot convert object to primitive value", (giftGallery (document w)), [].
      destruct w as [? ? ? ? ? ? ? ? ? ? []]. reflexivity. }
  destruct gifts as [| |b|m e|s|items|fs]; cbn [unrenderable] in H;
    try (apply Hother; [discriminate|exact H]).
  destruct (first_unrenderable items (existsb_nullish_unrenderable items H))
    as (pre & bad & post & -> & Hpre & Hbad).
  destruct (pre ++ bad :: post)%list as [|g items] eqn:E; [destruct pre; discriminate|].
  rewrite displayGifts_array, <- E. msimpl_keep appendCards.
  match goal with |- context [appendCards _ ?n ?v] =>
    destruct (appendCards_throws pre bad post n v Hpre Hbad) as (msg & es & -> & _) end.
  cbn. eexists _, _, _. reflexivity.
Qed.

(** X5. A gifts_found event whose [gifts] cannot be rendered (an array with
    a null or undefined element, or a truthy value that is not an array):
    the TypeError leaves [handleUserEvent]; by then the showcase is hidden
    and the gallery shown as a grid, but the lines after [displayGifts] are
    not reached, so the search indicator keeps the state it had. *)
Theorem gifts_found_failure_skips_search_status (params gifts : JSValue) (w : World) :
  get_prop (eventData_of params) "type" = Normal (JStr "gifts_found") ->
  get_prop (eventData_of params) "gifts" = Normal gifts ->
  unrenderable gifts = true ->
  let o := handleUserEvent params w in
  (exists msg, value o = Throw (TypeError msg))
  /\ display (document (world o)) !! "searchStatus" = display (document w) !! "searchStatus"
  /\ display (document (world o)) !! "giftShowcase" = Some "none"
  /\ display (document (world o)) !! "giftGallery" = Some "grid".
Proof.
  intros Ht Hg Hu o. subst o.
  destruct (handleUserEvent_typed params _ w Ht eq_refl eq_refl) as [lc ->].
  unfold dispatch. cbn [is_str String.eqb Ascii.eqb Bool.eqb].
  msimpl_keep displayGifts. rewrite Hg. msimpl_keep displayGifts.
  match goal with |- context [displayGifts gifts ?v] =>
    destruct (displayGifts_unrenderable gifts v Hu) as (msg & g & es & ->) end.
  cbn. split; [exists msg; reflexivity|].
  split; [|split].
  - rewrite !lookup_insert_ne by discriminate. reflexivity.
  - rewrite lookup_insert_ne by discriminate. apply lookup_insert_eq.
  - apply lookup_insert_eq.
Qed.

Lemma gifts_found_failure_skips_search_status_witness :
  display (document (world
    (handleUserEvent (JObj [("type", JStr "gifts_found"); ("gifts", JArr [JNull])])
       example_active))) !! "searchStatus"
  = display (document example_active) !! "searchStatus".
Proof.
  refine (proj1 (proj2
    (gifts_found_failure_skips_search_status
       (JObj [("type", JStr "gifts_found"); ("gifts", JArr [JNull])]) (JArr [JNull])
       example_active _ _ _))); reflexivity.
Defined.

(** X6. A message that carries no usable event is dropped: when the event
    found (the [event] field if truthy, else the message itself) has no
    truthy [type] -- in particular whenever the message is not an object --
    the handler returns normally, leaves every piece of state as it was,
    and only writes two console lines. *)
Theorem malformed_event_is_dropped (params : JSValue) (w : World) :
  (forall fs, params <> JObj fs) \/ truthy (prop (eventData_of params) "type") = false ->
  handleUserEvent params w
  = mkOut (Normal tt) w
      [Console LLog "User event received:"; Console LLog "No valid event data found"].
Proof.
  intros [H|H]; apply handleUserEvent_dropped; [|exact H].
  destruct params as [| |b|m e|s|items|fs]; try reflexivity.
  - destruct b; reflexivity.
  - unfold eventData_of. cbn. destruct (negb (rounds_to_zero m e)); reflexivity.
  - unfold eventData_of. cbn. destruct (negb (String.eqb s EmptyString)); reflexivity.
  - exfalso. apply (H fs). reflexivity.
Qed.

Lemma malformed_event_is_dropped_witness :
  handleUserEvent (JStr "gifts_found") example_active
  = mkOut (Normal tt) example_active
      [Console LLog "User event received:"; Console LLog "No valid event data found"].
Proof.
  apply (malformed_event_is_dropped (JStr "gifts_found") example_active).
  left. discriminate.
Defined.

(** X7. An event whose type is truthy but none of the five the [switch]
    knows.  When the type has a string (another string, a number, [true], an
    array or object that converts), the handler returns normally; apart from
    the entry in the debug log nothing changes, and only console lines are
    written.  When it has none, the console line that prints the type
    throws a TypeError before the debug log or anything else is touched. *)
Theorem unknown_event_is_only_logged (params t : JSValue) (w : World) :
  get_prop (eventData_of params) "type" = Normal t ->
  truthy t = true ->
  (forall s, s ∈ known_types -> t <> JStr s) ->
  (has_string t = true ->
   exists lc,
     handleUserEvent params w
     = mkOut (Normal tt) (set_document (set_logContent lc (document w)) w)
         [Console LLog "User event received:";
          Console LLog "=== FRONTEND EVENT RECEIVED ===";
          Console LLog "Event Type:";
          Console LLog "Event Data:";
          Console LLog "=== END EVENT DATA ===";
          Console LLog "Unknown event type:"])
  /\ (has_string t = false ->
      handleUserEvent params w
      = mkOut (Throw (TypeError "Cannot convert object to primitive value")) w
          [Console LLog "User event received:";
           Console LLog "=== FRONTEND EVENT RECEIVED ==="]).
Proof.
  intros Hg Ht Hk. split; intros Hs.
  - destruct (handleUserEvent_typed params t w Hg Ht Hs) as [lc ->]. exists lc.
    unfold dispatch.
    rewrite !is_str_other by (apply Hk; unfold known_types; set_solver).
    reflexivity.
  - pose proof (prop_of_get _ _ _ Hg) as Hp.
    apply handleUserEvent_unprintable; rewrite Hp; assumption.
Qed.

Lemma unknown_event_is_only_logged_witness :
  handleUserEvent (JObj [("type", JObj [("toString", JStr "gifts_found")])])
    example_gallery_world
  = mkOut (Throw (TypeError "Cannot convert object to primitive value"))
      example_gallery_world
      [Console LLog "User event received:";
       Console LLog "=== FRONTEND EVENT RECEIVED ==="].
Proof.
  refine (proj2
    (unknown_event_is_only_logged (JObj [("type", JObj [("toString", JStr "gifts_found")])])
       (JObj [("toString", JStr "gifts_found")]) example_gallery_world _ _ _) _).
  - reflexivity.
  - reflexivity.
  - intros s Hs. discriminate.
  - reflexivity.
Defined.

(** X8. A search_failed event never throws; whatever the gallery showed
    (gift cards included), it afterwards holds the retry prompt and nothing
    else, and the search indicator is hidden; no timer or sound is
    started. *)
Theorem search_failed_replaces_gallery (params : JSValue) (w : World) :
  get_prop (eventData_of params) "type" = Normal (JStr "search_failed") ->
  let o := handleUserEvent params w in
  value o = Normal tt
  /\ giftGallery (document (world o)) = [GRetryPrompt]
  /\ display (document (world o)) !! "searchStatus" = Some "none"
  /\ non_console (effects o) = [].
Proof.
  intros Ht o. subst o.
  destruct (handleUserEvent_typed params _ w Ht eq_refl eq_refl) as [lc ->].
  unfold dispatch. cbn [is_str String.eqb Ascii.eqb Bool.eqb]. msimpl.
  repeat split. apply lookup_insert_eq.
Qed.

Lemma search_failed_replaces_gallery_witness :
  giftGallery (document (world
    (handleUserEvent (JObj [("event", JObj [("type", JStr "search_failed")])])
       example_gallery_world)))
  = [GRetryPrompt].
Proof.
  refine (proj1 (proj2
    (search_failed_replaces_gallery
       (JObj [("event", JObj [("type", JStr "search_failed")])]) example_gallery_world _))).
  reflexivity.
Defined.

Lemma playSound_world soundId w : world (playSound soundId w) = w.
Proof. unfold playSound. msimpl. case_bool_decide; reflexivity. Qed.

Lemma showConfetti_out w :
  exists es,
    showConfetti w = mkOut (Normal tt) w es
    /\ non_console es = es /\ List.filter is_sound es = [].
Proof. eexists. split; [reflexivity|]. split; reflexivity. Qed.

(** X9. A gift_selected event without a [gift] (the field missing, null or
    undefined): [displaySelectedGift] hides the gallery and then throws a
    TypeError on [gift.image]; the showcase is neither filled nor shown, and
    no sound is played and no confetti scheduled. *)
Theorem gift_selected_without_gift (params gift : JSValue) (w : World) :
  get_prop (eventData_of params) "type" = Normal (JStr "gift_selected") ->
  get_prop (eventData_of params) "gift" = Normal gift ->
  nullish gift = true ->
  let o := handleUserEvent params w in
  (exists msg, value o = Throw (TypeError msg))
  /\ display (document (world o)) !! "giftGallery" = Some "none"
  /\ display (document (world o)) !! "giftShowcase" = display (document w) !! "giftShowcase"
  /\ props (document (world o)) = props (document w)
  /\ non_console (effects o) = [].
Proof.
  intros Ht Hg Hn o. subst o.
  destruct (handleUserEvent_typed params _ w Ht eq_refl eq_refl) as [lc ->].
  unfold dispatch. cbn [is_str String.eqb Ascii.eqb Bool.eqb].
  destruct (get_prop_nullish gift "image" Hn) as [msg Hmsg].
  unfold displaySelectedGift. msimpl. rewrite Hg. msimpl. rewrite Hmsg. msimpl.
  split; [exists msg; reflexivity|].
  split; [apply lookup_insert_eq|].
  split; [rewrite lookup_insert_ne by discriminate; reflexivity|].
  split; reflexivity.
Qed.

Lemma gift_selected_without_gift_witness :
  display (document (world
    (handleUserEvent (JObj [("type", JStr "gift_selected")]) example_gallery_world)))
    !! "giftGallery"
  = Some "none".
Proof.
  refine (proj1 (proj2
    (gift_selected_without_gift (JObj [("type", JStr "gift_selected")]) JUndefined
       example_gallery_world _ _ _))); reflexivity.
Defined.

Lemma displaySelectedGift_throws gift w :
  nullish gift = false -> showable gift = false ->
  exists msg d,
    displaySelectedGift gift w = mkOut (Throw (TypeError msg)) (set_document d w) []
    /\ display d = <["giftGallery" := "none"]> (display (document w))
    /\ giftGallery d = giftGallery (document w)
    /\ audio_ids d = audio_ids (document w).
Proof.
  intros Hn Hs. unfold showable in Hs. unfold displaySelectedGift.
  rewrite !(get_prop_prop gift _ Hn). msimpl. rewrite to_string_js_or. unfold to_string.
  destruct (has_string (prop gift "image")); [|eexists _, _; repeat split].
  destruct (has_string (prop gift "title")); [|eexists _, _; repeat split].
  destruct (has_string (prop gift "price")); [discriminate|eexists _, _; repeat split].
Qed.

(** X10. A gift_selected event with a [gift] that is not undefined or null:
    the gallery is hidden, its cards staying as they are.  When the gift's
    image, title and price each have a string the handler completes: the
    showcase is shown; the name and the price it shows are the gift's
    [title] and [price] as they come, with no fallback ([undefined] when
    missing), and only the image falls back, to [placeholder.jpg].  When one
    of the three has no string, its setter throws a TypeError: the showcase
    is not shown, no sound is played and no confetti is scheduled. *)
Theorem gift_selected_fills_showcase (params gift : JSValue) (w : World) :
  get_prop (eventData_of params) "type" = Normal (JStr "gift_selected") ->
  get_prop (eventData_of params) "gift" = Normal gift ->
  nullish gift = false ->
  let o := handleUserEvent params w in
  display (document (world o)) !! "giftGallery" = Some "none"
  /\ giftGallery (document (world o)) = giftGallery (document w)
  /\ (showable gift = true ->
      value o = Normal tt
      /\ props (document (world o)) !! "showcaseName" = Some (prop gift "title")
      /\ props (document (world o)) !! "showcasePrice" = Some (prop gift "price")
      /\ props (document (world o)) !! "showcaseImage"
         = Some (if truthy (prop gift "image") then prop gift "image"
                 else JStr "placeholder.jpg")
      /\ display (document (world o)) !! "giftShowcase" = Some "block")
  /\ (showable gift = false ->
      (exists msg, value o = Throw (TypeError msg))
      /\ display (document (world o)) !! "giftShowcase"
         = display (document w) !! "giftShowcase"
      /\ non_console (effects o) = []).
Proof.
  intros Ht Hg Hn o. subst o.
  destruct (handleUserEvent_typed params _ w Ht eq_refl eq_refl) as [lc ->].
  unfold dispatch. cbn [is_str String.eqb Ascii.eqb Bool.eqb].
  unfold mbind, M_bind, bind, lift. rewrite Hg.
  destruct (showable gift) eqn:Hs.
  - rewrite (displaySelectedGift_out gift _ Hn Hs), playSound_out.
    destruct (showConfetti_out (set_document
      (set_display
         (<["giftShowcase" := "block"]>
            (<["giftGallery" := "none"]>
               (display (document (set_document (set_logContent lc (document w)) w)))))
         (set_props
            (<["showcasePrice" := prop gift "price"]>
               (<["showcaseName" := prop gift "title"]>
                  (<["showcaseImage" := js_or (prop gift "image") (JStr "placeholder.jpg")]>
                     (props (document (set_document (set_logContent lc (document w)) w))))))
            (document (set_document (set_logContent lc (document w)) w))))
      (set_document (set_logContent lc (document w)) w))) as (es & -> & _).
    cbn.
    split; [rewrite lookup_insert_ne by discriminate; apply lookup_insert_eq|].
    split; [reflexivity|]. split; [|discriminate]. intros _.
    split; [reflexivity|].
    split; [rewrite lookup_insert_ne by discriminate; apply lookup_insert_eq|].
    split; [apply lookup_insert_eq|].
    split; [rewrite !lookup_insert_ne by discriminate; apply lookup_insert_eq|].
    apply lookup_insert_eq.
  - destruct (displaySelectedGift_throws gift
                (set_document (set_logContent lc (document w)) w) Hn Hs)
      as (msg & d & -> & Hd & Hgal & _).
    cbn. rewrite Hd, Hgal. cbn.
    split; [apply lookup_insert_eq|]. split; [reflexivity|]. split; [discriminate|].
    intros _. split; [exists msg; reflexivity|].
    split; [rewrite lookup_insert_ne by discriminate; reflexivity|reflexivity].
Qed.

Lemma gift_selected_fills_showcase_witness :
  props (document (world (handleUserEvent gift_selected_event example_gallery_world)))
    !! "showcasePrice"
  = Some (prop (prop gift_selected_event "gift") "price").
Proof.
  refine (proj1 (proj2 (proj2 (proj1 (proj2 (proj2
    (gift_selected_fills_showcase gift_selected_event (prop gift_selected_event "gift")
       example_gallery_world _ _ _))) _)))); reflexivity.
Defined.

(** X11. In a nice_list_checked event the [status] plays no part.  When
    the [name] has a string ([undefined] when missing, which has one) the
    handler completes: the result panel is shown with the NICE LIST text for
    that name, and one timer is set to hide the panel after 5000 ms.  When
    the name has no string, building the text throws a TypeError: the panel
    is not touched and no timer is set. *)
Theorem nice_list_checked_is_always_nice (params name : JSValue) (w : World) :
  get_prop (eventData_of params) "type" = Normal (JStr "nice_list_checked") ->
  get_prop (eventData_of params) "name" = Normal name ->
  let o := handleUserEvent params w in
  (has_string name = true ->
   value o = Normal tt
   /\ content (document (world o)) !! "listResult" = Some (HtmlNiceList name)
   /\ display (document (world o)) !! "niceListChecker" = Some "block"
   /\ non_console (effects o) = [SetTimeout HideNiceList 5000])
  /\ (has_string name = false ->
      value o = Throw (TypeError "Cannot convert object to primitive value")
      /\ content (document (world o)) = content (document w)
      /\ display (document (world o)) = display (document w)
      /\ non_console (effects o) = []).
Proof.
  intros Ht Hg o. subst o.
  destruct (handleUserEvent_typed params _ w Ht eq_refl eq_refl) as [lc ->].
  unfold dispatch. cbn [is_str String.eqb Ascii.eqb Bool.eqb].
  unfold displayNiceListResult. msimpl. rewrite Hg. msimpl.
  assert (Hn : nullish (eventData_of params) = false).
  { destruct (eventData_of params); cbn in Ht |- *; congruence. }
  rewrite (get_prop_prop _ "status" Hn). msimpl.
  split; intros Hs.
  - rewrite (to_string_ok _ Hs). cbn. repeat split; apply lookup_insert_eq.
  - rewrite (to_string_throws _ Hs). cbn. repeat split.
Qed.

Lemma nice_list_checked_is_always_nice_witness :
  content (document (world
    (handleUserEvent
       (JObj [("type", JStr "nice_list_checked"); ("name", JStr "Sam");
              ("status", JStr "naughty")])
       example_active))) !! "listResult"
  = Some (HtmlNiceList (JStr "Sam")).
Proof.
  refine (proj1 (proj2 (proj1
    (nice_list_checked_is_always_nice
       (JObj [("type", JStr "nice_list_checked"); ("name", JStr "Sam");
              ("status", JStr "naughty")])
       (JStr "Sam") example_active _ _) _))); reflexivity.
Defined.

Lemma handleUserEvent_searching params w :
  get_prop (eventData_of params) "type" = Normal (JStr "searching") ->
  exists lc es,
    handleUserEvent params w
    = mkOut (Normal tt)
        (set_document
           (set_display
              (<["searchStatus" := "block"]>
                 (<["giftGallery" := "grid"]>
                    (<["giftShowcase" := "none"]> (display (document w)))))
              (set_giftGallery [] (set_logContent lc (document w))))
           w) es.
Proof.
  intros Ht. destruct (handleUserEvent_typed params _ w Ht eq_refl eq_refl) as [lc ->].
  exists lc. unfold dispatch. cbn [is_str String.eqb Ascii.eqb Bool.eqb]. msimpl.
  destruct w as [? ? ? ? ? ? ? ? ? ? []]. eexists. reflexivity.
Qed.

Lemma handleUserEvent_no_gifts params gifts w :
  get_prop (eventData_of params) "type" = Normal (JStr "gifts_found") ->
  get_prop (eventData_of params) "gifts" = Normal gifts ->
  gifts = JUndefined \/ gifts = JNull \/ gifts = JArr [] ->
  exists lc es,
    handleUserEvent params w
    = mkOut (Normal tt)
        (set_document
           (set_display
              (<["searchStatus" := "none"]>
                 (<["giftGallery" := "grid"]>
                    (<["giftShowcase" := "none"]> (display (document w)))))
              (set_logContent lc (document w)))
           w) es.
Proof.
  intros Ht Hg Hempty. destruct (handleUserEvent_typed params _ w Ht eq_refl eq_refl) as [lc ->].
  exists lc. unfold dispatch. cbn [is_str String.eqb Ascii.eqb Bool.eqb].
  msimpl_keep displayGifts. rewrite Hg. msimpl_keep displayGifts.
  match goal with |- context [displayGifts gifts ?v] =>
    rewrite (displayGifts_nothing gifts v Hempty) end.
  msimpl. destruct w as [? ? ? ? ? ? ? ? ? ? []]. eexists. reflexivity.
Qed.

(** X12. A searching event empties the gallery and shows the search
    indicator; when the gifts_found event that follows brings no gifts
    (absent, null or the empty array), the indicator is hidden again and
    the gallery stays empty: neither the welcome block nor a retry prompt
    is put back. *)
Theorem searching_then_no_gifts_leaves_gallery_empty
    (searching found gifts : JSValue) (w : World) :
  get_prop (eventData_of searching) "type" = Normal (JStr "searching") ->
  get_prop (eventData_of found) "type" = Normal (JStr "gifts_found") ->
  get_prop (eventData_of found) "gifts" = Normal gifts ->
  gifts = JUndefined \/ gifts = JNull \/ gifts = JArr [] ->
  let o1 := handleUserEvent searching w in
  let o2 := handleUserEvent found (world o1) in
  value o1 = Normal tt /\ value o2 = Normal tt
  /\ giftGallery (document (world o1)) = []
  /\ display (document (world o1)) !! "searchStatus" = Some "block"
  /\ giftGallery (document (world o2)) = []
  /\ display (document (world o2)) !! "searchStatus" = Some "none".
Proof.
  intros Hs Hf Hg Hempty o1 o2. subst o1 o2.
  destruct (handleUserEvent_searching searching w Hs) as (lc & es & ->).
  cbn [world value].
  match goal with |- context [handleUserEvent found ?v] =>
    destruct (handleUserEvent_no_gifts found gifts v Hf Hg Hempty) as (lc' & es' & ->) end.
  cbn.
  repeat split; apply lookup_insert_eq.
Qed.

Lemma searching_then_no_gifts_leaves_gallery_empty_witness :
  giftGallery (document (world
    (handleUserEvent empty_gifts_found
       (world (handleUserEvent (JObj [("type", JStr "searching")]) example_loaded)))))
  = [].
Proof.
  refine (proj1 (proj2 (proj2 (proj2 (proj2
    (searching_then_no_gifts_leaves_gallery_empty (JObj [("type", JStr "searching")])
       empty_gifts_found (JArr []) example_loaded _ _ _ _))))));
    [reflexivity | reflexivity | reflexivity | right; right; reflexivity].
Defined.

Lemma eventData_of_envelope fs :
  truthy (lookup_field "event" fs) = true ->
  eventData_of (JObj fs) = lookup_field "event" fs.
Proof. intros H. unfold eventData_of. cbn. rewrite H. reflexivity. Qed.

Lemma eventData_of_bare ev :
  truthy (prop ev "event") = false -> eventData_of ev = ev.
Proof.
  intros H. destruct (truthy ev) eqn:E.
  - rewrite (eventData_of_truthy _ E), H. reflexivity.
  - apply eventData_of_falsy, E.
Qed.

Lemma handleUserEvent_same_event p q w :
  eventData_of p = eventData_of q -> handleUserEvent p w = handleUserEvent q w.
Proof.
  intros H. rewrite !handleUserEvent_found, H. reflexivity.
Qed.

(** X13. The [event] envelope is opened once.  A message whose [event]
    field holds a truthy value is handled exactly as that value alone would
    be, provided the value has no truthy [event] field of its own; whatever
    else the message holds beside [event], a [type] included, is not looked
    at.  Wrapped once more, such a message is dropped unless it has a truthy
    [type] of its own beside [event]. *)
Theorem envelope_is_opened_once (fs : list (string * JSValue)) (w : World) :
  truthy (lookup_field "event" fs) = true ->
  (truthy (prop (lookup_field "event" fs) "event") = false ->
   handleUserEvent (JObj fs) w = handleUserEvent (lookup_field "event" fs) w)
  /\ (truthy (lookup_field "type" fs) = false ->
      handleUserEvent (JObj [("event", JObj fs)]) w
      = mkOut (Normal tt) w
          [Console LLog "User event received:"; Console LLog "No valid event data found"]).
Proof.
  intros Ht. split.
  - intros Hb. apply handleUserEvent_same_event.
    rewrite (eventData_of_envelope fs Ht), (eventData_of_bare _ Hb). reflexivity.
  - intros Hty. apply handleUserEvent_dropped.
    rewrite (eventData_of_envelope [("event", JObj fs)] eq_refl).
    exact Hty.
Qed.

Lemma envelope_is_opened_once_witness :
  handleUserEvent
    (JObj [("type", JStr "searching");
           ("event", JObj [("type", JStr "search_failed")])]) example_gallery_world
  = handleUserEvent (JObj [("type", JStr "search_failed")]) example_gallery_world.
Proof.
  refine (proj1
    (envelope_is_opened_once
       [("type", JStr "searching"); ("event", JObj [("type", JStr "search_failed")])]
       example_gallery_world _) _); reflexivity.
Defined.

Lemma take_app_take {A} n (l m : list A) : take n (l ++ take n m) = take n (l ++ m).
Proof.
  rewrite !take_app. f_equal. rewrite take_take. f_equal. lia.
Qed.

Lemma logged_newest_first events : forall entries,
  events <> [] -> logged events entries = take 20 (rev events ++ entries).
Proof.
  induction events as [|e events IH]; intros entries Hne; [contradiction|].
  cbn [logged foldl rev]. destruct events as [|e' events].
  - reflexivity.
  - fold (logged (e' :: events) (take 20 (e :: entries))).
    rewrite IH by discriminate.
    rewrite <- app_assoc. cbn [app]. apply (take_app_take 20 _ (e :: entries)).
Qed.

Lemma loggable_parts type data :
  loggable (type, data) = true ->
  to_string type = Normal tt /\ stringify_prefix data = Normal tt.
Proof.
  unfold loggable. cbn [fst snd]. intros H. apply andb_prop in H as [Hs Hd].
  split; [apply to_string_ok, Hs|]. destruct data; try discriminate; reflexivity.
Qed.

Lemma logEvent_shown type data entries w :
  logContent (document w) = Some entries ->
  display (document w) !! "eventLog" <> Some "none" ->
  loggable (type, data) = true ->
  logEvent type data w
  = mkOut (Normal tt)
      (set_document (set_logContent (Some (take 20 ((type, data) :: entries))) (document w)) w)
      [].
Proof.
  intros Hl Hd Hg. destruct (loggable_parts type data Hg) as [Ht Hs].
  unfold logEvent. rewrite Ht, Hs. msimpl. rewrite Hl.
  rewrite bool_decide_eq_false_2 by exact Hd. reflexivity.
Qed.

Lemma logEvent_unloggable type data entries w :
  logContent (document w) = Some entries ->
  display (document w) !! "eventLog" <> Some "none" ->
  loggable (type, data) = false ->
  exists msg, logEvent type data w = mkOut (Throw (TypeError msg)) w [].
Proof.
  intros Hl Hd Hg. unfold loggable in Hg. cbn [fst snd] in Hg.
  unfold logEvent, to_string. msimpl. rewrite Hl.
  rewrite bool_decide_eq_false_2 by exact Hd.
  destruct (has_string type); [|eexists; reflexivity].
  destruct data; try discriminate. eexists. reflexivity.
Qed.

Lemma logEvent_hidden type data w :
  display (document w) !! "eventLog" = Some "none" ->
  logEvent type data w = mkOut (Normal tt) w [].
Proof.
  intros Hd. unfold logEvent. msimpl. destruct (logContent (document w)); [|reflexivity].
  rewrite bool_decide_eq_true_2 by exact Hd. reflexivity.
Qed.

Lemma forEach_logEvent events : forall entries w,
  logContent (document w) = Some entries ->
  display (document w) !! "eventLog" <> Some "none" ->
  Forall (fun e => loggable e = true) events ->
  forEach events (fun e => logEvent (fst e) (snd e)) w
  = mkOut (Normal tt)
      (set_document (set_logContent (Some (logged events entries)) (document w)) w) [].
Proof.
  induction events as [|[t d] events IH]; intros entries w Hl Hd Hall.
  - cbn. rewrite <- Hl. destruct w as [? ? ? ? ? ? ? ? ? ? []]. reflexivity.
  - inversion Hall as [|? ? Hg Hrest]; subst.
    cbn [forEach fst snd]. unfold mbind, M_bind, bind.
    rewrite (logEvent_shown t d entries w Hl Hd Hg).
    rewrite (IH (take 20 ((t, d) :: entries))); [|reflexivity|exact Hd|exact Hrest].
    reflexivity.
Qed.

(** X14. While the debug log is present and shown: logging a non-empty
    series of events, each with a type that has a string and data that is
    not undefined, leaves in the log the twenty newest entries of the series
    followed by the old content, newest first, and changes nothing else;
    logging an event whose type has no string, or whose data is undefined,
    throws a TypeError and leaves the log as it is. *)
Theorem debug_log_keeps_newest_twenty
    (events entries : list (JSValue * JSValue)) (w : World) :
  logContent (document w) = Some entries ->
  display (document w) !! "eventLog" <> Some "none" ->
  (events <> [] -> Forall (fun e => loggable e = true) events ->
   let o := forEach events (fun e => logEvent (fst e) (snd e)) w in
   value o = Normal tt
   /\ logContent (document (world o)) = Some (take 20 (rev events ++ entries))
   /\ world o = set_document (set_logContent (logContent (document (world o))) (document w)) w
   /\ (forall shown, logContent (document (world o)) = Some shown -> length shown <= 20))
  /\ (forall type data, loggable (type, data) = false ->
        exists msg, logEvent type data w = mkOut (Throw (TypeError msg)) w []).
Proof.
  intros Hl Hd. split.
  - intros Hne Hall o. subst o.
    rewrite (forEach_logEvent events entries w Hl Hd Hall). cbn.
    rewrite (logged_newest_first events entries Hne).
    repeat split. intros shown [= <-]. rewrite length_take. lia.
  - intros type data Hg. exact (logEvent_unloggable type data entries w Hl Hd Hg).
Qed.

Lemma debug_log_keeps_newest_twenty_witness :
  logContent (document (world
    (forEach [(JStr "searching", JNull); (JStr "gifts_found", JNull)]
       (fun e => logEvent (fst e) (snd e)) example_active)))
  = Some [(JStr "gifts_found", JNull); (JStr "searching", JNull)].
Proof.
  refine (proj1 (proj2 (proj1
    (debug_log_keeps_newest_twenty
       [(JStr "searching", JNull); (JStr "gifts_found", JNull)] [] example_active _ _)
    _ _))).
  - reflexivity.
  - vm_compute. discriminate.
  - discriminate.
  - repeat constructor.
Defined.

(** X15. [toggleEventLog] on a log that is not hidden hides it; an event
    logged while it is hidden is lost, so that after a second toggle the
    log is shown again with the content it had before. *)
Theorem hidden_log_drops_events (type data : JSValue) (w : World) :
  display (document w) !! "eventLog" <> Some "none" ->
  let w1 := world (toggleEventLog w) in
  let w2 := world (toggleEventLog (world (logEvent type data w1))) in
  display (document w1) !! "eventLog" = Some "none"
  /\ logEvent type data w1 = mkOut (Normal tt) w1 []
  /\ display (document w2) !! "eventLog" = Some "block"
  /\ logContent (document w2) = logContent (document w).
Proof.
  intros Hd w1 w2.
  assert (H1 : display (document w1) !! "eventLog" = Some "none").
  { subst w1. unfold toggleEventLog. msimpl.
    rewrite bool_decide_eq_false_2 by exact Hd. apply lookup_insert_eq. }
  assert (H2 : logEvent type data w1 = mkOut (Normal tt) w1 []).
  { apply logEvent_hidden, H1. }
  split; [exact H1|]. split; [exact H2|].
  subst w2. rewrite H2. cbn [world]. unfold toggleEventLog. msimpl.
  rewrite bool_decide_eq_true_2 by exact H1.
  split; [apply lookup_insert_eq|].
  subst w1. unfold toggleEventLog. msimpl. reflexivity.
Qed.

Lemma hidden_log_drops_events_witness :
  logContent (document (world (toggleEventLog (world
    (logEvent (JStr "searching") JNull (world (toggleEventLog example_active)))))))
  = logContent (document example_active).
Proof.
  refine (proj2 (proj2 (proj2
    (hidden_log_drops_events (JStr "searching") JNull example_active _)))).
  vm_compute. discriminate.
Defined.

(** X16. The feedback of [selectGift] is never taken back.  After a click
    on the card at index [a] (option [a + 1]) and a click on a different
    card at index [b], both cards are enlarged, and every card is dimmed,
    the one clicked last included. *)
Theorem selectGift_feedback_accumulates (a b : nat) (cards : list CardStyle) :
  a <> b -> a < length cards -> b < length cards ->
  let after := selectGift (Z.of_nat b + 1) (selectGift (Z.of_nat a + 1) cards) in
  length after = length cards
  /\ (forall i c, after !! i = Some c -> opacity c = Some "0.5")
  /\ (exists ca, after !! a = Some ca /\ transform ca = Some "scale(1.1)")
  /\ (exists cb, after !! b = Some cb /\ transform cb = Some "scale(1.1)").
Proof.
  intros Hab Ha Hb after. subst after. unfold selectGift.
  split; [rewrite !length_imap; reflexivity|]. split; [|split].
  - intros i c. rewrite !list_lookup_imap.
    destruct (cards !! i) as [c0|]; cbn; [|discriminate].
    destruct (Z.eqb_spec (Z.of_nat i) (Z.of_nat b + 1 - 1));
      destruct (Z.eqb_spec (Z.of_nat i) (Z.of_nat a + 1 - 1)); intros [= <-]; cbn;
      try reflexivity.
    lia.
  - destruct (lookup_lt_is_Some_2 cards a Ha) as [c0 Hc0].
    rewrite !list_lookup_imap, Hc0. cbn.
    destruct (Z.eqb_spec (Z.of_nat a) (Z.of_nat a + 1 - 1)); [|lia].
    destruct (Z.eqb_spec (Z.of_nat a) (Z.of_nat b + 1 - 1)); [lia|].
    eexists. split; reflexivity.
  - destruct (lookup_lt_is_Some_2 cards b Hb) as [c0 Hc0].
    rewrite !list_lookup_imap, Hc0. cbn.
    destruct (Z.eqb_spec (Z.of_nat b) (Z.of_nat b + 1 - 1)); [|lia].
    eexists. split; reflexivity.
Qed.

Lemma selectGift_feedback_accumulates_witness :
  exists cb,
    selectGift 2 (selectGift 1 (replicate 3 (mkCardStyle None None None))) !! 1 = Some cb
    /\ transform cb = Some "scale(1.1)".
Proof.
  refine (proj2 (proj2 (proj2
    (selectGift_feedback_accumulates 0 1 (replicate 3 (mkCardStyle None None None)) _ _ _))));
    cbn; lia.
Defined.

(** X17. The countdown is a day early.  During the twenty-four hours before
    midnight of 25 December it reads "It's Christmas Day!"; on 25 December
    itself, after midnight, the difference is negative, its floor is -1,
    and the text is "-1 days until Christmas!". *)
Theorem countdown_is_a_day_early (c : Clock) :
  (getMonth c = 11 -> getDate c <= 25)%Z ->
  ((christmas_this_year c - 86400000 < now c <= christmas_this_year c)%Z ->
   updateChristmasCountdown c = ItsChristmasDay)
  /\ ((christmas_this_year c < now c < christmas_this_year c + 86400000)%Z ->
      updateChristmasCountdown c = DaysUntil (-1)).
Proof.
  intros Hdate. unfold updateChristmasCountdown.
  replace ((getMonth c =? 11)%Z && (getDate c >? 25)%Z) with false.
  2: { symmetry. apply andb_false_iff.
       destruct (Z.eqb_spec (getMonth c) 11) as [E|E]; [right|left; reflexivity].
       rewrite Z.gtb_ltb. apply Z.ltb_ge, Hdate, E. }
  change (1000 * 60 * 60 * 24)%Z with 86400000%Z. cbv zeta. split; intros H.
  - replace ((christmas_this_year c - now c) / 86400000)%Z with 0%Z; [reflexivity|].
    symmetry. apply Z.div_small. lia.
  - replace ((christmas_this_year c - now c) / 86400000)%Z with (-1)%Z; [reflexivity|].
    apply (Z.div_unique _ _ _ (christmas_this_year c - now c + 86400000)%Z); lia.
Qed.

Lemma countdown_is_a_day_early_witness :
  updateChristmasCountdown (mkClock 1766660400000 11 25 1766617200000 1798153200000)
  = DaysUntil (-1).
Proof.
  refine (proj2
    (countdown_is_a_day_early (mkClock 1766660400000 11 25 1766617200000 1798153200000) _) _);
    cbn; lia.
Defined.

Lemma disconnect_requests w :
  sdk_requests (effects (disconnect w))
  = match client w with Some cid => [ReqClientDisconnect cid] | None => [] end.
Proof.
  unfold disconnect, client_disconnect.
  destruct w as [cl rs mu au cls ss ts st dl pe doc].
  destruct doc as [di co sd ch vc gg pr sp lc ai].
  msimpl.
  destruct rs as [sid|]; [unfold session_at; cbn [sessions]; destruct (localStream _) eqn:E |].
  all: rewrite ?forEach_stop; msimpl.
  all: destruct cl as [cid|]; msimpl;
    [match goal with |- context [c_disconnect_throws ?c] =>
       destruct (c_disconnect_throws c) end; msimpl|].
  all: destruct vc as [nodes|]; msimpl; rewrite ?forEach_stop_streams; msimpl.
  all: reflexivity.
Qed.

Lemma stop_tracks_length ids : forall ts, length (stop_tracks ids ts) = length ts.
Proof.
  induction ids as [|i ids IH]; intros ts; [reflexivity|].
  change (stop_tracks (i :: ids) ts) with (stop_tracks ids (alter stop i ts)).
  rewrite IH. apply length_alter.
Qed.

(** X18. [disconnect] never throws, whether or not [client.disconnect()]
    does.  It stops exactly the tracks of [roomSession.localStream] and of
    the streams attached to the video elements of the container: every
    other track, such as one reachable only through [peer.localStream],
    keeps running, and no track's [enabled] flag or kind is changed.  The
    only call into the SDK is [client.disconnect()], when there is a
    client; the session is not asked to hang up. *)
Theorem disconnect_stops_exactly_its_streams (w : World) :
  let o := disconnect w in
  value o = Normal tt
  /\ length (tracks (world o)) = length (tracks w)
  /\ (forall i t, tracks w !! i = Some t ->
        tracks (world o) !! i
        = Some (mkTrack (kind t) (enabled t)
                  (ended t
                   || bool_decide (i ∈ local_stream_tracks w)
                   || bool_decide (i ∈ container_tracks w))))
  /\ sdk_requests (effects o)
     = match client w with Some cid => [ReqClientDisconnect cid] | None => [] end.
Proof.
  intros o. subst o. split; [apply disconnect_value|].
  rewrite disconnect_world. cbn [tracks cleaned].
  split; [rewrite !stop_tracks_length; reflexivity|].
  split; [|apply disconnect_requests].
  intros i t Ht. rewrite !stop_tracks_lookup, Ht. reflexivity.
Qed.

Lemma toggleMute_value w : value (toggleMute w) = Normal tt.
Proof.
  unfold toggleMute, getAudioTracks. msimpl. destruct (roomSession w) as [sid|]; [|reflexivity].
  msimpl.
  change (session_at sid (set_isMuted (negb (isMuted w)) w)) with (session_at sid w).
  destruct (localStream (session_at sid w)) as [stream|].
  - msimpl. rewrite forEach_set_enabled. reflexivity.
  - destruct (peer (session_at sid w)) as [[stream|]|]; msimpl;
      rewrite ?forEach_set_enabled; reflexivity.
Qed.

(** X19. One [toggleMute] with a session whose stream is found
    ([localStream], or [peer.localStream] when there is no [localStream]):
    it never throws; the flag is inverted; every audio track of that stream
    gets [enabled] set to the negation of the new flag, whatever it was
    before; the video tracks of the stream, and every track outside it,
    are left as they are, and no track is stopped. *)
Theorem toggleMute_sets_audio_tracks (w : World) (sid : nat) (stream : Stream) :
  roomSession w = Some sid ->
  mute_stream (session_at sid w) = Some stream ->
  let o := toggleMute w in
  value o = Normal tt
  /\ isMuted (world o) = negb (isMuted w)
  /\ (forall i t, tracks w !! i = Some t ->
        tracks (world o) !! i
        = Some (if bool_decide (i ∈ stream) && is_audio (tracks w) i
                then mkTrack (kind t) (negb (isMuted (world o))) (ended t)
                else t))
  /\ content (document (world o)) !! "muteBtn"
     = Some (if isMuted (world o) then HtmlUnmute else HtmlMute).
Proof.
  intros Hrs Hs o. subst o. split; [apply toggleMute_value|].
  rewrite (toggleMute_world w sid Hrs). cbn [toggled isMuted set_document set_tracks set_isMuted
    tracks document content set_content].
  split; [reflexivity|]. split; [|apply lookup_insert_eq].
  intros i t Ht. rewrite enable_tracks_lookup, Ht. cbn [fmap option_fmap option_map].
  unfold local_audio_tracks. rewrite Hs, negb_involutive. f_equal.
  destruct (is_audio (tracks w) i) eqn:Ea.
  - rewrite andb_true_r.
    rewrite (bool_decide_ext (i ∈ List.filter (is_audio (tracks w)) stream) (i ∈ stream)).
    + reflexivity.
    + rewrite list_elem_of_In, List.filter_In, <- list_elem_of_In. tauto.
  - rewrite andb_false_r. rewrite bool_decide_eq_false_2; [reflexivity|].
    rewrite list_elem_of_In, List.filter_In. intros [_ H]. congruence.
Qed.

Lemma toggleMute_sets_audio_tracks_witness :
  isMuted (world (toggleMute example_active)) = negb (isMuted example_active).
Proof.
  refine (proj1 (proj2
    (toggleMute_sets_audio_tracks example_active 0 [0; 1] _ _))); reflexivity.
Defined.

Lemma set_checkbox_out id v w :
  set_checkbox id v w
  = mkOut (Normal tt)
      (set_document (set_checked (<[id := truthy v]> (checked (document w))) (document w)) w)
      [].
Proof. reflexivity. Qed.

(** X20. Whatever JSON value is stored under the settings key becomes
    [audioSettings] as it is, with no check of its shape.  When it is not
    null, loading completes and each checkbox shows the truthiness of the
    field of its name ([undefined] for a missing one, so unchecked).  When
    it is null, reading the first field throws a TypeError: no checkbox is
    set and no settings listener is registered. *)
Theorem stored_settings_are_not_validated (w : World) (text : string) (v : JSValue) :
  localStorage w !! storage_key = Some text ->
  text <> EmptyString ->
  Json.parse text = Some v ->
  let o := initializeSettings w in
  audioSettings (world o) = v
  /\ (nullish v = false ->
      value o = Normal tt
      /\ checked (document (world o)) !! "echoCancellation"
         = Some (truthy (prop v "echoCancellation"))
      /\ checked (document (world o)) !! "noiseSuppression"
         = Some (truthy (prop v "noiseSuppression"))
      /\ checked (document (world o)) !! "autoGainControl"
         = Some (truthy (prop v "autoGainControl")))
  /\ (nullish v = true ->
      (exists msg, value o = Throw (TypeError msg))
      /\ world o = set_audioSettings v w).
Proof.
  intros Hs Hne Hp o. subst o. unfold storage_key in Hs.
  unfold initializeSettings, addEventListener. msimpl. rewrite Hs.
  destruct (String.eqb text EmptyString) eqn:E;
    [apply String.eqb_eq in E; contradiction|].
  msimpl. rewrite Hp. msimpl.
  destruct (nullish v) eqn:En.
  - destruct (get_prop_nullish v "echoCancellation" En) as [msg ->]. msimpl.
    split; [reflexivity|]. split; [discriminate|]. intros _.
    split; [exists msg; reflexivity|reflexivity].
  - rewrite !(get_prop_prop v _ En). unfold set_checkbox. msimpl.
    split; [reflexivity|]. split; [|discriminate]. intros _.
    split; [reflexivity|].
    split; [rewrite !lookup_insert_ne by discriminate; apply lookup_insert_eq|].
    split; [rewrite lookup_insert_ne by discriminate; apply lookup_insert_eq|].
    apply lookup_insert_eq.
Qed.

Lemma stored_settings_are_not_validated_witness :
  checked (document (world (initializeSettings
    (initial_world {[ storage_key := underflowing_settings ]} example_page))))
    !! "echoCancellation"
  = Some false.
Proof.
  refine (proj1 (proj2 (proj1 (proj2
    (stored_settings_are_not_validated
       (initial_world {[ storage_key := underflowing_settings ]} example_page)
       underflowing_settings (JObj [("echoCancellation", JNum 0 0)]) _ _ _)) _))).
  - reflexivity.
  - discriminate.
  - vm_compute. reflexivity.
  - reflexivity.
Defined.

(** X21. The dial request carries the three audio options exactly as
    [audioSettings] holds them when the client promise settles
    ([undefined] for a missing field).  When [audioSettings] is null or
    undefined, reading the first option throws after the client has been
    stored: the catch block re-enables the start button, nothing is
    dialled, no function is left suspended, and [client] keeps the handle
    of the client just created. *)
Theorem dial_options_come_from_settings (w : World) (c : ClientObj) :
  let o := startCall_after_SignalWire (Fulfilled c) w in
  value o = Normal tt
  /\ client (world o) = Some (length (clients w))
  /\ (nullish (audioSettings w) = false ->
      sdk_requests (effects o)
      = [ReqDial (length (clients w))
           (prop (audioSettings w) "echoCancellation")
           (prop (audioSettings w) "noiseSuppression")
           (prop (audioSettings w) "autoGainControl")]
      /\ pending (world o) = (pending w ++ [AwaitDial])%list)
  /\ (nullish (audioSettings w) = true ->
      sdk_requests (effects o) = []
      /\ pending (world o) = pending w
      /\ startBtn_disabled (document (world o)) = false).
Proof.
  intros o. subst o. unfold startCall_after_SignalWire, startCall_catch, client_on. msimpl.
  destruct (nullish (audioSettings w)) eqn:En.
  - destruct (get_prop_nullish _ "echoCancellation" En) as [msg ->]. msimpl.
    split; [reflexivity|]. split; [reflexivity|]. split; [discriminate|].
    intros _. repeat split.
  - rewrite !(get_prop_prop _ _ En). msimpl.
    split; [reflexivity|]. split; [reflexivity|]. split; [|discriminate].
    intros _. split; reflexivity.
Qed.

Lemma dial_options_come_from_settings_witness :
  sdk_requests (effects (startCall_after_SignalWire (Fulfilled example_client)
                           (set_audioSettings (JObj [("echoCancellation", JBool false)])
                              example_loaded)))
  = [ReqDial 0 (JBool false) JUndefined JUndefined].
Proof.
  refine (proj1 (proj1 (proj2 (proj2
    (dial_options_come_from_settings
       (set_audioSettings (JObj [("echoCancellation", JBool false)]) example_loaded)
       example_client))) _)).
  reflexivity.
Defined.

Lemma keeps_pure R {A} (m : M A) :
  (forall w, R w w) -> (forall w, world (m w) = w) -> keeps R m.
Proof. intros Hr H w. rewrite H. apply Hr. Qed.

Lemma keeps_ret R {A} (a : A) : (forall w, R w w) -> keeps R (mret a : M A).
Proof. intros Hr. apply keeps_pure; [exact Hr|reflexivity]. Qed.

Lemma keeps_emit R e : (forall w, R w w) -> keeps R (emit e).
Proof. intros Hr. apply keeps_pure; [exact Hr|reflexivity]. Qed.

Lemma keeps_lift R {A} (c : Completion A) : (forall w, R w w) -> keeps R (lift c).
Proof. intros Hr. apply keeps_pure; [exact Hr|reflexivity]. Qed.

Lemma keeps_throw R {A} e : (forall w, R w w) -> keeps R (@throw A e).
Proof. intros Hr. apply keeps_pure; [exact Hr|reflexivity]. Qed.

Lemma keeps_gets R {A} (f : World -> A) : (forall w, R w w) -> keeps R (gets f).
Proof. intros Hr. apply keeps_pure; [exact Hr|reflexivity]. Qed.

Lemma keeps_modify R g : (forall w, R w (g w)) -> keeps R (modify g).
Proof. intros H w. apply H. Qed.

Lemma keeps_bind R {A B} (m : M A) (k : A -> M B) :
  (forall a b c, R a b -> R b c -> R a c) ->
  keeps R m -> (forall a, keeps R (k a)) -> keeps R (m ≫= k).
Proof.
  intros Ht Hm Hk w. unfold mbind, M_bind, bind.
  pose proof (Hm w) as H1. destruct (m w) as [[a|e] w1 e1]; cbn in H1; [|exact H1].
  pose proof (Hk a w1) as H2. destruct (k a w1) as [v w2 e2]; cbn in *.
  exact (Ht _ _ _ H1 H2).
Qed.

Lemma keeps_try_catch R {A} (body : M A) (handler : Exn -> M A) :
  (forall a b c, R a b -> R b c -> R a c) ->
  keeps R body -> (forall e, keeps R (handler e)) -> keeps R (try_catch body handler).
Proof.
  intros Ht Hm Hk w. unfold try_catch.
  pose proof (Hm w) as H1. destruct (body w) as [[a|e] w1 e1]; cbn in H1; [exact H1|].
  pose proof (Hk e w1) as H2. destruct (handler e w1) as [v w2 e2]; cbn in *.
  exact (Ht _ _ _ H1 H2).
Qed.

Lemma keeps_guarded R (m : M unit) :
  (forall w, R w w) -> (forall a b c, R a b -> R b c -> R a c) ->
  keeps R m -> keeps R (guarded m).
Proof.
  intros Hr Ht Hm. apply keeps_try_catch; [exact Ht|exact Hm|].
  intros e. apply keeps_emit, Hr.
Qed.

Lemma keeps_forEach_in R {A} (xs : list A) (f : A -> M unit) :
  (forall w, R w w) -> (forall a b c, R a b -> R b c -> R a c) ->
  (forall x, x ∈ xs -> keeps R (f x)) -> keeps R (forEach xs f).
Proof.
  intros Hr Ht. induction xs as [|x xs IH]; intros Hf; cbn [forEach].
  - apply keeps_ret, Hr.
  - apply keeps_bind; [exact Ht|apply Hf; apply elem_of_cons; left; reflexivity|].
    intros _. apply IH. intros y Hy. apply Hf. apply elem_of_cons. right. exact Hy.
Qed.

Lemma keeps_forEach R {A} (xs : list A) (f : A -> M unit) :
  (forall w, R w w) -> (forall a b c, R a b -> R b c -> R a c) ->
  (forall x, keeps R (f x)) -> keeps R (forEach xs f).
Proof. intros Hr Ht Hf. apply keeps_forEach_in; auto. Qed.

Lemma keeps_ui_only R {A} (m : M A) :
  (forall w d, R w (set_document d w)) -> ui_only m -> keeps R m.
Proof. intros Hd Hm w. destruct (Hm w) as (d & -> & _). apply Hd. Qed.

Lemma keeps_run R inputs :
  (forall w, R w w) -> (forall a b c, R a b -> R b c -> R a c) ->
  (forall i, keeps R (step i)) -> keeps R (run inputs).
Proof.
  intros Hr Ht Hs. induction inputs as [|i rest IH]; cbn [run].
  - apply keeps_ret, Hr.
  - apply keeps_bind; [exact Ht|apply Hs|intros _; exact IH].
Qed.

Ltac keeps_step Hr Ht :=
  first
    [ apply keeps_bind; [exact Ht| |intros ?]
    | apply keeps_ret; exact Hr
    | apply keeps_emit; exact Hr
    | apply keeps_lift; exact Hr
    | apply keeps_throw; exact Hr
    | apply keeps_gets; exact Hr
    | apply keeps_try_catch; [exact Ht| |intros ?]
    | apply keeps_forEach; [exact Hr|exact Ht|intros ?]
    | match goal with
      | |- keeps _ (if ?b then _ else _) => destruct b
      | |- keeps _ (match ?x with _ => _ end) => destruct x
      end ].

Ltac keeps_unfold :=
  unfold initializeUI, initializeSettings, set_checkbox, addEventListener, hangup,
    hangup_resume, endCall, disconnect, client_disconnect, resetUI, startCall,
    startCall_after_SignalWire, startCall_after_dial, startCall_after_start,
    startCall_catch, handleRoomJoined, handleRoomUpdated, handleRoomEnded,
    showSearchStatus, style_display, set_markup, set_prop, on_document, updateStatus,
    updateSantaMessage, console_log, console_error, console_warn, await, stop_track,
    client_on, session_on, toggleMute, getAudioTracks, set_enabled, guarded, resume.

Ltac allows_modify HR :=
  apply keeps_modify; intros ?;
  first
    [ apply (allows_document _ HR)
    | apply (allows_pending _ HR)
    | apply (allows_client _ HR)
    | apply (allows_roomSession _ HR)
    | apply (allows_audioSettings _ HR)
    | apply (allows_stop _ HR)
    | apply (allows_new_client _ HR)
    | apply (allows_new_session _ HR)
    | apply (allows_client_on _ HR)
    | apply (allows_session_on _ HR)
    | apply (allows_addEventListener _ HR) ].

Ltac keeps_all HR :=
  keeps_unfold;
  repeat first
    [ keeps_step (allows_refl _ HR) (allows_trans _ HR)
    | allows_modify HR ].

Lemma keeps_handleUserEvent R params : Allows R -> keeps R (handleUserEvent params).
Proof.
  intros HR. apply keeps_ui_only; [apply (allows_document _ HR)|].
  apply ui_only_handleUserEvent.
Qed.

Lemma keeps_run_handler R h params :
  Allows R -> h <> click_toggleMute -> keeps R (run_handler h params).
Proof.
  intros HR Hh. destruct h; try contradiction; cbn [run_handler].
  all: try (repeat (apply keeps_bind;
                    [exact (allows_trans _ HR)|apply keeps_emit, (allows_refl _ HR)|intros _];
                    lazymatch goal with
                    | |- keeps _ (handleUserEvent _) => idtac
                    | |- keeps _ (console_log _ ≫= _) => idtac
                    end);
            apply keeps_handleUserEvent, HR).
  all: keeps_all HR.
Qed.

Lemma keeps_resumed R i :
  Allows R ->
  match i with
  | SignalWireSettled _ _ | DialSettled _ _ | StartSettled _ _ | HangupSettled _ _ => True
  | _ => False
  end ->
  keeps R (step i).
Proof.
  intros HR Hi. destruct i; try contradiction; cbn [step]; keeps_all HR.
Qed.

Lemma step_keeps R i w :
  Allows R -> click_toggleMute ∉ fired i w -> R w (world (step i w)).
Proof.
  intros HR Hf.
  assert (Hhs : forall params,
    R w (world (forEach (fired i w) (fun h => guarded (run_handler h params)) w))).
  { intros params. apply keeps_forEach_in;
      [exact (allows_refl _ HR)|exact (allows_trans _ HR)|].
    intros h Hh. apply keeps_guarded;
      [exact (allows_refl _ HR)|exact (allows_trans _ HR)|].
    apply keeps_run_handler; [exact HR|]. intros ->. contradiction. }
  destruct i; try (apply keeps_resumed; [exact HR|exact I]).
  all: cbn [step fired] in *; unfold mbind, M_bind, bind, gets.
  all: match goal with |- context [forEach ?hs (fun h => guarded (run_handler h ?p)) ?v] =>
         specialize (Hhs p); destruct (forEach hs _ v) end; exact Hhs.
Qed.

Lemma fmap_enabled_stop (i : nat) (ts : list Track) :
  enabled <$> alter stop i ts = enabled <$> ts.
Proof.
  apply list_eq. intros j. rewrite !list_lookup_fmap.
  destruct (decide (i = j)) as [->|Hne].
  - rewrite list_lookup_alter_eq. destruct (ts !! j); reflexivity.
  - rewrite list_lookup_alter_ne by assumption. reflexivity.
Qed.

Lemma Allows_same_mute : Allows same_mute.
Proof.
  split; try (intros; split; reflexivity).
  - intros a b c [H1 H2] [H3 H4]. split; congruence.
  - intros w i. split; [reflexivity|]. apply fmap_enabled_stop.
Qed.

(** X22. Only the listener of the mute button writes the mute state.  An
    input that does not run [toggleMute] -- any event on the session or the
    client, a click on the start or end button, a page unload, the
    settlement of any awaited SDK call -- leaves [isMuted] and the [enabled]
    flag of every track as they were: ending a call does not unmute, and
    starting the next one does not reset the flag. *)
Theorem only_toggleMute_changes_mute_state (i : Input) (w : World) :
  click_toggleMute ∉ fired i w ->
  let w' := world (step i w) in
  isMuted w' = isMuted w
  /\ length (tracks w') = length (tracks w)
  /\ (forall j t, tracks w !! j = Some t ->
        exists t', tracks w' !! j = Some t' /\ enabled t' = enabled t).
Proof.
  intros Hf w'. subst w'.
  destruct (step_keeps same_mute i w Allows_same_mute Hf) as [Hm He].
  split; [exact Hm|]. split.
  - rewrite <- (length_fmap enabled (tracks (world (step i w)))), He. apply length_fmap.
  - intros j t Ht.
    assert (H : (enabled <$> tracks (world (step i w))) !! j = Some (enabled t))
      by (rewrite He, list_lookup_fmap, Ht; reflexivity).
    rewrite list_lookup_fmap in H.
    destruct (tracks (world (step i w)) !! j) as [t'|]; [|discriminate].
    exists t'. split; [reflexivity|]. cbn in H. congruence.
Qed.

Lemma only_toggleMute_changes_mute_state_witness :
  isMuted (world (step (DomEvent "endBtn" "click") example_muted_call))
  = isMuted example_muted_call.
Proof.
  refine (proj1
    (only_toggleMute_changes_mute_state (DomEvent "endBtn" "click") example_muted_call _)).
  change (click_toggleMute ∉ [click_endCall]).
  apply not_elem_of_cons. split; [discriminate|apply not_elem_of_nil].
Defined.

Lemma listeners_grow_same w w' :
  dom_listeners w' = dom_listeners w -> clients w' = clients w -> sessions w' = sessions w ->
  listeners_grow w w'.
Proof.
  intros Hd Hc Hs. unfold listeners_grow. rewrite Hd, Hc, Hs.
  split; [reflexivity|]. split; intros k x Hx; exists x; split; [exact Hx|reflexivity| exact Hx|reflexivity].
Qed.

Lemma listeners_grow_trans a b c :
  listeners_grow a b -> listeners_grow b c -> listeners_grow a c.
Proof.
  intros (Hd1 & Hc1 & Hs1) (Hd2 & Hc2 & Hs2). split; [etrans; eassumption|]. split.
  - intros cid x Hx. destruct (Hc1 cid x Hx) as (y & Hy & Hxy).
    destruct (Hc2 cid y Hy) as (z & Hz & Hyz). exists z. split; [exact Hz|etrans; eassumption].
  - intros sid x Hx. destruct (Hs1 sid x Hx) as (y & Hy & Hxy).
    destruct (Hs2 sid y Hy) as (z & Hz & Hyz). exists z. split; [exact Hz|etrans; eassumption].
Qed.

Lemma Allows_listeners_grow : Allows listeners_grow.
Proof.
  split; try (intros; apply listeners_grow_same; reflexivity).
  - apply listeners_grow_trans.
  - intros w c. split; [reflexivity|]. split; intros k x Hx; cbn.
    + exists x. split; [apply lookup_app_l_Some, Hx|reflexivity].
    + exists x. split; [exact Hx|reflexivity].
  - intros w s. split; [reflexivity|]. split; intros k x Hx; cbn.
    + exists x. split; [exact Hx|reflexivity].
    + exists x. split; [apply lookup_app_l_Some, Hx|reflexivity].
  - intros w cid l. split; [reflexivity|]. split; intros k x Hx; cbn.
    + destruct (decide (cid = k)) as [->|Hne].
      * rewrite list_lookup_alter_eq, Hx. eexists. split; [reflexivity|].
        cbn. apply prefix_app_r. reflexivity.
      * rewrite list_lookup_alter_ne by assumption. exists x. split; [exact Hx|reflexivity].
    + exists x. split; [exact Hx|reflexivity].
  - intros w sid l. split; [reflexivity|]. split; intros k x Hx; cbn.
    + exists x. split; [exact Hx|reflexivity].
    + destruct (decide (sid = k)) as [->|Hne].
      * rewrite list_lookup_alter_eq, Hx. eexists. split; [reflexivity|].
        cbn. apply prefix_app_r. reflexivity.
      * rewrite list_lookup_alter_ne by assumption. exists x. split; [exact Hx|reflexivity].
  - intros w l. split; [cbn; apply prefix_app_r; reflexivity|].
    split; intros k x Hx; exists x; (split; [exact Hx|reflexivity]).
Qed.

Lemma keeps_toggleMute R :
  Allows R ->
  (forall w m, R w (set_isMuted m w)) ->
  (forall w v i, R w (set_tracks (alter (fun t => mkTrack (kind t) v (ended t)) i (tracks w)) w)) ->
  keeps R toggleMute.
Proof.
  intros HR Hm He. keeps_unfold.
  repeat first
    [ keeps_step (allows_refl _ HR) (allows_trans _ HR)
    | allows_modify HR
    | apply keeps_modify; intros ?; first [apply Hm | apply He] ].
Qed.

Lemma step_keeps_all R i :
  Allows R -> keeps R toggleMute -> keeps R (step i).
Proof.
  intros HR Hmute.
  assert (Hh : forall h params, keeps R (guarded (run_handler h params))).
  { intros h params. apply keeps_guarded;
      [exact (allows_refl _ HR)|exact (allows_trans _ HR)|].
    destruct h; first [exact Hmute | apply keeps_run_handler; [exact HR|discriminate]]. }
  destruct i; try (apply keeps_resumed; [exact HR|exact I]).
  all: cbn [step]; apply keeps_bind;
    [exact (allows_trans _ HR)|apply keeps_gets, (allows_refl _ HR)|intros hs].
  all: apply keeps_forEach; [exact (allows_refl _ HR)|exact (allows_trans _ HR)|].
  all: intros h; apply Hh.
Qed.

Lemma listeners_for_prefix {T} event (l l' : list (string * T)) h :
  l `prefix_of` l' -> h ∈ listeners_for event l -> h ∈ listeners_for event l'.
Proof.
  intros [k ->] H. unfold listeners_for. rewrite omap_app. apply elem_of_app. left. exact H.
Qed.

Lemma dom_listeners_for_prefix target event l l' h :
  l `prefix_of` l' -> h ∈ dom_listeners_for target event l ->
  h ∈ dom_listeners_for target event l'.
Proof.
  intros [k ->] H. unfold dom_listeners_for. rewrite omap_app. apply elem_of_app. left.
  exact H.
Qed.

(** X23. No listener is ever removed.  Whatever inputs arrive, in any
    number and order, a listener registered on an element, on a client or
    on a session is still registered on it afterwards: the listeners of a
    call outlive the call, on the client and session objects it used. *)
Theorem listeners_are_never_removed (inputs : list Input) (w : World) :
  let w' := world (run inputs w) in
  (forall target event h,
     h ∈ dom_listeners_for target event (dom_listeners w) ->
     h ∈ dom_listeners_for target event (dom_listeners w'))
  /\ (forall cid event h,
        h ∈ listeners_for event (c_listeners (client_at cid w)) ->
        h ∈ listeners_for event (c_listeners (client_at cid w')))
  /\ (forall sid event h,
        h ∈ listeners_for event (s_listeners (session_at sid w)) ->
        h ∈ listeners_for event (s_listeners (session_at sid w'))).
Proof.
  intros w'. subst w'.
  assert (H : listeners_grow w (world (run inputs w))).
  { apply keeps_run; [apply (allows_refl _ Allows_listeners_grow)
                     |apply (allows_trans _ Allows_listeners_grow)|].
    intros i. apply step_keeps_all; [exact Allows_listeners_grow|].
    apply keeps_toggleMute; [exact Allows_listeners_grow| |];
      intros; apply listeners_grow_same; reflexivity. }
  destruct H as (Hd & Hc & Hs). split; [|split].
  - intros target event h. apply dom_listeners_for_prefix, Hd.
  - intros cid event h. unfold client_at.
    destruct (clients w !! cid) as [c|] eqn:E; cbn.
    + destruct (Hc cid c E) as (c' & -> & Hp). cbn. apply listeners_for_prefix, Hp.
    + intros H. apply elem_of_nil in H. contradiction.
  - intros sid event h. unfold session_at.
    destruct (sessions w !! sid) as [s|] eqn:E; cbn.
    + destruct (Hs sid s E) as (s' & -> & Hp). cbn. apply listeners_for_prefix, Hp.
    + intros H. apply elem_of_nil in H. contradiction.
Qed.

(** X24. A late event of an earlier session ends the current call.  When a
    call is up on session [sid] and a session [old], which still carries a
    termination listener of a previous call, emits its event, [disconnect]
    runs on the current call: both handles are cleared, the tracks of the
    current session's local stream are stopped and the controls return to
    their initial state. *)
Theorem stale_session_event_ends_current_call
    (w : World) (old sid : nat) (event : string) (h : Handler) (params : JSValue) :
  roomSession w = Some sid ->
  old <> sid ->
  listeners_for event (s_listeners (session_at old w)) = [h] ->
  h = on_call_ended \/ h = on_destroy \/ h = on_room_left ->
  let w' := world (step (SessionEmit old event params) w) in
  roomSession w' = None
  /\ client w' = None
  /\ (forall stream i t,
        localStream (session_at sid w) = Some stream -> i ∈ stream ->
        tracks w' !! i = Some t -> ended t = true)
  /\ display (document w') !! "endBtn" = Some "none"
  /\ display (document w') !! "startBtn" = Some "block".
Proof.
  intros Hrs Hne Hl Hh w'. subst w'.
  rewrite (step_session_disconnect w old event h params Hl Hh).
  split; [reflexivity|]. split; [reflexivity|]. split.
  - intros stream i t Hst Hi. cbn [cleaned tracks].
    rewrite !stop_tracks_lookup.
    destruct (tracks w !! i) as [t0|]; cbn; [|discriminate].
    intros [= <-]. cbn.
    unfold local_stream_tracks. rewrite Hrs, Hst. cbn.
    rewrite (bool_decide_eq_true_2 _ Hi). rewrite orb_true_r. reflexivity.
  - split; cbn [cleaned document reset_document display];
      rewrite ?lookup_insert_ne by discriminate; apply lookup_insert_eq.
Qed.

Lemma stale_session_event_ends_current_call_witness :
  roomSession (world (step (SessionEmit 0 "destroy" JUndefined) example_second_call)) = None.
Proof.
  refine (proj1
    (stale_session_event_ends_current_call example_second_call 0 1 "destroy" on_destroy
       JUndefined _ _ _ _)).
  - reflexivity.
  - discriminate.
  - reflexivity.
  - right; left; reflexivity.
Defined.

(** X25. The session events call.updated, stream.started and
    media.connected are informational: with the listener [startCall]
    registers for them, delivering one changes no state, sends nothing to
    the SDK and sets no timer; it only writes to the console. *)
Theorem informational_events_change_nothing
    (w : World) (sid : nat) (event : string) (h : Handler) (params : JSValue) :
  listeners_for event (s_listeners (session_at sid w)) = [h] ->
  h = on_call_updated \/ h = on_stream_started \/ h = on_media_connected ->
  let o := step (SessionEmit sid event params) w in
  value o = Normal tt /\ world o = w /\ non_console (effects o) = [].
Proof.
  intros Hl Hh o. subst o. cbn [step]. unfold mbind, M_bind, bind, gets.
  rewrite Hl. destruct Hh as [-> | [-> | ->]]; repeat split.
Qed.

Lemma informational_events_change_nothing_witness :
  world (step (SessionEmit 0 "call.updated" JUndefined) example_active) = example_active.
Proof.
  refine (proj1 (proj2
    (informational_events_change_nothing example_active 0 "call.updated" on_call_updated
       JUndefined _ _))).
  - reflexivity.
  - left; reflexivity.
Defined.

(** X26. With a session present, a click on the end button and a page
    unload only ask the session to hang up: one hangup request is sent and
    the function is suspended on it.  No track is stopped and no handle is
    cleared at that point; [disconnect] runs when the request settles. *)
Theorem hangup_defers_cleanup
    (w : World) (sid : nat) (target event : string) (h : Handler) :
  roomSession w = Some sid ->
  dom_listeners_for target event (dom_listeners w) = [h] ->
  h = click_endCall \/ h = on_beforeunload ->
  let o := step (DomEvent target event) w in
  value o = Normal tt
  /\ world o = set_pending (pending w ++ [AwaitHangup]) w
  /\ sdk_requests (effects o) = [ReqHangup sid]
  /\ tracks (world o) = tracks w
  /\ roomSession (world o) = Some sid.
Proof.
  intros Hrs Hl Hh o. subst o.
  assert (H : exists es,
    step (DomEvent target event) w
    = mkOut (Normal tt) (set_pending (pending w ++ [AwaitHangup]) w) es
    /\ sdk_requests es = [ReqHangup sid]).
  { cbn [step]. unfold mbind at 1, M_bind at 1, bind at 1, gets.
    rewrite Hl. destruct Hh as [-> | ->]; cbn [forEach run_handler];
      unfold guarded, endCall, hangup; msimpl; rewrite Hrs; msimpl; rewrite ?Hrs; msimpl;
      eexists; split; reflexivity. }
  destruct H as (es & -> & Hes). repeat split; assumption.
Qed.

Lemma hangup_defers_cleanup_witness :
  tracks (world (step (DomEvent "window" "beforeunload") example_active))
  = tracks example_active.
Proof.
  refine (proj1 (proj2 (proj2 (proj2
    (hangup_defers_cleanup example_active 0 "window" "beforeunload" on_beforeunload
       _ _ _))))).
  - reflexivity.
  - reflexivity.
  - right; reflexivity.
Defined.
